(** * Binpat: a declarative binary-layout decoder

    A shallow embedding of [binpat.ts] (the pattern interpreter [exec], the
    primitive handlers, [string], [array], [bitfield], [ternary], [convert],
    [seek], [peek], [skip], [omit], [spread]) together with the properties
    of its specification.

    A handler of the source is a closure [(dv, ctx) => value] that mutates
    [ctx] in place.  Here a handler is a function from the context to a
    [result] holding the returned value and the context as the handler
    leaves it; a thrown exception is [Throw]. *)

From Stdlib Require Import ZArith List String Ascii Bool Lia.
From Stdlib Require Import Strings.Byte.
From Stdlib Require Import DecimalString SpecFloat Sorted.
Import ListNotations.

Set Warnings "-register-all".

Local Open Scope string_scope.
Local Open Scope list_scope.
Local Open Scope Z_scope.

(** ** Exceptions *)

(** The exceptions the modelled code can raise are those of the platform:
    the [RangeError] of the [DataView] getters and of the construction of
    an [Array], and the [TypeError] of a typed array of bigints that is
    given a value that is not a bigint. *)
Inductive exn : Type := RangeError | TypeError.

Inductive result (A : Type) : Type :=
| Ok (a : A)
| Throw (e : exn).

Arguments Ok {A} a.
Arguments Throw {A} e.

Definition bind {A B : Type} (r : result A) (k : A -> result B) : result B :=
  match r with
  | Ok a => k a
  | Throw e => Throw e
  end.

Notation "'let*' x ':=' r 'in' k" := (bind r (fun x => k))
  (at level 10, x pattern, r at level 100, k at level 200).

(** ** The fragment of the language the decoder relies on *)

Module JS.

(** [s.startsWith(p)] *)
Fixpoint startsWith (s p : string) {struct p} : bool :=
  match p with
  | EmptyString => true
  | String c p' =>
      match s with
      | EmptyString => false
      | String d s' => Ascii.eqb c d && startsWith s' p'
      end
  end.

(** Relative index of [slice]: a negative index counts from the end, and
    every index is clamped to [0 .. len]. *)
Definition relative_index (len i : Z) : Z :=
  if i <? 0 then Z.max (len + i) 0 else Z.min i len.

(** [ArrayBuffer.prototype.slice(start, end)] and
    [String.prototype.slice(start, end)]: never fail, the span is clamped
    to what exists. *)
Definition slice {A : Type} (l : list A) (start end_ : Z) : list A :=
  let len := Z.of_nat (List.length l) in
  let first := relative_index len start in
  let final := relative_index len end_ in
  firstn (Z.to_nat (final - first)) (skipn (Z.to_nat first) l).

(** [slice(start)]: up to the end. *)
Definition slice_from {A : Type} (l : list A) (start : Z) : list A :=
  slice l start (Z.of_nat (List.length l)).

(** [ToLength] on an integer: a negative length is [0]. *)
Definition ToLength (n : Z) : Z := Z.max 0 n.

(** [Math.ceil(n / 8)] on an integer [n]. *)
Definition ceil_div8 (n : Z) : Z := (n + 7) / 8.

(** [1 << n]: the shift count is taken modulo 32 and the result is a
    signed 32-bit integer. *)
Definition shl1 (n : Z) : Z :=
  let c := n mod 32 in
  if c =? 31 then - 2 ^ 31 else 2 ^ c.

(** The decimal string of an array index. *)
Definition index_key (n : nat) : string :=
  NilEmpty.string_of_uint (Nat.to_uint n).

(** A property key is an array index when it is the canonical decimal
    string of an integer below [2^32 - 1]. *)
Definition array_index (k : string) : option N :=
  match NilEmpty.uint_of_string k with
  | Some u =>
      let n := N.of_uint u in
      if (String.eqb (NilEmpty.string_of_uint (N.to_uint n)) k
          && (n <? 4294967295)%N)%bool
      then Some n else None
  | None => None
  end.

End JS.

(** ** Values *)

Inductive TypedArrayConstructor : Type :=
| Uint8Array | Uint16Array | Uint32Array | BigUint64Array
| Int8Array | Int16Array | Int32Array | BigInt64Array
| Float16Array | Float32Array | Float64Array.

(** A decoded value.  A number that is an integer is a [VNumber]; the
    numbers read by [getFloat16/32/64] are a [VFloat] holding the value of
    the IEEE 754 bit pattern; [VNaN] is what [parseInt] gives on an empty
    string.  An object is the list of its own properties in the order
    [Object.entries] lists them. *)
Inductive value : Type :=
| VUndefined
| VNumber (n : Z)
| VNaN
| VFloat (f : spec_float)
| VBigInt (n : Z)
| VBoolean (b : bool)
| VString (s : string)
| VArray (vs : list value)
| VTypedArray (c : TypedArrayConstructor) (vs : list value)
| VObject (o : list (string * value)).

Definition jsobj : Type := list (string * value).

Module Obj.

Definition keys (o : jsobj) : list string := map fst o.

Fixpoint has (k : string) (o : jsobj) : bool :=
  match o with
  | [] => false
  | (k', _) :: o' => String.eqb k k' || has k o'
  end.

(** [o[k]]. *)
Fixpoint get (k : string) (o : jsobj) : value :=
  match o with
  | [] => VUndefined
  | (k', v) :: o' => if String.eqb k k' then v else get k o'
  end.

Fixpoint replace (k : string) (v : value) (o : jsobj) : jsobj :=
  match o with
  | [] => []
  | (k', v') :: o' =>
      if String.eqb k k' then (k', v) :: o' else (k', v') :: replace k v o'
  end.

(** A new array-index key goes among the index keys, in ascending
    order; index keys come before every other key. *)
Fixpoint insert_index (n : N) (k : string) (v : value) (o : jsobj) : jsobj :=
  match o with
  | [] => [(k, v)]
  | (k', v') :: o' =>
      match JS.array_index k' with
      | Some m =>
          if (m <? n)%N then (k', v') :: insert_index n k v o'
          else (k, v) :: (k', v') :: o'
      | None => (k, v) :: (k', v') :: o'
      end
  end.

(** [o[k] = v]: an existing key keeps its place; a new key goes to the
    end, unless it is an array index.  Every key is an ordinary property,
    as on a platform without the legacy [__proto__] accessor. *)
Definition set (k : string) (v : value) (o : jsobj) : jsobj :=
  if has k o then replace k v o
  else match JS.array_index k with
       | Some n => insert_index n k v o
       | None => o ++ [(k, v)]
       end.

(** Copy the properties [src] into [o], one assignment each. *)
Definition assign (o : jsobj) (src : list (string * value)) : jsobj :=
  fold_left (fun acc kv => set (fst kv) (snd kv) acc) src o.

(** [Object.fromEntries]. *)
Definition fromEntries (kvs : list (string * value)) : jsobj := assign [] kvs.

Fixpoint indexed (i : nat) (vs : list value) : list (string * value) :=
  match vs with
  | [] => []
  | v :: vs' => (JS.index_key i, v) :: indexed (S i) vs'
  end.

Fixpoint chars (s : string) : list value :=
  match s with
  | EmptyString => []
  | String c s' => VString (String c EmptyString) :: chars s'
  end.

(** The own enumerable properties that the spread syntax [{...v}] copies
    from [v]: none for [undefined], a number, a bigint or a boolean, the
    characters of a string and the elements of an array under their
    indices, the entries of an object. *)
Definition own_entries (v : value) : list (string * value) :=
  match v with
  | VString s => indexed 0 (chars s)
  | VArray vs => indexed 0 vs
  | VTypedArray _ vs => indexed 0 vs
  | VObject o => o
  | _ => []
  end.

(** [{ ...a, ...b }] *)
Definition spread2 (a : jsobj) (b : value) : jsobj :=
  assign (assign [] a) (own_entries b).

End Obj.

(** ** Object literals *)

(** The own properties of the object that a literal
    [{ k1: v1, k2: v2, ... }] builds, in the order [Object.entries] lists
    them, from the properties that the literal defines, in the order it
    is written: a key defined again keeps its place and takes the new
    value; a new key that is an array index goes among the index keys, in
    ascending order and before every other key; any other new key goes to
    the end. *)
Module ObjectLiteral.

Section properties.

Context {A : Type}.

Fixpoint has (k : string) (o : list (string * A)) : bool :=
  match o with
  | [] => false
  | (k', _) :: o' => String.eqb k k' || has k o'
  end.

Fixpoint replace (k : string) (v : A) (o : list (string * A)) : list (string * A) :=
  match o with
  | [] => []
  | (k', v') :: o' =>
      if String.eqb k k' then (k', v) :: o' else (k', v') :: replace k v o'
  end.

Fixpoint insert_index (n : N) (k : string) (v : A) (o : list (string * A))
    : list (string * A) :=
  match o with
  | [] => [(k, v)]
  | (k', v') :: o' =>
      match JS.array_index k' with
      | Some m =>
          if (m <? n)%N then (k', v') :: insert_index n k v o'
          else (k, v) :: (k', v') :: o'
      | None => (k, v) :: (k', v') :: o'
      end
  end.

Definition define (k : string) (v : A) (o : list (string * A)) : list (string * A) :=
  if has k o then replace k v o
  else match JS.array_index k with
       | Some n => insert_index n k v o
       | None => o ++ [(k, v)]
       end.

Definition entries (declared : list (string * A)) : list (string * A) :=
  fold_left (fun o kv => define (fst kv) (snd kv) o) declared [].

End properties.

End ObjectLiteral.

(** ** The byte buffer and its [DataView] *)

Definition byte_val (b : byte) : Z := Z.of_N (Byte.to_N b).

Module DataView.

(** [constructor.BYTES_PER_ELEMENT]. *)
Definition BYTES_PER_ELEMENT (c : TypedArrayConstructor) : Z :=
  match c with
  | Uint8Array | Int8Array => 1
  | Uint16Array | Int16Array | Float16Array => 2
  | Uint32Array | Int32Array | Float32Array => 4
  | BigUint64Array | BigInt64Array | Float64Array => 8
  end.

(** The integer whose little-endian bytes are [bs]. *)
Fixpoint le_value (bs : list byte) : Z :=
  match bs with
  | [] => 0
  | b :: bs' => byte_val b + 256 * le_value bs'
  end.

Definition to_signed (bits n : Z) : Z :=
  if 2 ^ (bits - 1) <=? n then n - 2 ^ bits else n.

(** The value of an IEEE 754 binary interchange pattern with [ebits]
    exponent bits and [mbits] fraction bits. *)
Definition decode_float (ebits mbits n : Z) : spec_float :=
  let sign := Z.testbit n (ebits + mbits) in
  let e := Z.land (Z.shiftr n mbits) (2 ^ ebits - 1) in
  let m := Z.land n (2 ^ mbits - 1) in
  let bias := 2 ^ (ebits - 1) - 1 in
  if e =? 0 then
    match m with
    | Zpos p => S754_finite sign p (1 - bias - mbits)
    | _ => S754_zero sign
    end
  else if e =? 2 ^ ebits - 1 then
    if m =? 0 then S754_infinity sign else S754_nan
  else
    match m + 2 ^ mbits with
    | Zpos p => S754_finite sign p (e - bias - mbits)
    | _ => S754_zero sign
    end.

(** The element of type [c] that the unsigned integer [n] encodes: [n]
    itself, its two's complement reading, or the float of that bit
    pattern. *)
Definition numeric (c : TypedArrayConstructor) (n : Z) : value :=
  match c with
  | Uint8Array | Uint16Array | Uint32Array => VNumber n
  | BigUint64Array => VBigInt n
  | Int8Array => VNumber (to_signed 8 n)
  | Int16Array => VNumber (to_signed 16 n)
  | Int32Array => VNumber (to_signed 32 n)
  | BigInt64Array => VBigInt (to_signed 64 n)
  | Float16Array => VFloat (decode_float 5 10 n)
  | Float32Array => VFloat (decode_float 8 23 n)
  | Float64Array => VFloat (decode_float 11 52 n)
  end.

(** [RawBytesToNumeric]: [bs] is in little-endian order. *)
Definition RawBytesToNumeric (c : TypedArrayConstructor) (bs : list byte) : value :=
  numeric c (le_value bs).

(** [dv.getXxx(requestIndex, isLittleEndian)], the getter named after the
    element type of [c]: a [RangeError] unless the whole element lies
    inside the view. *)
Definition GetViewValue (dv : list byte) (requestIndex : Z)
    (isLittleEndian : bool) (c : TypedArrayConstructor) : result value :=
  if requestIndex <? 0 then Throw RangeError
  else
    let elementSize := BYTES_PER_ELEMENT c in
    if Z.of_nat (List.length dv) <? requestIndex + elementSize then Throw RangeError
    else
      let rawBytes :=
        firstn (Z.to_nat elementSize) (skipn (Z.to_nat requestIndex) dv) in
      Ok (RawBytesToNumeric c (if isLittleEndian then rawBytes else rev rawBytes)).

End DataView.

(** ** Contexts and patterns *)

Inductive Endian : Type := big | little.

Definition Endian_eqb (a b : Endian) : bool :=
  match a, b with
  | big, big | little, little => true
  | _, _ => false
  end.

(** The context of a handler.  In the source a context is an object that
    the handlers mutate, and [parent] is a reference to the context of the
    enclosing Structure.  The only write to a context that is not the one
    a handler runs on is [parent.offset = ctx.offset], when a Structure is
    done; while a Structure runs, the context it points to as [parent] is
    not written, so [parent] holds that context as it is when the
    Structure starts.  The functions that a pattern takes from the user
    (sizes, offsets, conditions, conversions) read the context and do not
    write it. *)
Inductive BinpatContext : Type := mkContext {
  endian : Endian;
  parent : option BinpatContext;
  offset : Z;
  data : jsobj
}.

Definition set_offset (ctx : BinpatContext) (o : Z) : BinpatContext :=
  mkContext (endian ctx) (parent ctx) o (data ctx).

Definition set_data (ctx : BinpatContext) (d : jsobj) : BinpatContext :=
  mkContext (endian ctx) (parent ctx) (offset ctx) d.

(** [number | ((ctx: BinpatContext) => number)] *)
Inductive NumberOrFn : Type :=
| Num (n : Z)
| Fn (f : BinpatContext -> Z).

(** [typeof x === 'function' ? x(ctx) : x] *)
Definition resolve (x : NumberOrFn) (ctx : BinpatContext) : Z :=
  match x with
  | Num n => n
  | Fn f => f ctx
  end.

(** The text decoder that the platform attaches to an encoding label. *)
Record TextDecoder : Type := { decode : list byte -> string }.

Inductive BitfieldKind : Type := kind_u | kind_i | kind_bool.

Record BitfieldType : Type := { type : BitfieldKind; size : Z }.

(** A layout entry is a bit count or a [BitfieldType]. *)
Inductive BitfieldDef : Type :=
| BitNumber (n : Z)
| BitType (t : BitfieldType).

Inductive BitFirst : Type := MSb | LSb.

Record BitfieldOption : Type := {
  option_endian : option Endian;
  option_first : option BitFirst
}.

(** A literal of a pattern: it decodes to itself. *)
Inductive Literal : Type :=
| LitString (s : string)
| LitNumber (n : Z)
| LitBoolean (b : bool).

Definition literal_value (l : Literal) : value :=
  match l with
  | LitString s => VString s
  | LitNumber n => VNumber n
  | LitBoolean b => VBoolean b
  end.

(** A pattern: a handler (each constructor below down to [PSkip] is the
    closure that the function of the same name returns, with the arguments
    it has captured), an array of patterns, an object of patterns (its
    entries as [Object.entries] lists them) or a literal. *)
Inductive BinpatPattern : Type :=
| PTyped (constructor : TypedArrayConstructor) (littleEndian : option bool)
| PBool
| PString (size : NumberOrFn) (encoding : TextDecoder)
| PArray (pattern : BinpatPattern) (size : NumberOrFn)
| PBitfield (field : list (string * BitfieldDef)) (option : BitfieldOption)
| PTernary (condition : BinpatContext -> bool) (truthy : BinpatPattern)
    (falsy : option BinpatPattern)
| PConvert (pattern : BinpatPattern) (fn : value -> BinpatContext -> value)
| PSeek (offset : NumberOrFn)
| PPeek (offset : NumberOrFn) (pattern : BinpatPattern)
| PSkip (offset : Z)
| PList (patterns : list BinpatPattern)
| PObject (entries : list (string * BinpatPattern))
| PLit (l : Literal).

(** The object pattern that a literal builds from the fields it declares,
    in the order of the source text. *)
Definition structure (declared : list (string * BinpatPattern)) : BinpatPattern :=
  PObject (ObjectLiteral.entries declared).

(** ** Key markers *)

(** [omit()] and [spread()] draw a suffix [rnd] from [random()] and return
    a key with a fixed prefix; the comment argument is ignored. *)
Definition omit (rnd : string) : string := String.append "//" rnd.

Definition spread (rnd : string) : string := String.append "..." rnd.

(** ** Handlers that do not call [exec] *)

(** [type BinpatHandler<T> = (dv: DataView, ctx: BinpatContext) => T] *)
Definition BinpatHandler : Type :=
  list byte -> BinpatContext -> result (value * BinpatContext).

(** [createTypedHandler(constructor)(littleEndian)] *)
Definition createTypedHandler (constructor : TypedArrayConstructor)
    (littleEndian : option bool) : BinpatHandler :=
  fun dv ctx =>
    let le :=
      match littleEndian with
      | Some b => b
      | None => Endian_eqb (endian ctx) little
      end in
    let* value := DataView.GetViewValue dv (offset ctx) le constructor in
    Ok (value, set_offset ctx (offset ctx + DataView.BYTES_PER_ELEMENT constructor)).

(** The handler of [bool()]. *)
Definition bool_handler : BinpatHandler :=
  fun dv ctx =>
    let* value := DataView.GetViewValue dv (offset ctx) false Uint8Array in
    let value :=
      match value with
      | VNumber n => negb (n =? 0)
      | _ => true
      end in
    Ok (VBoolean value, set_offset ctx (offset ctx + 1)).

(** The handler of [string(size, encoding)]. *)
Definition string_handler (size : NumberOrFn) (encoding : TextDecoder) : BinpatHandler :=
  fun dv ctx =>
    let len := resolve size ctx in
    let value := JS.slice dv (offset ctx) (offset ctx + len) in
    let ctx := set_offset ctx (offset ctx + len) in
    Ok (VString (decode encoding value), ctx).

(** The handler of [seek(offset)]. *)
Definition seek_handler (offset_ : NumberOrFn) : BinpatHandler :=
  fun dv ctx => Ok (VUndefined, set_offset ctx (resolve offset_ ctx)).

(** The handler of [skip(offset)]. *)
Definition skip_handler (offset_ : Z) : BinpatHandler :=
  fun dv ctx => Ok (VUndefined, set_offset ctx (offset ctx + offset_)).

(** *** Bitfields *)

Module Bitfield.

Definition u (size : Z) : BitfieldDef := BitType {| type := kind_u; size := size |}.
Definition i (size : Z) : BitfieldDef := BitType {| type := kind_i; size := size |}.
Definition bool : BitfieldDef := BitType {| type := kind_bool; size := 1 |}.

(** [typeof value === 'number' ? { type: 'u', size: value } : value] *)
Definition definition (value : BitfieldDef) : BitfieldType :=
  match value with
  | BitNumber n => {| type := kind_u; size := n |}
  | BitType t => t
  end.

(** [byte.toString(2).padStart(8, '0')], one [bool] per binary digit. *)
Definition byte_bits (b : byte) : list Datatypes.bool :=
  map (Z.testbit (byte_val b)) [7; 6; 5; 4; 3; 2; 1; 0].

(** [Number.parseInt(s, 2)] on a string of binary digits: [None] is
    [NaN], the result on the empty string.  The integer is exact, as the
    number of the source is for a field of at most 53 bits. *)
Definition parseInt2 (s : list Datatypes.bool) : option Z :=
  match s with
  | [] => None
  | _ => Some (fold_left (fun acc (d : Datatypes.bool) => 2 * acc + (if d then 1 else 0)) s 0)
  end.

Definition typedValue (def : BitfieldType) (v : option Z) : value :=
  match type def with
  | kind_u =>
      match v with
      | Some n => VNumber n
      | None => VNaN
      end
  | kind_i =>
      match v with
      | Some n =>
          VNumber (if n <? JS.shl1 (size def - 1) then n else n - JS.shl1 (size def))
      | None => VNaN
      end
  | kind_bool =>
      match v with
      | Some n => VBoolean (negb (n =? 0))
      | None => VBoolean false
      end
  end.

(** The [kvs.map(...).filter((x) => x !== null)] of the handler: each
    field takes the first [size] digits of what is left of [content]. *)
Fixpoint values (kvs : list (string * BitfieldType)) (content : list Datatypes.bool)
    : list (string * value) :=
  match kvs with
  | [] => []
  | (key, def) :: kvs' =>
      let v := parseInt2 (JS.slice content 0 (size def)) in
      let content := JS.slice_from content (size def) in
      if JS.startsWith key "//" then values kvs' content
      else (key, typedValue def v) :: values kvs' content
  end.

(** [Object.entries(field).map(...)]: every entry with its definition. *)
Definition definitions (field : list (string * BitfieldDef))
    : list (string * BitfieldType) :=
  map (fun kv => (fst kv, definition (snd kv))) field.

(** [kvs.reduce((sum, [, cur]) => sum + cur.size, 0)] *)
Definition bitSize (kvs : list (string * BitfieldType)) : Z :=
  fold_left (fun sum cur => sum + size (snd cur)) kvs 0.

(** The handler of [bitfield(field, option)]; [rnd] is what [random()]
    returns to the [omit()] of the end padding. *)
Definition handler (rnd : string) (field : list (string * BitfieldDef))
    (option : BitfieldOption) : BinpatHandler :=
  fun dv ctx =>
    let endian :=
      match option_endian option with
      | Some e => e
      | None => endian ctx
      end in
    let first :=
      match option_first option with
      | Some f => f
      | None => if Endian_eqb endian big then MSb else LSb
      end in
    let kvs := definitions field in
    let bitSize := bitSize kvs in
    let byteSize := JS.ceil_div8 bitSize in
    let endPadding := byteSize * 8 - bitSize in
    let kvs :=
      if endPadding =? 0 then kvs
      else kvs ++ [(omit rnd, {| type := kind_u; size := endPadding |})] in
    let kvs :=
      match first with
      | LSb => rev kvs
      | MSb => kvs
      end in
    let bytes := JS.slice dv (offset ctx) (offset ctx + byteSize) in
    let bytes :=
      match endian with
      | little => rev bytes
      | big => bytes
      end in
    let ctx := set_offset ctx (offset ctx + byteSize) in
    let content := flat_map byte_bits bytes in
    let result := Obj.fromEntries (values kvs content) in
    Ok (VObject
          (Obj.fromEntries
             (map (fun key => (key, Obj.get key result))
                (filter (fun key => negb (JS.startsWith key "//")) (map fst field)))),
        ctx).

End Bitfield.

(** ** The interpreter *)

(** [{ ...parent, parent, data: {} }] *)
Definition child_context (parent_ : BinpatContext) : BinpatContext :=
  mkContext (endian parent_) (Some parent_) (offset parent_) [].

(** What the [forEach] callback of an object pattern does with the
    [result] of the entry [key], after [exec] has left the context [ctx]. *)
Definition store (key : string) (result : value) (ctx : BinpatContext) : BinpatContext :=
  if JS.startsWith key "..." then set_data ctx (Obj.spread2 (data ctx) result)
  else if JS.startsWith key "//" then ctx
  else set_data ctx (Obj.set key result (data ctx)).

(** The largest length of an [Array]. *)
Definition max_array_length : Z := 4294967295.

(** The typed arrays whose elements are bigints. *)
Definition is_bigint (constructor : TypedArrayConstructor) : bool :=
  match constructor with
  | BigUint64Array | BigInt64Array => true
  | _ => false
  end.

(** [(pattern[BINPAT_ARRAY] || Array)]: the typed array of a primitive
    pattern, a plain array of anything else. *)
Definition array_of (pat : BinpatPattern) (vs : list value) : value :=
  match pat with
  | PTyped constructor _ => VTypedArray constructor vs
  | _ => VArray vs
  end.

Definition is_typed (pat : BinpatPattern) : bool :=
  match pat with
  | PTyped _ _ => true
  | _ => false
  end.

(** [(pattern[BINPAT_ARRAY] || Array).from({ length: len })]: the exception
    it raises, if any, before [map] runs the pattern.  [Array.from] refuses
    a length above [2^32 - 1] with a [RangeError].  A typed array is filled
    with the conversion of [undefined], the value of every element of
    [{ length: len }]: that is [0] or [NaN] in a typed array of numbers,
    and a [TypeError] in a [BigUint64Array] or a [BigInt64Array], as soon
    as there is one element. *)
Definition Array_from (pat : BinpatPattern) (len : Z) : option exn :=
  match pat with
  | PTyped constructor _ =>
      if is_bigint constructor && (0 <? len) then Some TypeError else None
  | _ => if max_array_length <? len then Some RangeError else None
  end.

(** [exec(dv, pattern, parent)].  The end padding of a bitfield draws its
    key from [random()]; the handler drops that key whatever the draw
    ([Bitfield_handler_random] below), and [exec] runs it on the empty
    draw. *)
Fixpoint exec (dv : list byte) (pattern : BinpatPattern) (parent_ : BinpatContext)
    {struct pattern} : result (value * BinpatContext) :=
  match pattern with
  | PTyped constructor littleEndian => createTypedHandler constructor littleEndian dv parent_
  | PBool => bool_handler dv parent_
  | PString size encoding => string_handler size encoding dv parent_
  | PBitfield field option => Bitfield.handler EmptyString field option dv parent_
  | PSeek offset_ => seek_handler offset_ dv parent_
  | PSkip offset_ => skip_handler offset_ dv parent_
  | PArray pat size =>
      let len := JS.ToLength (resolve size parent_) in
      let map_ :=
        fix map_ (n : nat) (ctx : BinpatContext) : result (list value * BinpatContext) :=
          match n with
          | O => Ok ([], ctx)
          | S n' =>
              let* (v, ctx) := exec dv pat ctx in
              let* (vs, ctx) := map_ n' ctx in
              Ok (v :: vs, ctx)
          end in
      match Array_from pat len with
      | Some e => Throw e
      | None =>
          let* (vs, ctx) := map_ (Z.to_nat len) parent_ in
          Ok (array_of pat vs, ctx)
      end
  | PTernary condition truthy falsy =>
      if condition parent_ then exec dv truthy parent_
      else
        match falsy with
        | Some pat => exec dv pat parent_
        | None => Ok (VUndefined, parent_)
        end
  | PConvert pat fn =>
      let* (value, ctx) := exec dv pat parent_ in
      Ok (fn value ctx, ctx)
  | PPeek offset_ pat =>
      let currentOffset := offset parent_ in
      let ctx := set_offset parent_ (resolve offset_ parent_) in
      let* (value, ctx) := exec dv pat ctx in
      Ok (value, set_offset ctx currentOffset)
  | PList patterns =>
      let map_ :=
        fix map_ (pats : list BinpatPattern) (ctx : BinpatContext)
            : result (list value * BinpatContext) :=
          match pats with
          | [] => Ok ([], ctx)
          | pat :: pats' =>
              let* (v, ctx) := exec dv pat ctx in
              let* (vs, ctx) := map_ pats' ctx in
              Ok (v :: vs, ctx)
          end in
      let* (vs, ctx) := map_ patterns parent_ in
      Ok (VArray vs, ctx)
  | PObject entries =>
      let forEach :=
        fix forEach (kvs : list (string * BinpatPattern)) (ctx : BinpatContext)
            : result BinpatContext :=
          match kvs with
          | [] => Ok ctx
          | (key, value) :: kvs' =>
              let* (result, ctx) := exec dv value ctx in
              forEach kvs' (store key result ctx)
          end in
      let* ctx := forEach entries (child_context parent_) in
      Ok (VObject (data ctx), set_offset parent_ (offset ctx))
  | PLit l => Ok (literal_value l, parent_)
  end.

(** *** The pattern-construction surface *)

Definition u8 := PTyped Uint8Array.
Definition u16 := PTyped Uint16Array.
Definition u32 := PTyped Uint32Array.
Definition u64 := PTyped BigUint64Array.
Definition i8 := PTyped Int8Array.
Definition i16 := PTyped Int16Array.
Definition i32 := PTyped Int32Array.
Definition i64 := PTyped BigInt64Array.
Definition f16 := PTyped Float16Array.
Definition f32 := PTyped Float32Array.
Definition f64 := PTyped Float64Array.
Definition array := PArray.
Definition bitfield := PBitfield.
Definition ternary := PTernary.
Definition convert := PConvert.
Definition seek := PSeek.
Definition peek := PPeek.
Definition skip := PSkip.

(** *** The class [Binpat] *)

Record Binpat : Type := {
  Binpat_pattern : BinpatPattern;
  Binpat_endian : Endian
}.

(** [new Binpat(pattern, option)]: [option?.endian === 'little' ? 'little' : 'big'] *)
Definition new_Binpat (pattern : BinpatPattern) (option : option Endian) : Binpat :=
  {| Binpat_pattern := pattern;
     Binpat_endian :=
       match option with
       | Some little => little
       | _ => big
       end |}.

Definition root_context (e : Endian) : BinpatContext := mkContext e None 0 [].

(** [binpat.exec(buffer)] *)
Definition Binpat_exec (b : Binpat) (buffer : list byte) : result value :=
  let ctx := root_context (Binpat_endian b) in
  let* (v, _) := exec buffer (Binpat_pattern b) ctx in
  Ok v.

(** ** The loops of [exec], named *)

(** [n] runs of [pat], one after the other on the same context: the
    [.map(() => exec(dv, pattern, ctx))] of [array]. *)
Fixpoint exec_times (dv : list byte) (pat : BinpatPattern) (n : nat)
    (ctx : BinpatContext) : result (list value * BinpatContext) :=
  match n with
  | O => Ok ([], ctx)
  | S n' =>
      let* (v, ctx) := exec dv pat ctx in
      let* (vs, ctx) := exec_times dv pat n' ctx in
      Ok (v :: vs, ctx)
  end.

(** [pattern.map((pat) => exec(dv, pat, parent))] *)
Fixpoint exec_list (dv : list byte) (pats : list BinpatPattern)
    (ctx : BinpatContext) : result (list value * BinpatContext) :=
  match pats with
  | [] => Ok ([], ctx)
  | pat :: pats' =>
      let* (v, ctx) := exec dv pat ctx in
      let* (vs, ctx) := exec_list dv pats' ctx in
      Ok (v :: vs, ctx)
  end.

(** [Object.entries(pattern).forEach(...)] on the context [ctx] of the
    object pattern. *)
Fixpoint exec_entries (dv : list byte) (kvs : list (string * BinpatPattern))
    (ctx : BinpatContext) : result BinpatContext :=
  match kvs with
  | [] => Ok ctx
  | (key, value) :: kvs' =>
      let* (result, ctx) := exec dv value ctx in
      exec_entries dv kvs' (store key result ctx)
  end.

(** ** Induction on patterns *)

Section pattern_induction.

Variable P : BinpatPattern -> Prop.

Hypothesis HTyped : forall c le, P (PTyped c le).
Hypothesis HBool : P PBool.
Hypothesis HString : forall size encoding, P (PString size encoding).
Hypothesis HArray : forall pat size, P pat -> P (PArray pat size).
Hypothesis HBitfield : forall field option, P (PBitfield field option).
Hypothesis HTernary_some :
  forall condition truthy falsy,
    P truthy -> P falsy -> P (PTernary condition truthy (Some falsy)).
Hypothesis HTernary_none :
  forall condition truthy, P truthy -> P (PTernary condition truthy None).
Hypothesis HConvert : forall pat fn, P pat -> P (PConvert pat fn).
Hypothesis HSeek : forall o, P (PSeek o).
Hypothesis HPeek : forall o pat, P pat -> P (PPeek o pat).
Hypothesis HSkip : forall o, P (PSkip o).
Hypothesis HList : forall pats, Forall P pats -> P (PList pats).
Hypothesis HObject :
  forall entries, Forall (fun kv => P (snd kv)) entries -> P (PObject entries).
Hypothesis HLit : forall l, P (PLit l).

Fixpoint pattern_induction (p : BinpatPattern) : P p :=
  match p with
  | PTyped c le => HTyped c le
  | PBool => HBool
  | PString size encoding => HString size encoding
  | PArray pat size => HArray pat size (pattern_induction pat)
  | PBitfield field option => HBitfield field option
  | PTernary condition truthy (Some falsy) =>
      HTernary_some condition truthy falsy
        (pattern_induction truthy) (pattern_induction falsy)
  | PTernary condition truthy None =>
      HTernary_none condition truthy (pattern_induction truthy)
  | PConvert pat fn => HConvert pat fn (pattern_induction pat)
  | PSeek o => HSeek o
  | PPeek o pat => HPeek o pat (pattern_induction pat)
  | PSkip o => HSkip o
  | PList pats =>
      HList pats
        ((fix all (l : list BinpatPattern) : Forall P l :=
            match l with
            | [] => Forall_nil P
            | x :: l' => Forall_cons x (pattern_induction x) (all l')
            end) pats)
  | PObject entries =>
      HObject entries
        ((fix all (l : list (string * BinpatPattern))
            : Forall (fun kv => P (snd kv)) l :=
            match l with
            | [] => Forall_nil _
            | x :: l' => Forall_cons x (pattern_induction (snd x)) (all l')
            end) entries)
  | PLit l => HLit l
  end.

End pattern_induction.

(** ** What the properties are stated with *)

(** The integer whose big-endian bytes are [bs]: the first byte is the most
    significant one. *)
Definition be_value (bs : list byte) : Z :=
  fold_left (fun acc b => acc * 256 + byte_val b) bs 0.

(** The [w] bytes of the buffer at offset [o], in buffer order. *)
Definition span (dv : list byte) (o w : Z) : list byte :=
  firstn (Z.to_nat w) (skipn (Z.to_nat o) dv).

(** The element of type [c] stored at offset [o], read in the byte order
    [le]. *)
Definition read_value (c : TypedArrayConstructor) (le : bool) (dv : list byte)
    (o : Z) : value :=
  let bs := span dv o (DataView.BYTES_PER_ELEMENT c) in
  DataView.numeric c (be_value (if le then rev bs else bs)).

(** The byte order of a primitive: the override when there is one
    ([true] is little-endian, [false] big-endian), else that of the
    context. *)
Definition byte_order (littleEndian : option bool) (ctx : BinpatContext) : bool :=
  match littleEndian with
  | Some b => b
  | None => Endian_eqb (endian ctx) little
  end.

(** The byte order in the words of the specification: little-endian if
    the override is supplied, else that of the context. *)
Definition byte_order_if_supplied (littleEndian : option bool)
    (ctx : BinpatContext) : bool :=
  match littleEndian with
  | Some _ => true
  | None => Endian_eqb (endian ctx) little
  end.

(** The whole element at offset [o] lies inside the buffer. *)
Definition in_range (dv : list byte) (o w : Z) : Prop :=
  0 <= o /\ o + w <= Z.of_nat (List.length dv).

(** The entries that the result [r] of the entry [key] brings to the
    result mapping: those of [r] for a spread key, none for an omitted
    key, [key] itself otherwise. *)
Definition contribution (key : string) (r : value) : list (string * value) :=
  if JS.startsWith key "..." then Obj.own_entries r
  else if JS.startsWith key "//" then []
  else [(key, r)].

Definition contributions (rs : list (string * value)) : list (string * value) :=
  flat_map (fun kr => contribution (fst kr) (snd kr)) rs.

(** The [forEach] loop of an object pattern, keeping the result of every
    entry next to its key, in the order of execution. *)
Fixpoint exec_trace (dv : list byte) (kvs : list (string * BinpatPattern))
    (ctx : BinpatContext) : result (list (string * value) * BinpatContext) :=
  match kvs with
  | [] => Ok ([], ctx)
  | (key, value) :: kvs' =>
      let* (result, ctx) := exec dv value ctx in
      let* (rs, ctx) := exec_trace dv kvs' (store key result ctx) in
      Ok ((key, result) :: rs, ctx)
  end.

(** Keys in the order [Object.entries] lists them: array indices in
    ascending order, then the other keys. *)
Definition key_before (k1 k2 : string) : Prop :=
  match JS.array_index k1, JS.array_index k2 with
  | Some a, Some b => (a < b)%N
  | Some _, None => True
  | None, None => True
  | None, Some _ => False
  end.

(** An object as the language builds it. *)
Definition canonical (o : jsobj) : Prop :=
  NoDup (Obj.keys o) /\ StronglySorted key_before (Obj.keys o).

(** A value that is not a mapping and has no elements to spread. *)
Definition scalar (v : value) : Prop :=
  match v with
  | VUndefined | VNumber _ | VNaN | VFloat _ | VBigInt _ | VBoolean _ => True
  | _ => False
  end.

(** [forward_run dv p ctx]: in the run of [p] on [ctx] over [dv], outside
    [peek], every [seek] that is run targets an offset that is not below
    the offset at which it is run, and no [skip], [string] or [bitfield]
    that is run has a negative width.  The run is followed as [exec] goes:
    a [ternary] by the branch it takes, an [array], a sequence and a
    Structure element after element, each on the context that the one
    before has left. *)
Fixpoint forward_run (dv : list byte) (p : BinpatPattern) (ctx : BinpatContext)
    {struct p} : bool :=
  match p with
  | PTyped _ _ | PBool | PLit _ => true
  | PString size _ => 0 <=? resolve size ctx
  | PBitfield field _ =>
      0 <=? JS.ceil_div8 (Bitfield.bitSize (Bitfield.definitions field))
  | PSeek o => offset ctx <=? resolve o ctx
  | PSkip n => 0 <=? n
  | PPeek _ _ => true
  | PConvert pat _ => forward_run dv pat ctx
  | PTernary condition truthy falsy =>
      if condition ctx then forward_run dv truthy ctx
      else
        match falsy with
        | Some pat => forward_run dv pat ctx
        | None => true
        end
  | PArray pat size =>
      (fix loop (n : nat) (ctx : BinpatContext) : bool :=
         match n with
         | O => true
         | S n' =>
             forward_run dv pat ctx
             && match exec dv pat ctx with
                | Ok (_, ctx) => loop n' ctx
                | Throw _ => true
                end
         end) (Z.to_nat (JS.ToLength (resolve size ctx))) ctx
  | PList pats =>
      (fix loop (pats : list BinpatPattern) (ctx : BinpatContext) : bool :=
         match pats with
         | [] => true
         | pat :: pats' =>
             forward_run dv pat ctx
             && match exec dv pat ctx with
                | Ok (_, ctx) => loop pats' ctx
                | Throw _ => true
                end
         end) pats ctx
  | PObject entries =>
      (fix loop (kvs : list (string * BinpatPattern)) (ctx : BinpatContext) : bool :=
         match kvs with
         | [] => true
         | (key, value) :: kvs' =>
             forward_run dv value ctx
             && match exec dv value ctx with
                | Ok (result, ctx) => loop kvs' (store key result ctx)
                | Throw _ => true
                end
         end) entries (child_context ctx)
  end.

(** The loops of [forward_run], named as those of [exec]. *)
Fixpoint forward_times (dv : list byte) (pat : BinpatPattern) (n : nat)
    (ctx : BinpatContext) : bool :=
  match n with
  | O => true
  | S n' =>
      forward_run dv pat ctx
      && match exec dv pat ctx with
         | Ok (_, ctx) => forward_times dv pat n' ctx
         | Throw _ => true
         end
  end.

Fixpoint forward_list (dv : list byte) (pats : list BinpatPattern)
    (ctx : BinpatContext) : bool :=
  match pats with
  | [] => true
  | pat :: pats' =>
      forward_run dv pat ctx
      && match exec dv pat ctx with
         | Ok (_, ctx) => forward_list dv pats' ctx
         | Throw _ => true
         end
  end.

Fixpoint forward_entries (dv : list byte) (kvs : list (string * BinpatPattern))
    (ctx : BinpatContext) : bool :=
  match kvs with
  | [] => true
  | (key, value) :: kvs' =>
      forward_run dv value ctx
      && match exec dv value ctx with
         | Ok (result, ctx) => forward_entries dv kvs' (store key result ctx)
         | Throw _ => true
         end
  end.

(** *** Inputs of the worked examples *)

(** A decoder that reads every byte as one character. *)
Definition latin1 : TextDecoder := {| decode := string_of_list_byte |}.

Definition no_option : BitfieldOption :=
  {| option_endian := None; option_first := None |}.

(** [{ a: 3, b: bitfield.u(3), [omit('padding')]: 4, c: bitfield.i(5),
      d: bitfield.bool() }], with the draw [rnd] of [omit]. *)
Definition example_layout (rnd : string) : list (string * BitfieldDef) :=
  [("a", BitNumber 3); ("b", Bitfield.u 3); (omit rnd, BitNumber 4);
   ("c", Bitfield.i 5); ("d", Bitfield.bool)].

(** [(ctx) => ctx.data.count] *)
Definition data_count (ctx : BinpatContext) : Z :=
  match Obj.get "count" (data ctx) with
  | VNumber n => n
  | _ => 0
  end.

(** [{ count: u8(), items: array(u8(), (ctx) => ctx.data.count) }] *)
Definition counted_items : BinpatPattern :=
  PObject [("count", u8 None); ("items", array (u8 None) (Fn data_count))].

(** A key that is not an array index. *)
Definition not_index (k : string) : Prop := JS.array_index k = None.

(** [(ctx) => ctx.data.flag] *)
Definition data_flag (ctx : BinpatContext) : bool :=
  match Obj.get "flag" (data ctx) with
  | VBoolean b => b
  | _ => false
  end.

(** [{ flag: bool(), [omit()]: u8(),
       [spread()]: ternary((ctx) => ctx.data.flag, { truthy: u8() }, { falsy: u8() }),
       tail: u8() }] *)
Definition flag_entries : list (string * BinpatPattern) :=
  [("flag", PBool);
   (omit "0a", u8 None);
   (spread "0b",
    ternary data_flag (PObject [("truthy", u8 None)])
      (Some (PObject [("falsy", u8 None)])));
   ("tail", u8 None)].

(** [{ a: u8(), [spread()]: { b: u8(), a: u8() } }] *)
Definition colliding_entries : list (string * BinpatPattern) :=
  [("a", u8 None); (spread "0c", PObject [("b", u8 None); ("a", u8 None)])].

(** [{ a: u8(), [spread()]: { 1: u8() } }] *)
Definition indexed_entries : list (string * BinpatPattern) :=
  [("a", u8 None); (spread "11", PObject [("1", u8 None)])].

(** The width of a fixed-width primitive or boolean read. *)
Definition primitive_width (p : BinpatPattern) : option Z :=
  match p with
  | PTyped c _ => Some (DataView.BYTES_PER_ELEMENT c)
  | PBool => Some 1
  | _ => None
  end.

(** The number of bytes that a primitive, string or bitfield read takes
    when it runs on [ctx]. *)
Definition read_width (p : BinpatPattern) (ctx : BinpatContext) : option Z :=
  match p with
  | PTyped c _ => Some (DataView.BYTES_PER_ELEMENT c)
  | PBool => Some 1
  | PString size _ => Some (resolve size ctx)
  | PBitfield field _ =>
      Some (JS.ceil_div8 (Bitfield.bitSize (Bitfield.definitions field)))
  | _ => None
  end.

(** [reaches dv p ctx q c]: the run of [q] on [c] comes to run [p] on
    [ctx], everything [q] runs before having returned. *)
Inductive reaches (dv : list byte) (p : BinpatPattern) (ctx : BinpatContext)
    : BinpatPattern -> BinpatContext -> Prop :=
| reaches_here : reaches dv p ctx p ctx
| reaches_convert q c fn :
    reaches dv p ctx q c -> reaches dv p ctx (PConvert q fn) c
| reaches_peek q c o :
    reaches dv p ctx q (set_offset c (resolve o c)) ->
    reaches dv p ctx (PPeek o q) c
| reaches_truthy q c condition falsy :
    condition c = true ->
    reaches dv p ctx q c -> reaches dv p ctx (PTernary condition q falsy) c
| reaches_falsy q c condition truthy :
    condition c = false ->
    reaches dv p ctx q c -> reaches dv p ctx (PTernary condition truthy (Some q)) c
| reaches_array q c size k vs c1 :
    Array_from q (JS.ToLength (resolve size c)) = None ->
    (k < Z.to_nat (JS.ToLength (resolve size c)))%nat ->
    exec_times dv q k c = Ok (vs, c1) ->
    reaches dv p ctx q c1 -> reaches dv p ctx (PArray q size) c
| reaches_list ps1 q ps2 c vs c1 :
    exec_list dv ps1 c = Ok (vs, c1) ->
    reaches dv p ctx q c1 -> reaches dv p ctx (PList (ps1 ++ q :: ps2)) c
| reaches_entry kvs1 key q kvs2 c c1 :
    exec_entries dv kvs1 (child_context c) = Ok c1 ->
    reaches dv p ctx q c1 ->
    reaches dv p ctx (PObject (kvs1 ++ (key, q) :: kvs2)) c.

(** [{ b: u8(), 1: u8() }], as it is written. *)
Definition index_declared : list (string * BinpatPattern) :=
  [("b", u8 None); ("1", u8 None)].

(** The context of [counted_items] once [count] is decoded as 3. *)
Definition counted_context : BinpatContext :=
  mkContext big (Some (root_context big)) 1 [("count", VNumber 3)].

(** The context of a Structure once its first field [a], one byte wide,
    is decoded as 1. *)
Definition one_field_context : BinpatContext :=
  mkContext big (Some (root_context big)) 1 [("a", VNumber 1)].

(** The results of [flag_entries] over the bytes [1, 9, 7, 5], entry by
    entry, and the context they leave. *)
Definition flag_results : list (string * value) :=
  [("flag", VBoolean true); (omit "0a", VNumber 9);
   (spread "0b", VObject [("truthy", VNumber 7)]); ("tail", VNumber 5)].

Definition flag_context : BinpatContext :=
  mkContext big (Some (root_context big)) 4
    [("flag", VBoolean true); ("truthy", VNumber 7); ("tail", VNumber 5)].

(** *** The patterns of the tests of the repository *)

(** [(ctx) => ctx.data[key]], for a field that holds a number. *)
Definition data_number (key : string) (ctx : BinpatContext) : Z :=
  match Obj.get key (data ctx) with
  | VNumber n => n
  | _ => 0
  end.

(** [(ctx) => ctx.parent?.data.count] *)
Definition parent_count (ctx : BinpatContext) : Z :=
  match parent ctx with
  | Some p => data_number "count" p
  | None => 0
  end.

(** [(value) => ['', 'ico', 'cur'][value]] *)
Definition image_type (v : value) (ctx : BinpatContext) : value :=
  match v with
  | VNumber 0 => VString EmptyString
  | VNumber 1 => VString "ico"
  | VNumber 2 => VString "cur"
  | _ => VUndefined
  end.

(** [new Binpat(pattern).exec(buffer)] *)
Definition run (pattern : BinpatPattern) (buffer : list byte) : result value :=
  Binpat_exec (new_Binpat pattern None) buffer.

Definition test_string : BinpatPattern :=
  PObject [("size", u8 None); ("text", PString (Fn (data_number "size")) latin1)].

Definition test_array : BinpatPattern :=
  array (PObject [("id", u16 None); ("enabled", PBool)]) (Num 2).

Definition test_ternary : BinpatPattern :=
  PObject [("flag", PBool); ("value", ternary data_flag (u8 None) (Some (i8 None)))].

Definition test_convert : BinpatPattern :=
  PObject [("type", convert (u8 None) image_type)].

Definition test_seek (rnd : string) : BinpatPattern :=
  PObject [("dataStart", u8 None); (omit rnd, seek (Fn (data_number "dataStart")));
           ("data", u8 None)].

Definition test_peek : BinpatPattern :=
  array
    (PObject [("id", u8 None); ("offset", u8 None);
              ("data", peek (Fn (data_number "offset")) (u8 None))])
    (Num 2).

Definition test_spread (rnd : string) : BinpatPattern :=
  PObject
    [("flag", PBool);
     (spread rnd,
      ternary data_flag (PObject [("truthy", u8 None)])
        (Some (PObject [("falsy", u8 None)])))].

Definition test_data_structure : BinpatPattern :=
  PObject
    [("rawNumber", PLit (LitNumber 123));
     ("rawArray", PList [u8 None; u8 None]);
     ("count", u8 None);
     ("rawObject", PObject [("items", array (u8 None) (Fn parent_count))])].

(** [() => 1] *)
Definition one_element (ctx : BinpatContext) : Z := 1.

(** The bytes [1, 2, 3, 4, 5, 6, 7, 8]. *)
Definition eight_bytes : list byte := [x01; x02; x03; x04; x05; x06; x07; x08].

(** [{ dataStart: u8(), [omit()]: seek((ctx) => ctx.data.dataStart),
       data: u8(), [omit()]: seek(4), [omit()]: skip(1), b: peek(0, u8()),
       c: string(1) }] *)
Definition seeking_entries : list (string * BinpatPattern) :=
  [("dataStart", u8 None);
   (omit "0f", seek (Fn (data_number "dataStart")));
   ("data", u8 None);
   (omit "1f", seek (Num 4));
   (omit "2f", skip 1);
   ("b", peek (Num 0) (u8 None));
   ("c", PString (Num 1) latin1)].

(** *** Further notions *)

Definition sum_widths (ws : list (option Z)) : option Z :=
  fold_right
    (fun w acc =>
       match w, acc with
       | Some a, Some b => Some (a + b)
       | _, _ => None
       end)
    (Some 0) ws.

(** The number of bytes by which a pattern moves the offset, when the
    pattern alone tells it: no [seek], no size read from the context, and
    branches of a [ternary] that agree. *)
Fixpoint fixed_width (p : BinpatPattern) : option Z :=
  match p with
  | PTyped c _ => Some (DataView.BYTES_PER_ELEMENT c)
  | PBool => Some 1
  | PString (Num n) _ => Some n
  | PString (Fn _) _ => None
  | PArray pat (Num n) =>
      match fixed_width pat with
      | Some w => Some (Z.max 0 n * w)
      | None => None
      end
  | PArray _ (Fn _) => None
  | PBitfield field _ =>
      Some (JS.ceil_div8 (Bitfield.bitSize (Bitfield.definitions field)))
  | PTernary _ truthy (Some falsy) =>
      match fixed_width truthy, fixed_width falsy with
      | Some a, Some b => if a =? b then Some a else None
      | _, _ => None
      end
  | PTernary _ truthy None =>
      match fixed_width truthy with
      | Some a => if a =? 0 then Some 0 else None
      | None => None
      end
  | PConvert pat _ => fixed_width pat
  | PSeek _ => None
  | PPeek _ _ => Some 0
  | PSkip n => Some n
  | PList pats => sum_widths (map fixed_width pats)
  | PObject entries => sum_widths (map (fun kv => fixed_width (snd kv)) entries)
  | PLit _ => Some 0
  end.

(** Patterns that take their bytes through the [DataView] only: no
    [string], no [bitfield], and no [seek] or [skip] outside a [peek]. *)
Fixpoint checked (p : BinpatPattern) : bool :=
  match p with
  | PTyped _ _ | PBool | PLit _ => true
  | PString _ _ | PBitfield _ _ | PSeek _ | PSkip _ => false
  | PArray pat _ => checked pat
  | PTernary _ truthy falsy =>
      checked truthy
      && match falsy with
         | Some pat => checked pat
         | None => true
         end
  | PConvert pat _ => checked pat
  | PPeek _ _ => true
  | PList pats => forallb checked pats
  | PObject entries => forallb (fun kv => checked (snd kv)) entries
  end.

(** The [n] elements of type [c] stored one after the other from the
    offset [o], read in the byte order [le]. *)
Definition elements (c : TypedArrayConstructor) (le : bool) (dv : list byte)
    (o : Z) (n : nat) : list value :=
  map (fun i => read_value c le dv (o + Z.of_nat i * DataView.BYTES_PER_ELEMENT c))
    (seq 0 n).

(** The integers of the element type [c]. *)
Definition element_range (c : TypedArrayConstructor) (v : value) : Prop :=
  let bits := 8 * DataView.BYTES_PER_ELEMENT c in
  match c, v with
  | (Uint8Array | Uint16Array | Uint32Array), VNumber n => 0 <= n < 2 ^ bits
  | BigUint64Array, VBigInt n => 0 <= n < 2 ^ bits
  | (Int8Array | Int16Array | Int32Array), VNumber n =>
      - 2 ^ (bits - 1) <= n < 2 ^ (bits - 1)
  | BigInt64Array, VBigInt n => - 2 ^ (bits - 1) <= n < 2 ^ (bits - 1)
  | (Float16Array | Float32Array | Float64Array), VFloat _ => True
  | _, _ => False
  end.

(** The value of the last entry of [l] under the key [k]: what a mapping
    holds when the entries of [l] are written to it one after the other. *)
Definition last_write (k : string) (l : list (string * value)) : value :=
  Obj.get k (rev l).

(** *** The pattern of [examples/ico.ts] *)

(** [(ctx) => (ctx.parent as BinpatContext).data.header.type === 'ico'].
    In the pattern below the condition runs on the context of an image,
    whose parent holds the decoded header. *)
Definition parent_is_ico (ctx : BinpatContext) : bool :=
  match parent ctx with
  | Some p =>
      match Obj.get "header" (data p) with
      | VObject header =>
          match Obj.get "type" header with
          | VString s => String.eqb s "ico"
          | _ => false
          end
      | _ => false
      end
  | None => false
  end.

(** [(ctx) => ctx.data.header.count], read once the header is decoded. *)
Definition header_count (ctx : BinpatContext) : Z :=
  match Obj.get "header" (data ctx) with
  | VObject header =>
      match Obj.get "count" header with
      | VNumber n => n
      | _ => 0
      end
  | _ => 0
  end.

Definition ico_header (rnd : string) : BinpatPattern :=
  PObject
    [(omit rnd, u16 None);
     ("type", convert (u16 None) image_type);
     ("count", u16 None)].

Definition ico_image (rnd : string) : BinpatPattern :=
  PObject
    [("width", u8 None);
     ("height", u8 None);
     ("colorCount", u8 None);
     ("reserved", u8 None);
     (spread rnd,
      ternary parent_is_ico
        (PObject [("planes", u16 None); ("bitsPerPixel", u16 None)])
        (Some (PObject [("xHotspot", u16 None); ("yHotspot", u16 None)])));
     ("size", u32 None);
     ("offset", u32 None);
     ("data",
      peek (Fn (data_number "offset")) (array (u8 None) (Fn (data_number "size"))))].

(** [new Binpat({ header: {...}, images: array({...}, (ctx) =>
    ctx.data.header.count) }, { endian: 'little' })] *)
Definition ico (rnd1 rnd2 : string) : Binpat :=
  new_Binpat
    (PObject
       [("header", ico_header rnd1);
        ("images", array (ico_image rnd2) (Fn header_count))])
    (Some little).

(** A one-image icon file: the header, one directory entry, and two
    bytes of pixel data at offset 22. *)
Definition one_icon : list byte :=
  [x00; x00; x01; x00; x01; x00;
   x10; x10; x00; x00; x01; x00; x20; x00; x02; x00; x00; x00; x16; x00; x00; x00;
   xaa; xbb].

Definition one_icon_result : value :=
  VObject
    [("header", VObject [("type", VString "ico"); ("count", VNumber 1)]);
     ("images",
      VArray
        [VObject
           [("width", VNumber 16); ("height", VNumber 16);
            ("colorCount", VNumber 0); ("reserved", VNumber 0);
            ("planes", VNumber 1); ("bitsPerPixel", VNumber 32);
            ("size", VNumber 2); ("offset", VNumber 22);
            ("data", VTypedArray Uint8Array [VNumber 170; VNumber 187])]])].

(** ** Tactics *)

Ltac bind_ok H v c E :=
  match type of H with
  | bind ?r _ = Ok _ =>
      let e := fresh "e" in
      destruct r as [[v c]|e] eqn:E; cbn [bind] in H; [|discriminate H]
  end.

(** ** Unfolding lemmas *)

Lemma exec_array (dv : list byte) (pat : BinpatPattern) (size : NumberOrFn)
    (ctx : BinpatContext) :
  exec dv (PArray pat size) ctx =
  let len := JS.ToLength (resolve size ctx) in
  match Array_from pat len with
  | Some e => Throw e
  | None =>
      let* (vs, ctx') := exec_times dv pat (Z.to_nat len) ctx in
      Ok (array_of pat vs, ctx')
  end.
Proof.
  assert (Hloop : forall n c,
    (fix map_ (n : nat) (ctx : BinpatContext) : result (list value * BinpatContext) :=
       match n with
       | O => Ok ([], ctx)
       | S n' =>
           let* (v, ctx) := exec dv pat ctx in
           let* (vs, ctx) := map_ n' ctx in
           Ok (v :: vs, ctx)
       end) n c = exec_times dv pat n c).
  { induction n as [|n IH]; intros c; [reflexivity|].
    cbn [exec_times]. destruct (exec dv pat c) as [[v c1]|e]; [|reflexivity].
    cbn [bind]. rewrite IH. reflexivity. }
  cbn [exec]. rewrite Hloop. reflexivity.
Qed.

Lemma exec_plist (dv : list byte) (pats : list BinpatPattern) (ctx : BinpatContext) :
  exec dv (PList pats) ctx =
  let* (vs, ctx') := exec_list dv pats ctx in Ok (VArray vs, ctx').
Proof.
  cbn [exec]. f_equal. revert ctx.
  induction pats as [|pat pats IH]; intros ctx; [reflexivity|].
  cbn [exec_list]. destruct (exec dv pat ctx) as [[v c1]|e]; [|reflexivity].
  cbn [bind]. rewrite IH. reflexivity.
Qed.

Lemma exec_object (dv : list byte) (entries : list (string * BinpatPattern))
    (ctx : BinpatContext) :
  exec dv (PObject entries) ctx =
  let* ctx' := exec_entries dv entries (child_context ctx) in
  Ok (VObject (data ctx'), set_offset ctx (offset ctx')).
Proof.
  cbn [exec]. f_equal. generalize (child_context ctx).
  induction entries as [|[key value] kvs IH]; intros c; [reflexivity|].
  cbn [exec_entries]. destruct (exec dv value c) as [[r c1]|e]; [|reflexivity].
  cbn [bind]. apply IH.
Qed.

(** ** Bitfields: the draw of the end padding does not matter *)

Lemma startsWith_omit (rnd : string) : JS.startsWith (omit rnd) "//" = true.
Proof. reflexivity. Qed.

Lemma startsWith_spread (rnd : string) : JS.startsWith (spread rnd) "..." = true.
Proof. reflexivity. Qed.

Lemma Bitfield_values_padding (rnd : string) (pad : BitfieldType)
    (kvs : list (string * BitfieldType)) (content : list bool) :
  Bitfield.values (kvs ++ [(omit rnd, pad)]) content = Bitfield.values kvs content.
Proof.
  revert content. induction kvs as [|[key def] kvs IH]; intros content.
  - reflexivity.
  - cbn [app Bitfield.values]. rewrite !IH. reflexivity.
Qed.

Lemma Bitfield_handler_random (rnd : string) (field : list (string * BitfieldDef))
    (option : BitfieldOption) (dv : list byte) (ctx : BinpatContext) :
  Bitfield.handler rnd field option dv ctx = Bitfield.handler EmptyString field option dv ctx.
Proof.
  unfold Bitfield.handler.
  destruct (_ =? 0); [reflexivity|].
  destruct (match option_first option with Some f => f | None => _ end).
  - rewrite !Bitfield_values_padding. reflexivity.
  - rewrite !rev_app_distr. reflexivity.
Qed.

(** C1. The layout [{a: 3, b: u(3), <omit>: 4, c: i(5), d: bool()}] read
    from the bytes [0b01010101, 0b11001100], in big-endian byte order and
    with the default [MSb] numbering, decodes to exactly
    [{a: 2, b: 5, c: 6, d: false}], whatever key [omit] has drawn for the
    padding, and the offset of the context moves from 0 to 2. *)
Theorem bitfield_worked_example (rnd : string) :
  exec [x55; xcc] (bitfield (example_layout rnd) no_option) (root_context big)
  = Ok (VObject [("a", VNumber 2); ("b", VNumber 5); ("c", VNumber 6);
                 ("d", VBoolean false)],
        set_offset (root_context big) 2)
  /\ exec [x55; xcc]
       (bitfield (example_layout rnd)
          {| option_endian := Some big; option_first := Some MSb |})
       (root_context big)
     = Ok (VObject [("a", VNumber 2); ("b", VNumber 5); ("c", VNumber 6);
                    ("d", VBoolean false)],
           set_offset (root_context big) 2)
  /\ Binpat_exec (new_Binpat (bitfield (example_layout rnd) no_option) None)
       [x55; xcc]
     = Ok (VObject [("a", VNumber 2); ("b", VNumber 5); ("c", VNumber 6);
                    ("d", VBoolean false)]).
Proof. repeat split; reflexivity. Qed.

(** ** Primitives *)

Lemma be_value_app (bs : list byte) (b : byte) :
  be_value (bs ++ [b]) = be_value bs * 256 + byte_val b.
Proof. unfold be_value. rewrite fold_left_app. reflexivity. Qed.

Lemma le_value_rev (bs : list byte) : DataView.le_value bs = be_value (rev bs).
Proof.
  induction bs as [|b bs IH]; [reflexivity|].
  cbn [DataView.le_value rev]. rewrite be_value_app, IH. lia.
Qed.

Lemma le_value_order (le : bool) (bs : list byte) :
  DataView.le_value (if le then bs else rev bs) = be_value (if le then rev bs else bs).
Proof.
  destruct le; rewrite le_value_rev; [reflexivity|].
  rewrite rev_involutive. reflexivity.
Qed.

Lemma GetViewValue_in_range (dv : list byte) (o : Z) (le : bool)
    (c : TypedArrayConstructor) :
  in_range dv o (DataView.BYTES_PER_ELEMENT c) ->
  DataView.GetViewValue dv o le c = Ok (read_value c le dv o).
Proof.
  intros [Ho Hw]. unfold DataView.GetViewValue.
  destruct (Z.ltb_spec o 0) as [H|_]; [lia|].
  destruct (Z.ltb_spec (Z.of_nat (List.length dv)) (o + DataView.BYTES_PER_ELEMENT c))
    as [H|_]; [lia|].
  unfold read_value, span, DataView.RawBytesToNumeric.
  rewrite le_value_order. reflexivity.
Qed.

Lemma GetViewValue_out_of_range (dv : list byte) (o : Z) (le : bool)
    (c : TypedArrayConstructor) :
  ~ in_range dv o (DataView.BYTES_PER_ELEMENT c) ->
  DataView.GetViewValue dv o le c = Throw RangeError.
Proof.
  intros H. unfold DataView.GetViewValue.
  destruct (Z.ltb_spec o 0) as [|Ho]; [reflexivity|].
  destruct (Z.ltb_spec (Z.of_nat (List.length dv)) (o + DataView.BYTES_PER_ELEMENT c))
    as [|Hw]; [reflexivity|].
  exfalso. apply H. split; lia.
Qed.

(** C2, as amended.  A fixed-width primitive run at offset [o], with its
    [w] bytes inside the buffer, returns the value stored at [o] read in
    the byte order of its override when one is given ([true] little-endian,
    [false] big-endian) and in that of the context otherwise, and leaves
    the offset at [o + w]. *)
Theorem typed_handler_reads_in_byte_order (c : TypedArrayConstructor)
    (littleEndian : option bool) (dv : list byte) (ctx : BinpatContext) :
  in_range dv (offset ctx) (DataView.BYTES_PER_ELEMENT c) ->
  exec dv (PTyped c littleEndian) ctx
  = Ok (read_value c (byte_order littleEndian ctx) dv (offset ctx),
        set_offset ctx (offset ctx + DataView.BYTES_PER_ELEMENT c)).
Proof.
  intros H. cbn [exec]. unfold createTypedHandler.
  fold (byte_order littleEndian ctx).
  rewrite (GetViewValue_in_range _ _ _ _ H). reflexivity.
Qed.

Lemma typed_handler_reads_in_byte_order_witness :
  in_range [x01; x02] (offset (root_context little))
    (DataView.BYTES_PER_ELEMENT Uint16Array)
  /\ exec [x01; x02] (u16 (Some false)) (root_context little)
     = Ok (read_value Uint16Array false [x01; x02] 0,
           set_offset (root_context little) 2).
Proof.
  split.
  - unfold in_range. simpl. lia.
  - apply (typed_handler_reads_in_byte_order Uint16Array (Some false)
             [x01; x02] (root_context little)).
    unfold in_range. simpl. lia.
Defined.

(** The value of two bytes: the first one is the high byte in big-endian
    order, the low byte in little-endian order. *)
Lemma read_value_u16 (b1 b2 : byte) :
  read_value Uint16Array false [b1; b2] 0 = VNumber (byte_val b1 * 256 + byte_val b2)
  /\ read_value Uint16Array true [b1; b2] 0 = VNumber (byte_val b2 * 256 + byte_val b1).
Proof.
  unfold read_value, span, be_value. cbn. split; f_equal; lia.
Qed.

(** The bytes [1, 2] as an unsigned 16-bit integer: 258 in big-endian
    order, 513 in little-endian order, by override or by the option of
    the decoder. *)
Example u16_byte_orders :
  Binpat_exec (new_Binpat (u16 None) None) [x01; x02] = Ok (VNumber 258)
  /\ Binpat_exec (new_Binpat (u16 (Some true)) None) [x01; x02] = Ok (VNumber 513)
  /\ Binpat_exec (new_Binpat (u16 None) (Some little)) [x01; x02] = Ok (VNumber 513)
  /\ Binpat_exec (new_Binpat (u16 (Some true)) (Some big)) [x01; x02] = Ok (VNumber 513).
Proof. repeat split; reflexivity. Qed.

(** C2, as stated, fails: with the override [false] supplied and a
    little-endian context, the bytes [1, 2] are read as 258, the
    big-endian value, and not as the little-endian 513. *)
Lemma typed_override_false_counterexample :
  exec [x01; x02] (u16 (Some false)) (root_context little)
  = Ok (VNumber 258, set_offset (root_context little) 2)
  /\ read_value Uint16Array
       (byte_order_if_supplied (Some false) (root_context little)) [x01; x02] 0
     = VNumber 513
  /\ ~ (forall (c : TypedArrayConstructor) (littleEndian : option bool)
               (dv : list byte) (ctx : BinpatContext),
           in_range dv (offset ctx) (DataView.BYTES_PER_ELEMENT c) ->
           exec dv (PTyped c littleEndian) ctx
           = Ok (read_value c (byte_order_if_supplied littleEndian ctx) dv (offset ctx),
                 set_offset ctx (offset ctx + DataView.BYTES_PER_ELEMENT c))).
Proof.
  split; [reflexivity|]. split; [reflexivity|].
  intros H.
  specialize (H Uint16Array (Some false) [x01; x02] (root_context little)).
  assert (Hr : in_range [x01; x02] (offset (root_context little))
                 (DataView.BYTES_PER_ELEMENT Uint16Array)).
  { unfold in_range. simpl. lia. }
  specialize (H Hr). vm_compute in H. discriminate H.
Qed.

(** ** What a pattern leaves of its context *)

Lemma set_offset_id (c : BinpatContext) : set_offset c (offset c) = c.
Proof. destruct c; reflexivity. Qed.

Lemma set_offset_twice (c : BinpatContext) (a b : Z) :
  set_offset (set_offset c a) b = set_offset c b.
Proof. reflexivity. Qed.

Lemma frame_step (c c1 c2 : BinpatContext) :
  c1 = set_offset c (offset c1) -> c2 = set_offset c1 (offset c2) ->
  c2 = set_offset c (offset c2).
Proof. intros H1 H2. rewrite H2 at 1. rewrite H1. reflexivity. Qed.

(** A pattern changes nothing but the offset of the context it runs on. *)
Lemma exec_frame (dv : list byte) (p : BinpatPattern) :
  forall ctx v ctx', exec dv p ctx = Ok (v, ctx') -> ctx' = set_offset ctx (offset ctx').
Proof.
  induction p as
    [c le| |size encoding|pat size IHp|field option
    |condition truthy falsy IHt IHf|condition truthy IHt|pat fn IHp
    |o|o pat IHp|o|pats IHps|entries IHes|l] using pattern_induction;
    intros ctx v ctx' H.
  - cbn [exec] in H. unfold createTypedHandler in H.
    destruct (DataView.GetViewValue _ _ _ _); cbn [bind] in H; [|discriminate H].
    injection H as _ <-. reflexivity.
  - cbn [exec] in H. unfold bool_handler in H.
    destruct (DataView.GetViewValue _ _ _ _); cbn [bind] in H; [|discriminate H].
    injection H as _ <-. reflexivity.
  - cbn [exec] in H. unfold string_handler in H. injection H as _ <-. reflexivity.
  - rewrite exec_array in H. cbv zeta in H.
    destruct (Array_from _ _); [discriminate H|].
    bind_ok H vs c1 E. injection H as _ <-.
    remember (Z.to_nat (JS.ToLength (resolve size ctx))) as n eqn:Hn. clear Hn.
    revert ctx vs c1 E.
    induction n as [|n IHn]; intros ctx vs ctx' E.
    + injection E as _ <-. symmetry. apply set_offset_id.
    + cbn [exec_times] in E. bind_ok E v1 c1 E1. bind_ok E vs2 c2 E2.
      injection E as _ <-.
      eapply frame_step; [eapply IHp; eassumption | eapply IHn; eassumption].
  - cbn [exec] in H. unfold Bitfield.handler in H. injection H as _ <-. reflexivity.
  - cbn [exec] in H. destruct (condition ctx); eauto.
  - cbn [exec] in H. destruct (condition ctx); eauto.
    injection H as _ <-. symmetry. apply set_offset_id.
  - cbn [exec] in H. bind_ok H v1 c1 E. injection H as _ <-. eauto.
  - cbn [exec] in H. unfold seek_handler in H. injection H as _ <-. reflexivity.
  - cbn [exec] in H. bind_ok H v1 c1 E. injection H as _ <-.
    apply IHp in E. rewrite E. reflexivity.
  - cbn [exec] in H. unfold skip_handler in H. injection H as _ <-. reflexivity.
  - rewrite exec_plist in H. bind_ok H vs c1 E. injection H as _ <-.
    revert ctx vs c1 E. induction IHps as [|pat pats Hp _ IH]; intros ctx vs ctx' E.
    + injection E as _ <-. symmetry. apply set_offset_id.
    + cbn [exec_list] in E. bind_ok E v1 c1 E1. bind_ok E vs2 c2 E2.
      injection E as _ <-.
      eapply frame_step; [eapply Hp; eassumption | eapply IH; eassumption].
  - rewrite exec_object in H.
    destruct (exec_entries dv entries (child_context ctx)); cbn [bind] in H;
      [|discriminate H].
    injection H as _ <-. reflexivity.
  - cbn [exec] in H. injection H as _ <-. symmetry. apply set_offset_id.
Qed.

Lemma exec_frame_data (dv : list byte) (p : BinpatPattern) (c : BinpatContext)
    (v : value) (c' : BinpatContext) :
  exec dv p c = Ok (v, c') -> data c' = data c.
Proof. intros H. apply exec_frame in H. rewrite H. reflexivity. Qed.

Lemma store_frame (key : string) (r : value) (ctx : BinpatContext) :
  endian (store key r ctx) = endian ctx /\ parent (store key r ctx) = parent ctx.
Proof.
  unfold store. destruct (JS.startsWith key "..."); [split; reflexivity|].
  destruct (JS.startsWith key "//"); split; reflexivity.
Qed.

(** The entries of a Structure keep the endianness of their context and
    its link to the calling context. *)
Lemma exec_entries_frame (dv : list byte) (kvs : list (string * BinpatPattern)) :
  forall ctx ctx',
    exec_entries dv kvs ctx = Ok ctx' ->
    endian ctx' = endian ctx /\ parent ctx' = parent ctx.
Proof.
  induction kvs as [|[key pat] kvs IH]; intros ctx ctx' H.
  - injection H as <-. split; reflexivity.
  - cbn [exec_entries] in H. bind_ok H r c1 E.
    apply IH in H. destruct H as [He Hp].
    destruct (store_frame key r c1) as [Hse Hsp].
    apply exec_frame in E. rewrite E in Hse, Hsp. cbn [endian parent set_offset] in Hse, Hsp.
    split; congruence.
Qed.

(** C4. A Structure runs its entries on a child context of its own, which
    starts at the offset of the calling context and points to it; when
    the entries are done the calling context takes the final offset of
    the child, and keeps its endianness, its parent and its data. *)
Theorem structure_offset_bubbles_up (dv : list byte)
    (entries : list (string * BinpatPattern)) (parent_ : BinpatContext) :
  exec dv (PObject entries) parent_
  = match exec_entries dv entries
            (mkContext (endian parent_) (Some parent_) (offset parent_) []) with
    | Ok ctx =>
        Ok (VObject (data ctx),
            mkContext (endian parent_) (parent parent_) (offset ctx) (data parent_))
    | Throw e => Throw e
    end
  /\ (forall ctx,
        exec_entries dv entries
          (mkContext (endian parent_) (Some parent_) (offset parent_) []) = Ok ctx ->
        endian ctx = endian parent_ /\ parent ctx = Some parent_).
Proof.
  split.
  - rewrite exec_object. reflexivity.
  - intros ctx H. apply exec_entries_frame in H. exact H.
Qed.

Lemma exec_peek (dv : list byte) (target : NumberOrFn) (pat : BinpatPattern)
    (ctx : BinpatContext) :
  exec dv (PPeek target pat) ctx
  = match exec dv pat (set_offset ctx (resolve target ctx)) with
    | Ok (v, _) => Ok (v, ctx)
    | Throw e => Throw e
    end.
Proof.
  cbn [exec].
  destruct (exec dv pat (set_offset ctx (resolve target ctx))) as [[v c1]|e] eqn:E;
    cbn [bind]; [|reflexivity].
  apply exec_frame in E. rewrite E. rewrite !set_offset_twice.
  rewrite set_offset_id. reflexivity.
Qed.

(** C5. [peek(target, pattern)] returns the value that [pattern] decodes
    at the target offset (a literal or a function of the context), fails
    when that decoding fails, and leaves the context with the offset it
    had before the call, whatever the inner pattern is, a Structure
    included. *)
Theorem peek_restores_offset (dv : list byte) (target : NumberOrFn)
    (pat : BinpatPattern) (ctx : BinpatContext) :
  exec dv (peek target pat) ctx
  = match exec dv pat (set_offset ctx (resolve target ctx)) with
    | Ok (v, _) => Ok (v, ctx)
    | Throw e => Throw e
    end.
Proof. apply exec_peek. Qed.

(** ** Arrays *)

Lemma exec_times_length (dv : list byte) (pat : BinpatPattern) (n : nat) :
  forall ctx vs ctx', exec_times dv pat n ctx = Ok (vs, ctx') -> List.length vs = n.
Proof.
  induction n as [|n IH]; intros ctx vs ctx' H.
  - injection H as <- _. reflexivity.
  - cbn [exec_times] in H. bind_ok H v1 c1 E1. bind_ok H vs2 c2 E2.
    injection H as <- _. cbn [List.length]. f_equal. eapply IH. eassumption.
Qed.

Lemma Array_from_plain (pat : BinpatPattern) (len : Z) :
  is_typed pat = false -> len <= max_array_length -> Array_from pat len = None.
Proof.
  intros Ht Hlen.
  destruct pat; try discriminate Ht; cbn [Array_from];
    destruct (Z.ltb_spec max_array_length len); try reflexivity; lia.
Qed.

Lemma Array_from_empty (pat : BinpatPattern) : Array_from pat 0 = None.
Proof.
  destruct pat; cbn [Array_from]; try reflexivity.
  rewrite andb_false_r. reflexivity.
Qed.

(** X22. [array(pattern, size)] with a size function, when the array can
    be built (a plain array of at most [2^32 - 1] elements, a typed array
    of numbers, or a typed array of bigints without element): the size is
    read once, on the context as it is when the array starts (so it sees
    the sibling fields decoded so far), and [pattern] is then run that
    many times in a row on the same context; the result has that many
    elements.  Over the bytes [3, 10, 20, 30, 99] the pattern
    [{count: u8(), items: array(u8(), ctx => ctx.data.count)}] gives
    [{count: 3, items: [10, 20, 30]}]. *)
Theorem array_runs_size_times (dv : list byte) (pat : BinpatPattern)
    (size : BinpatContext -> Z) (ctx : BinpatContext) :
  Array_from pat (JS.ToLength (size ctx)) = None ->
  exec dv (array pat (Fn size)) ctx
  = match exec_times dv pat (Z.to_nat (size ctx)) ctx with
    | Ok (vs, ctx') => Ok (array_of pat vs, ctx')
    | Throw e => Throw e
    end
  /\ (forall vs ctx',
        exec_times dv pat (Z.to_nat (size ctx)) ctx = Ok (vs, ctx') ->
        List.length vs = Z.to_nat (size ctx))
  /\ Binpat_exec (new_Binpat counted_items None) [x03; x0a; x14; x1e; x63]
     = Ok (VObject
             [("count", VNumber 3);
              ("items", VTypedArray Uint8Array [VNumber 10; VNumber 20; VNumber 30])]).
Proof.
  intros Hfrom. split; [|split].
  - unfold array. rewrite exec_array. cbv zeta. cbn [resolve]. rewrite Hfrom.
    unfold JS.ToLength.
    replace (Z.to_nat (Z.max 0 (size ctx))) with (Z.to_nat (size ctx)) by lia.
    destruct (exec_times dv pat (Z.to_nat (size ctx)) ctx) as [[vs c1]|e];
      reflexivity.
  - intros vs ctx' H. eapply exec_times_length. eassumption.
  - reflexivity.
Qed.

Lemma array_runs_size_times_witness :
  Array_from (u8 None) (JS.ToLength (data_count counted_context)) = None
  /\ exec [x03; x0a; x14; x1e; x63] (array (u8 None) (Fn data_count)) counted_context
     = Ok (VTypedArray Uint8Array [VNumber 10; VNumber 20; VNumber 30],
           set_offset counted_context 4).
Proof.
  assert (H : Array_from (u8 None) (JS.ToLength (data_count counted_context)) = None)
    by reflexivity.
  split; [exact H|].
  destruct (array_runs_size_times [x03; x0a; x14; x1e; x63] (u8 None)
              data_count counted_context H) as [Heq _].
  rewrite Heq. reflexivity.
Defined.

(** C6.  The claim fails on an array of 64-bit integers.  The pattern
    [array(u64(), () => 1)] over eight bytes raises a [TypeError]:
    [BigUint64Array.from({ length: 1 })] cannot store [undefined], so
    the array is never built and [u64()] is not run once, although one
    run of [u64()] on these bytes returns the integer they hold.  The
    same holds of [i64()], of a literal size, and of every size of at
    least one. *)
Theorem bigint_array_throws :
  Binpat_exec (new_Binpat (array (u64 None) (Fn one_element)) None) eight_bytes
  = Throw TypeError
  /\ exec_times eight_bytes (u64 None) (Z.to_nat (one_element (root_context big)))
       (root_context big)
     = Ok ([VBigInt 72623859790382856], set_offset (root_context big) 8)
  /\ (forall (dv : list byte) (c : TypedArrayConstructor) (le : option bool)
             (size : NumberOrFn) (ctx : BinpatContext),
        is_bigint c = true -> 1 <= resolve size ctx ->
        exec dv (array (PTyped c le) size) ctx = Throw TypeError)
  /\ ~ (forall (dv : list byte) (pat : BinpatPattern) (size : BinpatContext -> Z)
               (ctx : BinpatContext),
           exec dv (array pat (Fn size)) ctx
           = match exec_times dv pat (Z.to_nat (size ctx)) ctx with
             | Ok (vs, ctx') => Ok (array_of pat vs, ctx')
             | Throw e => Throw e
             end).
Proof.
  split; [reflexivity|]. split; [reflexivity|]. split.
  - intros dv c le size ctx Hc Hs. unfold array. rewrite exec_array. cbv zeta.
    cbn [Array_from]. rewrite Hc. cbn [andb]. unfold JS.ToLength.
    destruct (Z.ltb_spec 0 (Z.max 0 (resolve size ctx))) as [_|Hle]; [reflexivity|lia].
  - intros H.
    specialize (H eight_bytes (u64 None) one_element (root_context big)).
    vm_compute in H. discriminate H.
Qed.

(** ** Offsets *)

Lemma offset_store (key : string) (r : value) (ctx : BinpatContext) :
  offset (store key r ctx) = offset ctx.
Proof.
  unfold store. destruct (JS.startsWith key "..."); [reflexivity|].
  destruct (JS.startsWith key "//"); reflexivity.
Qed.

Lemma BYTES_PER_ELEMENT_pos (c : TypedArrayConstructor) :
  0 < DataView.BYTES_PER_ELEMENT c.
Proof. destruct c; reflexivity. Qed.

Lemma forward_run_array (dv : list byte) (pat : BinpatPattern) (size : NumberOrFn)
    (ctx : BinpatContext) :
  forward_run dv (PArray pat size) ctx
  = forward_times dv pat (Z.to_nat (JS.ToLength (resolve size ctx))) ctx.
Proof.
  cbn [forward_run]. generalize (Z.to_nat (JS.ToLength (resolve size ctx))) as n.
  intros n. revert ctx. induction n as [|n IH]; intros ctx; [reflexivity|].
  cbn [forward_times]. f_equal.
  destruct (exec dv pat ctx) as [[v c1]|e]; [apply IH | reflexivity].
Qed.

Lemma forward_run_list (dv : list byte) (pats : list BinpatPattern)
    (ctx : BinpatContext) :
  forward_run dv (PList pats) ctx = forward_list dv pats ctx.
Proof.
  cbn [forward_run]. revert ctx.
  induction pats as [|pat pats IH]; intros ctx; [reflexivity|].
  cbn [forward_list]. f_equal.
  destruct (exec dv pat ctx) as [[v c1]|e]; [apply IH | reflexivity].
Qed.

Lemma forward_run_object (dv : list byte) (entries : list (string * BinpatPattern))
    (ctx : BinpatContext) :
  forward_run dv (PObject entries) ctx
  = forward_entries dv entries (child_context ctx).
Proof.
  cbn [forward_run]. generalize (child_context ctx) as c.
  induction entries as [|[key pat] kvs IH]; intros c; [reflexivity|].
  cbn [forward_entries]. f_equal.
  destruct (exec dv pat c) as [[r c1]|e]; [apply IH | reflexivity].
Qed.

Lemma forward_offset_le (dv : list byte) (p : BinpatPattern) :
  forall ctx v ctx',
    forward_run dv p ctx = true ->
    exec dv p ctx = Ok (v, ctx') -> offset ctx <= offset ctx'.
Proof.
  induction p as
    [c le| |size encoding|pat size IHp|field option
    |condition truthy falsy IHt IHf|condition truthy IHt|pat fn IHp
    |o|o pat IHp|o|pats IHps|entries IHes|l] using pattern_induction;
    intros ctx v ctx' Hf H.
  - cbn [exec] in H. unfold createTypedHandler in H.
    destruct (DataView.GetViewValue _ _ _ _); cbn [bind] in H; [|discriminate H].
    injection H as _ <-. cbn [offset set_offset].
    pose proof (BYTES_PER_ELEMENT_pos c). lia.
  - cbn [exec] in H. unfold bool_handler in H.
    destruct (DataView.GetViewValue _ _ _ _); cbn [bind] in H; [|discriminate H].
    injection H as _ <-. cbn [offset set_offset]. lia.
  - cbn [exec] in H. unfold string_handler in H. injection H as _ <-.
    cbn [offset set_offset]. cbn [forward_run] in Hf. apply Z.leb_le in Hf. lia.
  - rewrite exec_array in H. cbv zeta in H.
    destruct (Array_from _ _); [discriminate H|].
    bind_ok H vs c1 E. injection H as _ <-.
    rewrite forward_run_array in Hf.
    remember (Z.to_nat (JS.ToLength (resolve size ctx))) as n eqn:Hn. clear Hn.
    revert ctx vs c1 E Hf.
    induction n as [|n IHn]; intros ctx vs ctx' E Hf.
    + injection E as _ <-. lia.
    + cbn [exec_times] in E. bind_ok E v1 c1 E1. bind_ok E vs2 c2 E2.
      injection E as _ <-.
      cbn [forward_times] in Hf. rewrite E1 in Hf.
      apply andb_true_iff in Hf. destruct Hf as [Hf1 Hf2].
      apply (IHp _ _ _ Hf1) in E1. apply (IHn _ _ _ E2) in Hf2. lia.
  - cbn [exec] in H. unfold Bitfield.handler in H. injection H as _ <-.
    cbn [offset set_offset]. cbn [forward_run] in Hf. apply Z.leb_le in Hf. lia.
  - cbn [exec] in H. cbn [forward_run] in Hf. destruct (condition ctx); eauto.
  - cbn [exec] in H. cbn [forward_run] in Hf. destruct (condition ctx); eauto.
    injection H as _ <-. lia.
  - cbn [exec] in H. bind_ok H v1 c1 E. injection H as _ <-.
    cbn [forward_run] in Hf. eauto.
  - cbn [exec] in H. unfold seek_handler in H. injection H as _ <-.
    cbn [offset set_offset]. cbn [forward_run] in Hf. apply Z.leb_le in Hf. exact Hf.
  - rewrite exec_peek in H.
    destruct (exec dv pat _) as [[v1 c1]|e]; [|discriminate H].
    injection H as _ <-. lia.
  - cbn [exec] in H. unfold skip_handler in H. injection H as _ <-.
    cbn [offset set_offset]. cbn [forward_run] in Hf. apply Z.leb_le in Hf. lia.
  - rewrite exec_plist in H. bind_ok H vs c1 E. injection H as _ <-.
    rewrite forward_run_list in Hf.
    revert ctx vs c1 E Hf.
    induction IHps as [|pat pats Hp _ IH]; intros ctx vs ctx' E Hf.
    + injection E as _ <-. lia.
    + cbn [exec_list] in E. bind_ok E v1 c1 E1. bind_ok E vs2 c2 E2.
      injection E as _ <-.
      cbn [forward_list] in Hf. rewrite E1 in Hf.
      apply andb_true_iff in Hf. destruct Hf as [Hf1 Hf2].
      apply (Hp _ _ _ Hf1) in E1. apply (IH _ _ _ E2) in Hf2. lia.
  - rewrite exec_object in H.
    destruct (exec_entries dv entries (child_context ctx)) as [c1|e] eqn:E;
      cbn [bind] in H; [|discriminate H].
    injection H as _ <-. cbn [offset set_offset].
    rewrite forward_run_object in Hf.
    change (offset ctx) with (offset (child_context ctx)).
    revert E Hf. generalize (child_context ctx) as c0.
    induction IHes as [|[key pat] kvs Hp _ IH]; intros c0 E Hf.
    + injection E as <-. lia.
    + cbn [exec_entries] in E. bind_ok E r c2 E1.
      cbn [forward_entries] in Hf. rewrite E1 in Hf.
      apply andb_true_iff in Hf. destruct Hf as [Hf1 Hf2]. cbn [snd] in Hp.
      apply (Hp _ _ _ Hf1) in E1. apply (IH _ E) in Hf2.
      rewrite offset_store in Hf2. lia.
  - cbn [exec] in H. injection H as _ <-. lia.
Qed.

(** C7, as amended.  Across a run in which, outside [peek], every [seek]
    targets an offset that is not below the offset at which it is run and
    no [skip], [string] or [bitfield] has a negative width, the offset of
    the context does not decrease; a [peek] leaves the offset as it found
    it, whatever its target and its inner pattern are. *)
Theorem offset_monotone (dv : list byte) (p : BinpatPattern) (ctx : BinpatContext)
    (v : value) (ctx' : BinpatContext) :
  forward_run dv p ctx = true ->
  exec dv p ctx = Ok (v, ctx') ->
  offset ctx <= offset ctx'
  /\ (forall target pat, p = PPeek target pat -> offset ctx' = offset ctx).
Proof.
  intros Hf H. split.
  - eapply forward_offset_le; eassumption.
  - intros target pat ->. rewrite exec_peek in H.
    destruct (exec dv pat _) as [[v1 c1]|e]; [|discriminate H].
    injection H as _ <-. reflexivity.
Qed.

Lemma offset_monotone_witness :
  forward_run [x02; x00; x09; x00; x00; x41] (PObject seeking_entries) (root_context big)
  = true
  /\ exec [x02; x00; x09; x00; x00; x41] (PObject seeking_entries) (root_context big)
     = Ok (VObject [("dataStart", VNumber 2); ("data", VNumber 9); ("b", VNumber 2);
                    ("c", VString "A")],
           set_offset (root_context big) 6)
  /\ offset (root_context big) <= offset (set_offset (root_context big) 6).
Proof.
  assert (Hf : forward_run [x02; x00; x09; x00; x00; x41] (PObject seeking_entries)
                 (root_context big) = true) by reflexivity.
  assert (He : exec [x02; x00; x09; x00; x00; x41] (PObject seeking_entries)
                 (root_context big)
               = Ok (VObject [("dataStart", VNumber 2); ("data", VNumber 9);
                              ("b", VNumber 2); ("c", VString "A")],
                     set_offset (root_context big) 6)) by reflexivity.
  split; [exact Hf|]. split; [exact He|].
  exact (proj1 (offset_monotone _ _ _ _ _ Hf He)).
Defined.

(** The runs of the seeks of the repository's test and of [seek(4)] at
    offset 0 go forward; the run of [seek(0)] at offset 1 does not. *)
Example forward_runs :
  forward_run [x02; x00; x09] (test_seek "0f") (root_context big) = true
  /\ forward_run [] (seek (Num 4)) (root_context big) = true
  /\ forward_run [x07] (seek (Num 0)) (set_offset (root_context big) 1) = false.
Proof. repeat split. Qed.

(** C7, as stated, fails: [seek(0)] run at offset 1 leaves the offset at
    0, outside any [peek]. *)
Lemma seek_moves_backwards_counterexample :
  exec [x07] (seek (Num 0)) (set_offset (root_context big) 1)
  = Ok (VUndefined, set_offset (root_context big) 0)
  /\ ~ (forall (dv : list byte) (p : BinpatPattern) (ctx : BinpatContext)
               (v : value) (ctx' : BinpatContext),
           exec dv p ctx = Ok (v, ctx') -> offset ctx <= offset ctx').
Proof.
  split; [reflexivity|].
  intros H.
  specialize (H [x07] (seek (Num 0)) (set_offset (root_context big) 1)
                VUndefined (set_offset (root_context big) 0) eq_refl).
  cbn [offset set_offset] in H. lia.
Qed.

(** A decode that goes back: the only byte of the buffer is read twice. *)
Example seek_rewinds :
  Binpat_exec
    (new_Binpat (PObject [("a", u8 None); (omit "10", seek (Num 0)); ("b", u8 None)])
       None) [x07]
  = Ok (VObject [("a", VNumber 7); ("b", VNumber 7)]).
Proof. reflexivity. Qed.

(** ** Objects *)

Lemma has_In (k : string) (o : jsobj) : Obj.has k o = true <-> In k (Obj.keys o).
Proof.
  induction o as [|[k' v'] o IH]; cbn [Obj.has Obj.keys map fst In].
  - split; [discriminate | contradiction].
  - rewrite orb_true_iff, String.eqb_eq, IH. unfold Obj.keys.
    split; intros [H|H]; auto.
Qed.

Lemma has_not_In (k : string) (o : jsobj) :
  ~ In k (Obj.keys o) -> Obj.has k o = false.
Proof.
  intros H. destruct (Obj.has k o) eqn:E; [|reflexivity].
  apply has_In in E. contradiction.
Qed.

Lemma keys_app (a b : jsobj) : Obj.keys (a ++ b) = Obj.keys a ++ Obj.keys b.
Proof. apply map_app. Qed.

Lemma keys_replace (k : string) (v : value) (o : jsobj) :
  Obj.keys (Obj.replace k v o) = Obj.keys o.
Proof.
  induction o as [|[k' v'] o IH]; [reflexivity|].
  cbn [Obj.replace]. destruct (String.eqb k k'); cbn [Obj.keys map fst] in *;
    [reflexivity | f_equal; exact IH].
Qed.

(** New keys that are not array indices go to the end, in the order of
    their assignment. *)
Lemma assign_append (l o : jsobj) :
  NoDup (Obj.keys (o ++ l)) -> Forall not_index (Obj.keys l) ->
  Obj.assign o l = o ++ l.
Proof.
  revert o. induction l as [|[k v] l IH]; intros o Hnd Hni.
  - cbn [Obj.assign fold_left]. rewrite app_nil_r. reflexivity.
  - unfold Obj.assign. cbn [fold_left fst snd].
    inversion Hni as [|? ? Hk Hl]; subst.
    assert (Hset : Obj.set k v o = o ++ [(k, v)]).
    { unfold Obj.set. rewrite has_not_In.
      - unfold not_index in Hk. rewrite Hk. reflexivity.
      - rewrite keys_app in Hnd. cbn [Obj.keys map fst] in Hnd.
        intros Hin. apply NoDup_remove_2 in Hnd. apply Hnd.
        apply in_or_app. left. exact Hin. }
    rewrite Hset. fold (Obj.assign (o ++ [(k, v)]) l).
    rewrite IH.
    + rewrite <- app_assoc. reflexivity.
    + rewrite <- app_assoc. exact Hnd.
    + exact Hl.
Qed.

(** ** Structures: the order of the result *)

Lemma exec_entries_trace (dv : list byte) (kvs : list (string * BinpatPattern)) :
  forall ctx,
    exec_entries dv kvs ctx
    = match exec_trace dv kvs ctx with
      | Ok (_, ctx') => Ok ctx'
      | Throw e => Throw e
      end.
Proof.
  induction kvs as [|[key pat] kvs IH]; intros ctx; [reflexivity|].
  cbn [exec_entries exec_trace].
  destruct (exec dv pat ctx) as [[r c1]|e]; cbn [bind]; [|reflexivity].
  rewrite IH. destruct (exec_trace dv kvs (store key r c1)) as [[rs c2]|e];
    reflexivity.
Qed.

Lemma exec_trace_keys (dv : list byte) (kvs : list (string * BinpatPattern)) :
  forall ctx rs ctx',
    exec_trace dv kvs ctx = Ok (rs, ctx') -> map fst rs = map fst kvs.
Proof.
  induction kvs as [|[key pat] kvs IH]; intros ctx rs ctx' H.
  - injection H as <- _. reflexivity.
  - cbn [exec_trace] in H. bind_ok H r c1 E1. bind_ok H rs2 c2 E2.
    injection H as <- _. cbn [map fst]. f_equal. eapply IH. eassumption.
Qed.

Lemma exec_trace_data (dv : list byte) (kvs : list (string * BinpatPattern)) :
  forall ctx rs ctx',
    exec_trace dv kvs ctx = Ok (rs, ctx') ->
    NoDup (Obj.keys (data ctx ++ contributions rs)) ->
    Forall not_index (Obj.keys (data ctx ++ contributions rs)) ->
    data ctx' = data ctx ++ contributions rs.
Proof.
  induction kvs as [|[key pat] kvs IH]; intros ctx rs ctx' H Hnd Hni.
  - injection H as <- <-. cbn. rewrite app_nil_r. reflexivity.
  - cbn [exec_trace] in H. bind_ok H r c1 E1. bind_ok H rs2 c2 E2.
    injection H as <- <-.
    apply exec_frame_data in E1.
    unfold contributions in Hnd, Hni |- *. cbn [flat_map fst snd] in Hnd, Hni |- *.
    fold (contributions rs2) in Hnd, Hni |- *.
    rewrite app_assoc in Hnd, Hni |- *.
    assert (Hstore : data (store key r c1) = data ctx ++ contribution key r).
    { rewrite keys_app in Hnd, Hni.
      apply NoDup_app_remove_r in Hnd. apply Forall_app in Hni. destruct Hni as [Hni _].
      unfold store, contribution in *.
      destruct (JS.startsWith key "...").
      - cbn [data set_data]. rewrite E1. unfold Obj.spread2.
        rewrite (assign_append (data ctx) []).
        + cbn [app]. apply assign_append.
          * exact Hnd.
          * rewrite keys_app in Hni. apply Forall_app in Hni. apply Hni.
        + cbn [app]. rewrite keys_app in Hnd. apply NoDup_app_remove_r in Hnd. exact Hnd.
        + rewrite keys_app in Hni. apply Forall_app in Hni. apply Hni.
      - destruct (JS.startsWith key "//").
        + rewrite app_nil_r. exact E1.
        + cbn [data set_data]. rewrite E1.
          change (Obj.set key r (data ctx)) with (Obj.assign (data ctx) [(key, r)]).
          apply assign_append.
          * exact Hnd.
          * rewrite keys_app in Hni. apply Forall_app in Hni. apply Hni. }
    rewrite <- Hstore in Hnd, Hni |- *.
    eapply IH; eassumption.
Qed.

Lemma literal_has_not_In {A : Type} (k : string) (o : list (string * A)) :
  ~ In k (map fst o) -> ObjectLiteral.has k o = false.
Proof.
  induction o as [|[k' v'] o IH]; intros Hin; [reflexivity|].
  cbn [ObjectLiteral.has]. cbn [map fst In] in Hin.
  destruct (String.eqb_spec k k') as [->|_].
  - exfalso. apply Hin. left. reflexivity.
  - apply IH. intros H. apply Hin. right. exact H.
Qed.

Lemma literal_fold_plain {A : Type} (declared : list (string * A)) :
  forall o,
    NoDup (map fst (o ++ declared)) ->
    Forall not_index (map fst declared) ->
    fold_left (fun o kv => ObjectLiteral.define (fst kv) (snd kv) o) declared o
    = o ++ declared.
Proof.
  induction declared as [|[k v] l IH]; intros o Hnd Hni.
  - cbn [fold_left]. rewrite app_nil_r. reflexivity.
  - cbn [fold_left fst snd]. inversion Hni as [|? ? Hk Hl]; subst.
    assert (Hdef : ObjectLiteral.define k v o = o ++ [(k, v)]).
    { unfold ObjectLiteral.define. rewrite literal_has_not_In.
      - unfold not_index in Hk. rewrite Hk. reflexivity.
      - rewrite map_app in Hnd. cbn [map fst] in Hnd.
        intros Hin. apply NoDup_remove_2 in Hnd. apply Hnd.
        apply in_or_app. left. exact Hin. }
    rewrite Hdef, IH.
    + rewrite <- app_assoc. reflexivity.
    + rewrite <- app_assoc. exact Hnd.
    + exact Hl.
Qed.

(** Fields whose keys are pairwise distinct and are not array indices are
    listed in the order they are declared in. *)
Lemma literal_entries_plain {A : Type} (declared : list (string * A)) :
  NoDup (map fst declared) ->
  Forall not_index (map fst declared) ->
  ObjectLiteral.entries declared = declared.
Proof.
  intros Hnd Hni. unfold ObjectLiteral.entries.
  rewrite literal_fold_plain; [reflexivity | exact Hnd | exact Hni].
Qed.

(** C3, as amended.  When the keys that a Structure declares are pairwise
    distinct and none of them is an array index, its fields are run in
    the order they are declared in, an omitted field included, each on
    the context that the one before has left: the Structure returns what
    the run [rs] of the declared fields, one after the other, has stored,
    at the offset where the last one stops.  When in addition the keys
    that reach the result (those of the plain fields and of the spread
    sub-results) are pairwise distinct and none is an array index, the
    result mapping lists them in that order: a plain field under its key,
    nothing for an omitted field, the entries of the sub-result, in their
    own order, in place of a spread field. *)
Theorem structure_result_order (dv : list byte)
    (declared : list (string * BinpatPattern)) (parent_ : BinpatContext)
    (rs : list (string * value)) (ctx : BinpatContext) :
  NoDup (map fst declared) ->
  Forall (fun k => JS.array_index k = None) (map fst declared) ->
  exec_trace dv declared (child_context parent_) = Ok (rs, ctx) ->
  map fst rs = map fst declared
  /\ exec dv (structure declared) parent_
     = Ok (VObject (data ctx), set_offset parent_ (offset ctx))
  /\ (NoDup (Obj.keys (contributions rs)) ->
      Forall (fun k => JS.array_index k = None) (Obj.keys (contributions rs)) ->
      exec dv (structure declared) parent_
      = Ok (VObject (contributions rs), set_offset parent_ (offset ctx))).
Proof.
  intros Hdnd Hdni H.
  assert (He : exec dv (structure declared) parent_
               = Ok (VObject (data ctx), set_offset parent_ (offset ctx))).
  { unfold structure. rewrite (literal_entries_plain declared Hdnd Hdni).
    rewrite exec_object, exec_entries_trace, H. reflexivity. }
  split; [|split].
  - eapply exec_trace_keys. eassumption.
  - exact He.
  - intros Hnd Hni. rewrite He.
    rewrite (exec_trace_data _ _ _ _ _ H); [reflexivity | exact Hnd | exact Hni].
Qed.

Lemma structure_result_order_witness :
  NoDup (map fst flag_entries)
  /\ Forall (fun k => JS.array_index k = None) (map fst flag_entries)
  /\ exec_trace [x01; x09; x07; x05] flag_entries (child_context (root_context big))
     = Ok (flag_results, flag_context)
  /\ NoDup (Obj.keys (contributions flag_results))
  /\ Forall (fun k => JS.array_index k = None) (Obj.keys (contributions flag_results))
  /\ exec [x01; x09; x07; x05] (structure flag_entries) (root_context big)
     = Ok (VObject [("flag", VBoolean true); ("truthy", VNumber 7); ("tail", VNumber 5)],
           set_offset (root_context big) 4).
Proof.
  assert (Hdnd : NoDup (map fst flag_entries)).
  { simpl. repeat constructor; simpl; intuition discriminate. }
  assert (Hdni : Forall (fun k => JS.array_index k = None) (map fst flag_entries)).
  { simpl. repeat constructor. }
  assert (H : exec_trace [x01; x09; x07; x05] flag_entries
                (child_context (root_context big)) = Ok (flag_results, flag_context))
    by reflexivity.
  assert (Hnd : NoDup (Obj.keys (contributions flag_results))).
  { simpl. repeat constructor; simpl; intuition discriminate. }
  assert (Hni : Forall (fun k => JS.array_index k = None)
                  (Obj.keys (contributions flag_results))).
  { simpl. repeat constructor. }
  split; [exact Hdnd|]. split; [exact Hdni|]. split; [exact H|].
  split; [exact Hnd|]. split; [exact Hni|].
  exact (proj2 (proj2 (structure_result_order _ _ _ _ _ Hdnd Hdni H)) Hnd Hni).
Defined.

(** C3, as stated, fails.  A field whose key is an array index is run
    before the fields declared before it: over the bytes [1, 2] the
    pattern [{b: u8(), 1: u8()}] runs [1] first and returns
    [{1: 1, b: 2}], where the declaration order gives [b] the first byte.
    When a spread sub-result repeats a key of the Structure, the key
    keeps the place of its first write: over the bytes [1, 2, 3] the
    pattern [{a: u8(), ...: {b: u8(), a: u8()}}] runs [a], then the
    spread of [{b: 2, a: 3}], and returns [{a: 3, b: 2}], the keys [a, b]
    and not [a, b, a].  When a spread sub-result has a key that is an
    array index, that key comes first: over the bytes [1, 2] the pattern
    [{a: u8(), ...: {1: u8()}}] returns the keys [1, a] and not [a, 1]. *)
Lemma structure_key_order_counterexample :
  (ObjectLiteral.entries index_declared = [("1", u8 None); ("b", u8 None)]
   /\ exec [x01; x02] (structure index_declared) (root_context big)
      = Ok (VObject [("1", VNumber 1); ("b", VNumber 2)],
            set_offset (root_context big) 2)
   /\ exec_trace [x01; x02] index_declared (child_context (root_context big))
      = Ok ([("b", VNumber 1); ("1", VNumber 2)],
            mkContext big (Some (root_context big)) 2
              [("1", VNumber 2); ("b", VNumber 1)]))
  /\ (exists rs ctx o,
        exec_trace [x01; x02; x03] colliding_entries (child_context (root_context big))
        = Ok (rs, ctx)
        /\ exec [x01; x02; x03] (structure colliding_entries) (root_context big)
           = Ok (VObject o, set_offset (root_context big) (offset ctx))
        /\ Obj.keys o = ["a"; "b"]
        /\ Obj.keys (contributions rs) = ["a"; "b"; "a"])
  /\ (exists rs ctx o,
        exec_trace [x01; x02] indexed_entries (child_context (root_context big))
        = Ok (rs, ctx)
        /\ exec [x01; x02] (structure indexed_entries) (root_context big)
           = Ok (VObject o, set_offset (root_context big) (offset ctx))
        /\ Obj.keys o = ["1"; "a"]
        /\ Obj.keys (contributions rs) = ["a"; "1"])
  /\ ~ (forall (dv : list byte) (declared : list (string * BinpatPattern))
               (parent_ : BinpatContext) (rs : list (string * value))
               (ctx : BinpatContext),
           exec_trace dv declared (child_context parent_) = Ok (rs, ctx) ->
           exec dv (structure declared) parent_
           = Ok (VObject (data ctx), set_offset parent_ (offset ctx)))
  /\ ~ (forall (dv : list byte) (declared : list (string * BinpatPattern))
               (parent_ : BinpatContext) (rs : list (string * value))
               (ctx : BinpatContext),
           exec_trace dv declared (child_context parent_) = Ok (rs, ctx) ->
           exists o,
             exec dv (structure declared) parent_
             = Ok (VObject o, set_offset parent_ (offset ctx))
             /\ Obj.keys o = Obj.keys (contributions rs)).
Proof.
  split; [|split; [|split; [|split]]].
  - repeat split; reflexivity.
  - eexists _, _, _. repeat split; reflexivity.
  - eexists _, _, _. repeat split; reflexivity.
  - intros H.
    specialize (H [x01; x02] index_declared (root_context big)
                  [("b", VNumber 1); ("1", VNumber 2)]
                  (mkContext big (Some (root_context big)) 2
                     [("1", VNumber 2); ("b", VNumber 1)])
                  eq_refl).
    vm_compute in H. discriminate H.
  - intros H.
    destruct (H [x01; x02; x03] colliding_entries (root_context big)
                [("a", VNumber 1);
                 (spread "0c", VObject [("b", VNumber 2); ("a", VNumber 3)])]
                (mkContext big (Some (root_context big)) 3
                   [("a", VNumber 3); ("b", VNumber 2)])
                eq_refl) as [o [Ho Hk]].
    vm_compute in Ho. injection Ho as <-. vm_compute in Hk. discriminate Hk.
Qed.

(** The decodes of the two patterns. *)
Example colliding_decode :
  Binpat_exec (new_Binpat (PObject colliding_entries) None) [x01; x02; x03]
  = Ok (VObject [("a", VNumber 3); ("b", VNumber 2)])
  /\ Binpat_exec (new_Binpat (PObject indexed_entries) None) [x01; x02]
     = Ok (VObject [("1", VNumber 2); ("a", VNumber 1)]).
Proof. split; reflexivity. Qed.

(** ** Objects as the language builds them *)

Lemma array_index_string (k : string) (n : N) :
  JS.array_index k = Some n -> k = NilEmpty.string_of_uint (N.to_uint n).
Proof.
  unfold JS.array_index. destruct (NilEmpty.uint_of_string k) as [u|]; [|discriminate].
  destruct (String.eqb _ k && _)%bool eqn:E; [|discriminate].
  intros H. injection H as <-.
  apply andb_true_iff in E. destruct E as [E _].
  apply String.eqb_eq in E. symmetry. exact E.
Qed.

Lemma array_index_inj (k1 k2 : string) (n : N) :
  JS.array_index k1 = Some n -> JS.array_index k2 = Some n -> k1 = k2.
Proof.
  intros H1 H2. apply array_index_string in H1, H2. congruence.
Qed.

Lemma key_before_not_index (x k : string) :
  JS.array_index k = None -> JS.array_index x = None \/ key_before x k.
Proof.
  intros Hk. unfold key_before. rewrite Hk.
  destruct (JS.array_index x); [right; exact I | left; reflexivity].
Qed.

Lemma In_keys_insert_index (n : N) (k : string) (v : value) (o : jsobj) (x : string) :
  In x (Obj.keys (Obj.insert_index n k v o)) <-> x = k \/ In x (Obj.keys o).
Proof.
  induction o as [|[k' v'] o IH]; cbn [Obj.insert_index].
  - cbn. intuition.
  - destruct (JS.array_index k') as [m|].
    + destruct (m <? n)%N.
      * cbn [Obj.keys map fst In] in *. rewrite IH. intuition.
      * cbn [Obj.keys map fst In]. intuition.
    + cbn [Obj.keys map fst In]. intuition.
Qed.

Lemma canonical_insert_index (n : N) (k : string) (v : value) (o : jsobj) :
  canonical o -> JS.array_index k = Some n -> ~ In k (Obj.keys o) ->
  canonical (Obj.insert_index n k v o).
Proof.
  induction o as [|[k' v'] o IH]; intros [Hnd Hss] Hk Hin.
  - split; cbn; repeat constructor. intros [].
  - cbn [Obj.keys map fst] in Hnd, Hss, Hin.
    inversion Hnd as [|? ? Hk' Hnd']; subst.
    inversion Hss as [|? ? Hss' Hall]; subst.
    assert (Hne : k' <> k) by (intros ->; apply Hin; left; reflexivity).
    assert (Hin' : ~ In k (Obj.keys o)) by (intros H; apply Hin; right; exact H).
    cbn [Obj.insert_index].
    destruct (JS.array_index k') as [m|] eqn:Em.
    + destruct (N.ltb_spec m n) as [Hlt|Hge].
      * destruct (IH (conj Hnd' Hss') Hk Hin') as [IHnd IHss].
        split; cbn [Obj.keys map fst].
        -- constructor; [|exact IHnd].
           intros H. apply In_keys_insert_index in H. destruct H as [H|H]; auto.
        -- constructor; [exact IHss|].
           apply Forall_forall. intros x Hx.
           apply In_keys_insert_index in Hx. destruct Hx as [->|Hx].
           ++ unfold key_before. rewrite Em, Hk. exact Hlt.
           ++ rewrite Forall_forall in Hall. apply Hall. exact Hx.
      * assert (Hlt : (n < m)%N).
        { destruct (N.eq_dec n m) as [->|Hnm]; [|lia].
          exfalso. apply Hne. eapply array_index_inj; eassumption. }
        split; cbn [Obj.keys map fst].
        -- constructor; [exact Hin | exact Hnd].
        -- constructor; [exact Hss|].
           constructor.
           ++ unfold key_before. rewrite Hk, Em. exact Hlt.
           ++ apply Forall_forall. intros x Hx.
              rewrite Forall_forall in Hall. specialize (Hall x Hx).
              unfold key_before in Hall |- *. rewrite Em in Hall. rewrite Hk.
              destruct (JS.array_index x); [lia | exact I].
    + split; cbn [Obj.keys map fst].
      * constructor; [exact Hin | exact Hnd].
      * constructor; [exact Hss|].
        constructor.
        -- unfold key_before. rewrite Hk, Em. exact I.
        -- apply Forall_forall. intros x Hx.
           rewrite Forall_forall in Hall. specialize (Hall x Hx).
           unfold key_before in Hall |- *. rewrite Em in Hall. rewrite Hk.
           destruct (JS.array_index x); [contradiction | exact I].
Qed.

Lemma StronglySorted_snoc {A : Type} (R : A -> A -> Prop) (l : list A) (x : A) :
  StronglySorted R l -> Forall (fun y => R y x) l -> StronglySorted R (l ++ [x]).
Proof.
  induction l as [|a l IH]; intros Hss Hall.
  - cbn. repeat constructor.
  - inversion Hss as [|? ? Hss' Ha]; subst.
    inversion Hall as [|? ? Hax Hall']; subst.
    cbn [app]. constructor; [apply IH; assumption|].
    apply Forall_app. split; [exact Ha | repeat constructor; exact Hax].
Qed.

Lemma StronglySorted_before {A : Type} (R : A -> A -> Prop) (l1 l2 : list A) (x : A) :
  StronglySorted R (l1 ++ x :: l2) -> Forall (fun y => R y x) l1.
Proof.
  induction l1 as [|a l1 IH]; intros Hss; [constructor|].
  cbn [app] in Hss. inversion Hss as [|? ? Hss' Ha]; subst.
  constructor; [|apply IH; exact Hss'].
  rewrite Forall_forall in Ha. apply Ha. apply in_or_app. right. left. reflexivity.
Qed.

Lemma canonical_nil : canonical [].
Proof. split; constructor. Qed.

Lemma canonical_set (k : string) (v : value) (o : jsobj) :
  canonical o -> canonical (Obj.set k v o).
Proof.
  intros Hc. unfold Obj.set. destruct (Obj.has k o) eqn:Eh.
  - unfold canonical. rewrite keys_replace. exact Hc.
  - assert (Hin : ~ In k (Obj.keys o)).
    { intros H. apply has_In in H. congruence. }
    destruct (JS.array_index k) as [n|] eqn:Ek.
    + apply canonical_insert_index; assumption.
    + destruct Hc as [Hnd Hss]. split; rewrite keys_app; cbn [Obj.keys map fst].
      * apply NoDup_app; [exact Hnd | repeat constructor; intros [] |].
        intros x Hx [<-|[]]. contradiction.
      * apply StronglySorted_snoc; [exact Hss|].
        apply Forall_forall. intros x _. unfold key_before. rewrite Ek.
        destruct (JS.array_index x); exact I.
Qed.

Lemma canonical_assign (l o : jsobj) : canonical o -> canonical (Obj.assign o l).
Proof.
  revert o. induction l as [|[k v] l IH]; intros o Hc; [exact Hc|].
  unfold Obj.assign. cbn [fold_left fst snd]. apply IH. apply canonical_set. exact Hc.
Qed.

Lemma insert_index_end (n : N) (k : string) (v : value) (o : jsobj) :
  JS.array_index k = Some n -> Forall (fun x => key_before x k) (Obj.keys o) ->
  Obj.insert_index n k v o = o ++ [(k, v)].
Proof.
  intros Hk. induction o as [|[k' v'] o IH]; intros Hall; [reflexivity|].
  cbn [Obj.keys map fst] in Hall. inversion Hall as [|? ? Hk' Hall']; subst.
  cbn [Obj.insert_index app]. unfold key_before in Hk'. rewrite Hk in Hk'.
  destruct (JS.array_index k') as [m|]; [|contradiction].
  destruct (N.ltb_spec m n) as [_|Hge]; [|lia].
  rewrite IH; [reflexivity | exact Hall'].
Qed.

(** Copying an object, property after property, gives the same object. *)
Lemma assign_canonical (o acc : jsobj) :
  canonical (acc ++ o) -> Obj.assign acc o = acc ++ o.
Proof.
  revert acc. induction o as [|[k v] o IH]; intros acc Hc.
  - cbn. rewrite app_nil_r. reflexivity.
  - unfold Obj.assign. cbn [fold_left fst snd].
    assert (Hset : Obj.set k v acc = acc ++ [(k, v)]).
    { destruct Hc as [Hnd Hss]. rewrite keys_app in Hnd, Hss.
      cbn [Obj.keys map fst] in Hnd, Hss.
      unfold Obj.set. rewrite has_not_In.
      - destruct (JS.array_index k) as [n|] eqn:Ek; [|reflexivity].
        apply insert_index_end; [exact Ek|].
        eapply StronglySorted_before. exact Hss.
      - intros Hin. apply NoDup_remove_2 in Hnd. apply Hnd.
        apply in_or_app. left. exact Hin. }
    rewrite Hset. fold (Obj.assign (acc ++ [(k, v)]) o).
    rewrite IH; rewrite <- app_assoc; [reflexivity | exact Hc].
Qed.

Lemma canonical_store (key : string) (r : value) (ctx : BinpatContext) :
  canonical (data ctx) -> canonical (data (store key r ctx)).
Proof.
  intros Hc. unfold store.
  destruct (JS.startsWith key "...").
  - cbn [data set_data]. unfold Obj.spread2.
    apply canonical_assign, canonical_assign, canonical_nil.
  - destruct (JS.startsWith key "//"); [exact Hc|].
    cbn [data set_data]. apply canonical_set. exact Hc.
Qed.

Lemma exec_entries_canonical (dv : list byte) (kvs : list (string * BinpatPattern)) :
  forall ctx ctx',
    canonical (data ctx) -> exec_entries dv kvs ctx = Ok ctx' -> canonical (data ctx').
Proof.
  induction kvs as [|[key pat] kvs IH]; intros ctx ctx' Hc H.
  - injection H as <-. exact Hc.
  - cbn [exec_entries] in H. bind_ok H r c1 E.
    apply exec_frame_data in E. rewrite <- E in Hc.
    eapply IH; [|exact H]. apply canonical_store. exact Hc.
Qed.

Lemma exec_entries_app (dv : list byte) (kvs1 kvs2 : list (string * BinpatPattern)) :
  forall ctx,
    exec_entries dv (kvs1 ++ kvs2) ctx
    = match exec_entries dv kvs1 ctx with
      | Ok ctx1 => exec_entries dv kvs2 ctx1
      | Throw e => Throw e
      end.
Proof.
  induction kvs1 as [|[key pat] kvs1 IH]; intros ctx; [reflexivity|].
  cbn [app exec_entries].
  destruct (exec dv pat ctx) as [[r c1]|e]; cbn [bind]; [apply IH | reflexivity].
Qed.

(** ** Spread entries *)

(** C8, as amended.  A spread entry never reports an error, whatever its
    sub-pattern decodes to: the own entries of the value are assigned to
    the result one by one, as the spread syntax of the language does, and
    the decode goes on with the next entry, from the offset where the
    sub-pattern has left it.  A value that is [undefined], a number, a
    bigint or a boolean has no entry, and the result is left as it was; a
    string and an array have their characters and elements, under their
    indices. *)
Theorem spread_of_any_value (dv : list byte)
    (kvs : list (string * BinpatPattern)) (key : string) (pat : BinpatPattern)
    (kvs' : list (string * BinpatPattern))
    (parent_ ctx : BinpatContext) (r : value) (ctx1 : BinpatContext) :
  exec_entries dv kvs (child_context parent_) = Ok ctx ->
  JS.startsWith key "..." = true ->
  exec dv pat ctx = Ok (r, ctx1) ->
  exec dv (PObject (kvs ++ (key, pat) :: kvs')) parent_
  = match exec_entries dv kvs'
            (set_data ctx1 (Obj.assign (data ctx) (Obj.own_entries r))) with
    | Ok ctx' => Ok (VObject (data ctx'), set_offset parent_ (offset ctx'))
    | Throw e => Throw e
    end
  /\ (scalar r -> Obj.assign (data ctx) (Obj.own_entries r) = data ctx)
  /\ (forall s, r = VString s -> Obj.own_entries r = Obj.indexed 0 (Obj.chars s))
  /\ (forall vs, r = VArray vs -> Obj.own_entries r = Obj.indexed 0 vs).
Proof.
  intros Hkvs Hkey Hpat. split; [|split; [|split]].
  - rewrite exec_object, exec_entries_app, Hkvs.
    cbn [exec_entries]. rewrite Hpat. cbn [bind].
    unfold store. rewrite Hkey.
    rewrite (exec_frame_data _ _ _ _ _ Hpat).
    unfold Obj.spread2. rewrite (assign_canonical (data ctx) []); [reflexivity|].
    cbn [app]. eapply exec_entries_canonical; [|exact Hkvs].
    apply canonical_nil.
  - intros Hs. destruct r; try contradiction; reflexivity.
  - intros s ->. reflexivity.
  - intros vs ->. reflexivity.
Qed.

Lemma spread_of_any_value_witness :
  exec_entries [x01; x07; x09] [("a", u8 None)] (child_context (root_context big))
  = Ok one_field_context
  /\ JS.startsWith (spread "0d") "..." = true
  /\ exec [x01; x07; x09] (u8 None) one_field_context
     = Ok (VNumber 7, set_offset one_field_context 2)
  /\ exec [x01; x07; x09]
       (PObject ([("a", u8 None)] ++ (spread "0d", u8 None) :: [("b", u8 None)]))
       (root_context big)
     = Ok (VObject [("a", VNumber 1); ("b", VNumber 9)],
           set_offset (root_context big) 3).
Proof.
  assert (H1 : exec_entries [x01; x07; x09] [("a", u8 None)]
                 (child_context (root_context big)) = Ok one_field_context)
    by reflexivity.
  assert (H2 : JS.startsWith (spread "0d") "..." = true) by reflexivity.
  assert (H3 : exec [x01; x07; x09] (u8 None) one_field_context
               = Ok (VNumber 7, set_offset one_field_context 2))
    by reflexivity.
  split; [exact H1|]. split; [exact H2|]. split; [exact H3|].
  rewrite (proj1 (spread_of_any_value _ _ _ _ [("b", u8 None)] _ _ _ _ H1 H2 H3)).
  reflexivity.
Defined.

(** C8, as stated, fails: a spread entry whose sub-pattern decodes to a
    number reports no error; the number is dropped and the decode returns
    the empty mapping. *)
Lemma spread_of_number_counterexample :
  Binpat_exec (new_Binpat (PObject [(spread "0d", u8 None)]) None) [x07]
  = Ok (VObject [])
  /\ ~ (forall (dv : list byte) (key : string) (pat : BinpatPattern)
               (parent_ : BinpatContext) (r : value) (ctx1 : BinpatContext),
           JS.startsWith key "..." = true ->
           exec dv pat (child_context parent_) = Ok (r, ctx1) ->
           (forall o, r <> VObject o) ->
           exists e, exec dv (PObject [(key, pat)]) parent_ = Throw e).
Proof.
  split; [reflexivity|].
  intros H.
  destruct (H [x07] (spread "0d") (u8 None) (root_context big) (VNumber 7)
              (set_offset (child_context (root_context big)) 1)
              eq_refl eq_refl) as [e He].
  - intros o. discriminate.
  - vm_compute in He. discriminate He.
Qed.

(** The decode of a spread number, and of a spread pair of numbers. *)
Example spread_number_decode :
  Binpat_exec (new_Binpat (PObject [(spread "0d", u8 None)]) None) [x07]
  = Ok (VObject [])
  /\ Binpat_exec
       (new_Binpat (PObject [("a", u8 None); (spread "0e", PList [u8 None; u8 None])])
          None) [x01; x02; x03]
     = Ok (VObject [("0", VNumber 2); ("1", VNumber 3); ("a", VNumber 1)]).
Proof. split; reflexivity. Qed.

(** ** Reads past the end of the buffer *)

Lemma exec_times_throw (dv : list byte) (q : BinpatPattern) (e : exn) (k : nat) :
  forall n c vs c1,
    (k < n)%nat -> exec_times dv q k c = Ok (vs, c1) -> exec dv q c1 = Throw e ->
    exec_times dv q n c = Throw e.
Proof.
  induction k as [|k IH]; intros n c vs c1 Hlt Hk He.
  - injection Hk as _ <-. destruct n as [|n]; [lia|].
    cbn [exec_times]. rewrite He. reflexivity.
  - destruct n as [|n]; [lia|].
    cbn [exec_times] in Hk |- *. bind_ok Hk v1 c2 E1. bind_ok Hk vs2 c3 E2.
    injection Hk as _ <-. cbn [bind].
    rewrite (IH n c2 vs2 c3); [reflexivity | lia | exact E2 | exact He].
Qed.

Lemma exec_list_throw (dv : list byte) (q : BinpatPattern) (e : exn)
    (ps1 ps2 : list BinpatPattern) :
  forall c vs c1,
    exec_list dv ps1 c = Ok (vs, c1) -> exec dv q c1 = Throw e ->
    exec_list dv (ps1 ++ q :: ps2) c = Throw e.
Proof.
  induction ps1 as [|p1 ps1 IH]; intros c vs c1 H1 He.
  - injection H1 as _ <-. cbn [app exec_list]. rewrite He. reflexivity.
  - cbn [app exec_list] in H1 |- *. bind_ok H1 v1 c2 E1. bind_ok H1 vs2 c3 E2.
    injection H1 as _ <-. cbn [bind].
    rewrite (IH c2 vs2 c3); [reflexivity | exact E2 | exact He].
Qed.

(** No combinator recovers from the error of a pattern it runs. *)
Lemma reaches_throw (dv : list byte) (p : BinpatPattern) (ctx : BinpatContext)
    (e : exn) (q : BinpatPattern) (c : BinpatContext) :
  reaches dv p ctx q c -> exec dv p ctx = Throw e -> exec dv q c = Throw e.
Proof.
  intros Hr He.
  induction Hr as
    [|q c fn _ IH|q c o _ IH|q c condition falsy Hc _ IH
     |q c condition truthy Hc _ IH|q c size k vs c1 Hlen Hk Hpre _ IH
     |ps1 q ps2 c vs c1 Hpre _ IH|kvs1 key q kvs2 c c1 Hpre _ IH].
  - exact He.
  - cbn [exec]. rewrite IH. reflexivity.
  - rewrite exec_peek, IH. reflexivity.
  - cbn [exec]. rewrite Hc. exact IH.
  - cbn [exec]. rewrite Hc. exact IH.
  - rewrite exec_array. cbv zeta.
    rewrite Hlen, (exec_times_throw dv q e k _ c vs c1 Hk Hpre IH). reflexivity.
  - rewrite exec_plist, (exec_list_throw dv q e ps1 ps2 c vs c1 Hpre IH). reflexivity.
  - rewrite exec_object, exec_entries_app, Hpre. cbn [exec_entries].
    rewrite IH. reflexivity.
Qed.

(** X23. A fixed-width primitive or boolean read whose bytes extend past
    the end of the buffer raises a [RangeError], and no combinator
    recovers from it: every pattern whose run comes to that read (through
    [convert], [peek], [ternary], the elements of an [array] that can be
    built, of a sequence or of a Structure, the reads before it having
    returned) returns the same error, and so does the decode. *)
Theorem primitive_read_past_end (dv : list byte) (p : BinpatPattern)
    (ctx : BinpatContext) (w : Z) :
  primitive_width p = Some w ->
  Z.of_nat (List.length dv) < offset ctx + w ->
  exec dv p ctx = Throw RangeError
  /\ (forall q c, reaches dv p ctx q c -> exec dv q c = Throw RangeError)
  /\ (forall b,
        reaches dv p ctx (Binpat_pattern b) (root_context (Binpat_endian b)) ->
        Binpat_exec b dv = Throw RangeError).
Proof.
  intros Hw Hpast.
  assert (He : exec dv p ctx = Throw RangeError).
  { destruct p; try discriminate Hw; injection Hw as <-; cbn [exec].
    - unfold createTypedHandler.
      rewrite GetViewValue_out_of_range; [reflexivity|].
      unfold in_range. lia.
    - unfold bool_handler.
      rewrite GetViewValue_out_of_range; [reflexivity|].
      unfold in_range. cbn [DataView.BYTES_PER_ELEMENT]. lia. }
  split; [exact He|]. split.
  - intros q c Hr. eapply reaches_throw; eassumption.
  - intros b Hr. unfold Binpat_exec.
    rewrite (reaches_throw _ _ _ _ _ _ Hr He). reflexivity.
Qed.

Lemma primitive_read_past_end_witness :
  primitive_width (u16 None) = Some 2
  /\ Z.of_nat (List.length [x01; x02]) < offset one_field_context + 2
  /\ Binpat_exec (new_Binpat (PObject [("a", u8 None); ("b", u16 None)]) None)
       [x01; x02]
     = Throw RangeError.
Proof.
  assert (H1 : primitive_width (u16 None) = Some 2) by reflexivity.
  assert (H2 : Z.of_nat (List.length [x01; x02]) < offset one_field_context + 2)
    by (vm_compute; reflexivity).
  split; [exact H1|]. split; [exact H2|].
  destruct (primitive_read_past_end [x01; x02] (u16 None) one_field_context 2 H1 H2)
    as [_ [_ Hb]].
  apply (Hb (new_Binpat (PObject ([("a", u8 None)] ++ ("b", u16 None) :: [])) None)).
  apply (reaches_entry _ _ _ [("a", u8 None)] "b" (u16 None) [] (root_context big)
           one_field_context).
  - reflexivity.
  - apply reaches_here.
Defined.

(** C9.  The claim fails on strings and bitfields, which take their bytes
    with [dv.buffer.slice], a call that clamps its span to the buffer and
    never fails.  [string(4)] over the two bytes [0x61, 0x62] raises no
    error: it returns the two characters that exist and moves the offset
    by four, past the end.  [bitfield({a: 8, b: 8})] over the byte [0xff]
    returns [{a: 255, b: NaN}].  The primitives do what the claim says:
    [u32()] over the same two bytes raises a [RangeError]. *)
Theorem read_past_end_returns_value :
  Binpat_exec (new_Binpat (PString (Num 4) latin1) None) [x61; x62]
  = Ok (VString "ab")
  /\ exec [x61; x62] (PString (Num 4) latin1) (root_context big)
     = Ok (VString "ab", set_offset (root_context big) 4)
  /\ Binpat_exec
       (new_Binpat (bitfield [("a", BitNumber 8); ("b", BitNumber 8)] no_option) None)
       [xff]
     = Ok (VObject [("a", VNumber 255); ("b", VNaN)])
  /\ Binpat_exec (new_Binpat (u32 None) None) [x61; x62] = Throw RangeError
  /\ ~ (forall (dv : list byte) (p : BinpatPattern) (ctx : BinpatContext) (w : Z),
           read_width p ctx = Some w ->
           Z.of_nat (List.length dv) < offset ctx + w ->
           exists e, exec dv p ctx = Throw e).
Proof.
  repeat (split; [reflexivity|]).
  intros H.
  destruct (H [x61; x62] (PString (Num 4) latin1) (root_context big) 4 eq_refl)
    as [e He].
  - vm_compute. reflexivity.
  - vm_compute in He. discriminate He.
Qed.

(** ** Keys *)

(** C10. An entry of a Structure is classified by the prefix of its key
    alone: the result of a key that starts with ["..."] is spread into
    the mapping built so far, the result of a key that starts with ["//"]
    is dropped after its pattern has run, the result of any other key is
    stored under it.  [spread()] and [omit()] only build a key with that
    prefix from a random draw, so a key written by hand with the prefix
    is treated alike. *)
Theorem keys_classified_by_prefix (dv : list byte) (key : string)
    (pat : BinpatPattern) (kvs : list (string * BinpatPattern))
    (ctx : BinpatContext) :
  exec_entries dv ((key, pat) :: kvs) ctx
  = match exec dv pat ctx with
    | Ok (r, ctx1) =>
        exec_entries dv kvs
          (if JS.startsWith key "..." then set_data ctx1 (Obj.spread2 (data ctx) r)
           else if JS.startsWith key "//" then ctx1
           else set_data ctx1 (Obj.set key r (data ctx)))
    | Throw e => Throw e
    end
  /\ (forall rnd, JS.startsWith (spread rnd) "..." = true)
  /\ (forall rnd,
        JS.startsWith (omit rnd) "..." = false /\ JS.startsWith (omit rnd) "//" = true)
  /\ Binpat_exec
       (new_Binpat
          (PObject [("// reserved", u16 None); ("type", u16 None); ("count", u16 None)])
          None) [x00; x00; x00; x01; x00; x01]
     = Ok (VObject [("type", VNumber 1); ("count", VNumber 1)])
  /\ Binpat_exec
       (new_Binpat
          (PObject
             [("flag", PBool);
              ("...spread",
               ternary data_flag (PObject [("truthy", u8 None)])
                 (Some (PObject [("falsy", u8 None)])))])
          None) [x01; x00]
     = Ok (VObject [("flag", VBoolean true); ("truthy", VNumber 0)]).
Proof.
  split; [|repeat split].
  cbn [exec_entries].
  destruct (exec dv pat ctx) as [[r ctx1]|e] eqn:E; cbn [bind]; [|reflexivity].
  unfold store. rewrite (exec_frame_data _ _ _ _ _ E). reflexivity.
Qed.

(** ** The tests of the repository *)

Example test_integers :
  run (u8 None) [x01] = Ok (VNumber 1)
  /\ run (u32 None) [x01; x02; x03; x04] = Ok (VNumber 16909060)
  /\ run (u32 (Some true)) [x01; x02; x03; x04] = Ok (VNumber 67305985)
  /\ run (u64 None) [x01; x02; x03; x04; x05; x06; x07; x08]
     = Ok (VBigInt 72623859790382856)
  /\ run (u64 (Some true)) [x01; x02; x03; x04; x05; x06; x07; x08]
     = Ok (VBigInt 578437695752307201)
  /\ run (i8 None) [xff] = Ok (VNumber (-1))
  /\ run (i16 None) [x00; xff] = Ok (VNumber 255)
  /\ run (i16 (Some true)) [x00; xff] = Ok (VNumber (-256))
  /\ run (i32 None) [x00; x00; x00; xff] = Ok (VNumber 255)
  /\ run (i32 (Some true)) [x00; x00; x00; xff] = Ok (VNumber (-16777216))
  /\ run (i64 None) [x00; x00; x00; x00; x00; x00; x00; xff] = Ok (VBigInt 255)
  /\ run (i64 (Some true)) [x00; x00; x00; x00; x00; x00; x00; xff]
     = Ok (VBigInt (-72057594037927936)).
Proof. repeat split; reflexivity. Qed.

(** The single-precision pattern [0x40490fdb] is 13176795 * 2^-22, the
    float next to pi; the half-precision pattern [0x3c00] is 1. *)
Example test_floats :
  run (f32 None) [x40; x49; x0f; xdb] = Ok (VFloat (S754_finite false 13176795 (-22)))
  /\ run (f32 (Some true)) [xdb; x0f; x49; x40]
     = Ok (VFloat (S754_finite false 13176795 (-22)))
  /\ run (f16 None) [x3c; x00] = Ok (VFloat (S754_finite false 1024 (-10)))
  /\ run (f64 None) [x80; x00; x00; x00; x00; x00; x00; x00]
     = Ok (VFloat (S754_zero true)).
Proof. repeat split; reflexivity. Qed.

Example test_bool_string :
  run PBool [x00] = Ok (VBoolean false)
  /\ run PBool [x01] = Ok (VBoolean true)
  /\ run (PString (Num 6) latin1) [x62; x69; x6e; x70; x61; x74] = Ok (VString "binpat")
  /\ run test_string [x03; x62; x69; x6e; x70; x61; x74]
     = Ok (VObject [("size", VNumber 3); ("text", VString "bin")]).
Proof. repeat split; reflexivity. Qed.

Example test_arrays :
  run (array (u8 None) (Num 4)) [x00; x01; x02; x03]
  = Ok (VTypedArray Uint8Array [VNumber 0; VNumber 1; VNumber 2; VNumber 3])
  /\ run test_array [x00; x01; x00; x00; x02; x01]
     = Ok (VArray [VObject [("id", VNumber 1); ("enabled", VBoolean false)];
                   VObject [("id", VNumber 2); ("enabled", VBoolean true)]])
  /\ run counted_items [x04; x00; x01; x02; x03; x04]
     = Ok (VObject
             [("count", VNumber 4);
              ("items",
               VTypedArray Uint8Array [VNumber 0; VNumber 1; VNumber 2; VNumber 3])]).
Proof. repeat split; reflexivity. Qed.

Example test_ternary_convert :
  run test_ternary [x00; xff]
  = Ok (VObject [("flag", VBoolean false); ("value", VNumber (-1))])
  /\ run test_ternary [x01; xff]
     = Ok (VObject [("flag", VBoolean true); ("value", VNumber 255)])
  /\ run test_convert [x01] = Ok (VObject [("type", VString "ico")])
  /\ run test_convert [x02] = Ok (VObject [("type", VString "cur")]).
Proof. repeat split; reflexivity. Qed.

Example test_seek_skip_peek (rnd : string) :
  run (PObject [(omit rnd, seek (Num 4)); ("data", u8 None)]) [x00; x00; x00; x00; x01]
  = Ok (VObject [("data", VNumber 1)])
  /\ run (test_seek rnd) [x04; x00; x00; x00; x01]
     = Ok (VObject [("dataStart", VNumber 4); ("data", VNumber 1)])
  /\ run (PObject [(omit rnd, skip 4); ("data", u8 None)]) [x00; x00; x00; x00; x01]
     = Ok (VObject [("data", VNumber 1)])
  /\ run (PObject [("foo", u8 None); ("baz", peek (Num 2) (u8 None)); ("bar", u8 None)])
       [x01; x02; x03]
     = Ok (VObject [("foo", VNumber 1); ("baz", VNumber 3); ("bar", VNumber 2)])
  /\ run test_peek [x01; x04; x02; x05; x01; x02]
     = Ok (VArray
             [VObject [("id", VNumber 1); ("offset", VNumber 4); ("data", VNumber 1)];
              VObject [("id", VNumber 2); ("offset", VNumber 5); ("data", VNumber 2)]]).
Proof. repeat split; reflexivity. Qed.

(** A [peek] of a Structure: the Structure writes its final offset into
    the context of the [peek], which then restores the saved one. *)
Example test_peek_structure :
  run (PObject [("foo", u8 None);
                ("baz", peek (Num 2) (PObject [("x", u8 None)]));
                ("bar", u8 None)])
    [x01; x02; x03]
  = Ok (VObject [("foo", VNumber 1); ("baz", VObject [("x", VNumber 3)]);
                 ("bar", VNumber 2)]).
Proof. reflexivity. Qed.

Example test_omit_spread (rnd : string) :
  run (PObject [("foo", u8 None); (omit rnd, u8 None); ("baz", u8 None)])
    [x01; x02; x03]
  = Ok (VObject [("foo", VNumber 1); ("baz", VNumber 3)])
  /\ run (test_spread rnd) [x01; x01]
     = Ok (VObject [("flag", VBoolean true); ("truthy", VNumber 1)])
  /\ run (test_spread rnd) [x00; x01]
     = Ok (VObject [("flag", VBoolean false); ("falsy", VNumber 1)]).
Proof. repeat split; reflexivity. Qed.

Example test_data_structure_result :
  run test_data_structure [x01; x01; x03; x01; x02; x03]
  = Ok (VObject
          [("rawNumber", VNumber 123);
           ("rawArray", VArray [VNumber 1; VNumber 1]);
           ("count", VNumber 3);
           ("rawObject",
            VObject
              [("items", VTypedArray Uint8Array [VNumber 1; VNumber 2; VNumber 3])])]).
Proof. reflexivity. Qed.

(** ** Further properties of the interpreter *)

(** X1. No pattern writes the endianness, the parent link or the data of
    the context it runs on: when [exec] returns, only the offset of that
    context can have changed. *)
Theorem exec_changes_offset_only (dv : list byte) (p : BinpatPattern)
    (ctx : BinpatContext) (v : value) (ctx' : BinpatContext) :
  exec dv p ctx = Ok (v, ctx') ->
  endian ctx' = endian ctx /\ parent ctx' = parent ctx /\ data ctx' = data ctx.
Proof.
  intros H. apply exec_frame in H. rewrite H. repeat split.
Qed.

Lemma exec_changes_offset_only_witness :
  exec [x00; x02; x14; x1e] counted_items counted_context
  = Ok (VObject
          [("count", VNumber 2);
           ("items", VTypedArray Uint8Array [VNumber 20; VNumber 30])],
        set_offset counted_context 4)
  /\ data (set_offset counted_context 4) = data counted_context.
Proof.
  assert (H : exec [x00; x02; x14; x1e] counted_items counted_context
              = Ok (VObject
                      [("count", VNumber 2);
                       ("items", VTypedArray Uint8Array [VNumber 20; VNumber 30])],
                    set_offset counted_context 4)).
  { vm_compute. reflexivity. }
  split; [exact H|].
  exact (proj2 (proj2 (exec_changes_offset_only _ _ _ _ _ H))).
Defined.

Lemma exec_times_fixed (dv : list byte) (pat : BinpatPattern) (w : Z) :
  (forall ctx v ctx', exec dv pat ctx = Ok (v, ctx') -> offset ctx' = offset ctx + w) ->
  forall n ctx vs ctx',
    exec_times dv pat n ctx = Ok (vs, ctx') ->
    offset ctx' = offset ctx + Z.of_nat n * w.
Proof.
  intros Hp. induction n as [|n IH]; intros ctx vs ctx' H.
  - injection H as _ <-. lia.
  - cbn [exec_times] in H. bind_ok H v1 c1 E1. bind_ok H vs2 c2 E2.
    injection H as _ <-. apply Hp in E1. apply IH in E2. lia.
Qed.

Lemma exec_fixed_width (dv : list byte) (p : BinpatPattern) (w : Z)
    (ctx : BinpatContext) (v : value) (ctx' : BinpatContext) :
  fixed_width p = Some w ->
  exec dv p ctx = Ok (v, ctx') ->
  offset ctx' = offset ctx + w.
Proof.
  revert w ctx v ctx'.
  induction p as
    [c le| |size encoding|pat size IHp|field option
    |condition truthy falsy IHt IHf|condition truthy IHt|pat fn IHp
    |o|o pat IHp|o|pats IHps|entries IHes|l] using pattern_induction;
    intros w ctx v ctx' Hw H.
  - injection Hw as <-. cbn [exec] in H. unfold createTypedHandler in H.
    destruct (DataView.GetViewValue _ _ _ _); cbn [bind] in H; [|discriminate H].
    injection H as _ <-. reflexivity.
  - injection Hw as <-. cbn [exec] in H. unfold bool_handler in H.
    destruct (DataView.GetViewValue _ _ _ _); cbn [bind] in H; [|discriminate H].
    injection H as _ <-. reflexivity.
  - destruct size as [n|f]; [|discriminate Hw]. injection Hw as <-.
    cbn [exec] in H. unfold string_handler in H. injection H as _ <-. reflexivity.
  - destruct size as [n|f]; [|discriminate Hw]. cbn [fixed_width] in Hw.
    destruct (fixed_width pat) as [wp|] eqn:Ep; [|discriminate Hw].
    injection Hw as <-.
    rewrite exec_array in H. cbv zeta in H.
    destruct (Array_from _ _); [discriminate H|].
    bind_ok H vs c1 E. injection H as _ <-.
    apply (exec_times_fixed dv pat wp) in E.
    + rewrite E. cbn [resolve]. unfold JS.ToLength. rewrite Z2Nat.id by lia. reflexivity.
    + intros c0 v0 c0' H0. eapply IHp; [reflexivity | exact H0].
  - injection Hw as <-. cbn [exec] in H. unfold Bitfield.handler in H.
    injection H as _ <-. reflexivity.
  - cbn [fixed_width] in Hw.
    destruct (fixed_width truthy) as [a|]; [|discriminate Hw].
    destruct (fixed_width falsy) as [b|]; [|discriminate Hw].
    destruct (Z.eqb_spec a b) as [->|]; [|discriminate Hw]. injection Hw as <-.
    cbn [exec] in H. destruct (condition ctx); [eapply IHt | eapply IHf]; eauto.
  - cbn [fixed_width] in Hw.
    destruct (fixed_width truthy) as [a|]; [|discriminate Hw].
    destruct (Z.eqb_spec a 0) as [->|]; [|discriminate Hw]. injection Hw as <-.
    cbn [exec] in H. destruct (condition ctx).
    + eapply IHt; eauto.
    + injection H as _ <-. lia.
  - cbn [fixed_width] in Hw. cbn [exec] in H. bind_ok H v1 c1 E.
    injection H as _ <-. eapply IHp; eauto.
  - discriminate Hw.
  - injection Hw as <-. rewrite exec_peek in H.
    destruct (exec dv pat _) as [[v1 c1]|e]; [|discriminate H].
    injection H as _ <-. lia.
  - injection Hw as <-. cbn [exec] in H. unfold skip_handler in H.
    injection H as _ <-. reflexivity.
  - cbn [fixed_width] in Hw. rewrite exec_plist in H. bind_ok H vs c1 E.
    injection H as _ <-.
    revert w ctx vs c1 E Hw.
    induction IHps as [|pat pats Hp _ IH]; intros w ctx vs ctx' E Hw.
    + injection E as _ <-. injection Hw as <-. lia.
    + cbn [exec_list] in E. bind_ok E v1 c1 E1. bind_ok E vs2 c2 E2.
      injection E as _ <-. cbn [map sum_widths fold_right] in Hw.
      fold (sum_widths (map fixed_width pats)) in Hw.
      destruct (fixed_width pat) as [a|] eqn:Ea; [|discriminate Hw].
      destruct (sum_widths (map fixed_width pats)) as [b|] eqn:Eb; [|discriminate Hw].
      injection Hw as <-.
      rewrite (IH b c1 vs2 c2 E2 eq_refl). rewrite (Hp a ctx v1 c1 eq_refl E1). lia.
  - cbn [fixed_width] in Hw. rewrite exec_object in H.
    destruct (exec_entries dv entries (child_context ctx)) as [c1|e] eqn:E;
      cbn [bind] in H; [|discriminate H].
    injection H as _ <-. cbn [offset set_offset].
    change (offset ctx) with (offset (child_context ctx)).
    revert w E Hw. generalize (child_context ctx) as c0.
    induction IHes as [|[key pat] kvs Hp _ IH]; intros c0 w E Hw.
    + injection E as <-. injection Hw as <-. lia.
    + cbn [exec_entries] in E. bind_ok E r c2 E1.
      cbn [map sum_widths fold_right snd] in Hw.
      fold (sum_widths (map (fun kv => fixed_width (snd kv)) kvs)) in Hw.
      cbn [snd] in Hp.
      destruct (fixed_width pat) as [a|] eqn:Ea; [|discriminate Hw].
      destruct (sum_widths (map (fun kv => fixed_width (snd kv)) kvs)) as [b|] eqn:Eb;
        [|discriminate Hw].
      injection Hw as <-.
      rewrite (IH _ b E eq_refl), offset_store, (Hp a c0 r c2 eq_refl E1). lia.
  - injection Hw as <-. cbn [exec] in H. injection H as _ <-. lia.
Qed.

(** X2. When the pattern alone tells its width (primitives, booleans,
    strings, skips and arrays of a literal size, bitfields, peeks,
    literals, and the sequences, structures, conversions and agreeing
    conditionals made of them), every run that returns has moved the
    offset by exactly that width, whatever the bytes are. *)
Theorem fixed_width_advance (dv : list byte) (p : BinpatPattern) (w : Z)
    (ctx : BinpatContext) (v : value) (ctx' : BinpatContext) :
  fixed_width p = Some w ->
  exec dv p ctx = Ok (v, ctx') ->
  offset ctx' = offset ctx + w.
Proof. apply exec_fixed_width. Qed.

Lemma fixed_width_advance_witness :
  fixed_width (PObject flag_entries) = Some 4
  /\ exec [x01; x09; x07; x05] (PObject flag_entries) (root_context big)
     = Ok (VObject [("flag", VBoolean true); ("truthy", VNumber 7); ("tail", VNumber 5)],
           set_offset (root_context big) 4)
  /\ offset (set_offset (root_context big) 4) = offset (root_context big) + 4.
Proof.
  assert (Hw : fixed_width (PObject flag_entries) = Some 4) by reflexivity.
  assert (He : exec [x01; x09; x07; x05] (PObject flag_entries) (root_context big)
               = Ok (VObject [("flag", VBoolean true); ("truthy", VNumber 7);
                              ("tail", VNumber 5)],
                     set_offset (root_context big) 4)) by reflexivity.
  split; [exact Hw|]. split; [exact He|].
  exact (fixed_width_advance _ _ _ _ _ _ Hw He).
Defined.

(** ** Further properties of the primitives *)

Lemma le_value_bound (bs : list byte) :
  0 <= DataView.le_value bs < 256 ^ Z.of_nat (List.length bs).
Proof.
  induction bs as [|b bs IH].
  - cbn. lia.
  - cbn [DataView.le_value List.length]. rewrite Nat2Z.inj_succ, Z.pow_succ_r by lia.
    assert (0 <= byte_val b < 256).
    { unfold byte_val. pose proof (Byte.to_N_bounded b). lia. }
    lia.
Qed.

Lemma length_span (dv : list byte) (o w : Z) :
  0 <= w -> in_range dv o w -> List.length (span dv o w) = Z.to_nat w.
Proof.
  intros Hw [Ho Hl]. unfold span. rewrite length_firstn, length_skipn. lia.
Qed.

Lemma exec_typed (dv : list byte) (c : TypedArrayConstructor) (le : option bool)
    (ctx : BinpatContext) :
  exec dv (PTyped c le) ctx
  = match DataView.GetViewValue dv (offset ctx) (byte_order le ctx) c with
    | Ok v => Ok (v, set_offset ctx (offset ctx + DataView.BYTES_PER_ELEMENT c))
    | Throw e => Throw e
    end.
Proof. reflexivity. Qed.

Lemma rev_short {A : Type} (l : list A) : (List.length l <= 1)%nat -> rev l = l.
Proof.
  destruct l as [|a [|b l]]; cbn; intros H; try reflexivity. lia.
Qed.

(** X4. The byte order does not matter to a primitive of one byte: [u8]
    and [i8] return the same result with any override, [true], [false]
    or none, and hence under either endianness of the context. *)
Theorem one_byte_ignores_byte_order (dv : list byte) (c : TypedArrayConstructor)
    (le le' : option bool) (ctx : BinpatContext) :
  DataView.BYTES_PER_ELEMENT c = 1 ->
  exec dv (PTyped c le) ctx = exec dv (PTyped c le') ctx.
Proof.
  intros Hw. rewrite !exec_typed.
  generalize (byte_order le ctx) as b. generalize (byte_order le' ctx) as b'.
  intros b' b. unfold DataView.GetViewValue. rewrite Hw.
  destruct (offset ctx <? 0); [reflexivity|].
  destruct (Z.of_nat (List.length dv) <? offset ctx + 1); [reflexivity|].
  assert (Hr : rev (firstn (Z.to_nat 1) (skipn (Z.to_nat (offset ctx)) dv))
               = firstn (Z.to_nat 1) (skipn (Z.to_nat (offset ctx)) dv)).
  { apply rev_short. rewrite length_firstn. lia. }
  rewrite Hr. destruct b, b'; reflexivity.
Qed.

Lemma one_byte_ignores_byte_order_witness :
  DataView.BYTES_PER_ELEMENT Int8Array = 1
  /\ exec [xff] (i8 (Some true)) (root_context big)
     = exec [xff] (i8 None) (root_context big).
Proof.
  assert (Hw : DataView.BYTES_PER_ELEMENT Int8Array = 1) by reflexivity.
  split; [exact Hw|].
  exact (one_byte_ignores_byte_order [xff] Int8Array (Some true) None
           (root_context big) Hw).
Defined.

Lemma to_signed_range (bits n : Z) :
  0 < bits -> 0 <= n < 2 ^ bits ->
  - 2 ^ (bits - 1) <= DataView.to_signed bits n < 2 ^ (bits - 1).
Proof.
  intros Hb Hn. unfold DataView.to_signed.
  assert (H2 : 2 ^ bits = 2 * 2 ^ (bits - 1)).
  { replace bits with (Z.succ (bits - 1)) at 1 by lia. apply Z.pow_succ_r. lia. }
  destruct (Z.leb_spec (2 ^ (bits - 1)) n); lia.
Qed.

Lemma exec_typed_range (dv : list byte) (c : TypedArrayConstructor)
    (le : option bool) (ctx : BinpatContext) (v : value) (ctx' : BinpatContext) :
  exec dv (PTyped c le) ctx = Ok (v, ctx') -> element_range c v.
Proof.
  rewrite exec_typed. unfold DataView.GetViewValue.
  destruct (Z.ltb_spec (offset ctx) 0) as [|Ho]; [discriminate|].
  destruct (Z.ltb_spec (Z.of_nat (List.length dv))
              (offset ctx + DataView.BYTES_PER_ELEMENT c)) as [|Hl]; [discriminate|].
  intros H. injection H as <- _.
  unfold DataView.RawBytesToNumeric.
  set (bs := if byte_order le ctx then _ else _).
  assert (Hlen : Z.of_nat (List.length bs) = DataView.BYTES_PER_ELEMENT c).
  { pose proof (BYTES_PER_ELEMENT_pos c).
    subst bs. destruct (byte_order le ctx); rewrite ?length_rev;
      rewrite length_firstn, length_skipn; lia. }
  pose proof (le_value_bound bs) as Hb. rewrite Hlen in Hb.
  assert (H256 : 256 ^ DataView.BYTES_PER_ELEMENT c
                 = 2 ^ (8 * DataView.BYTES_PER_ELEMENT c)).
  { destruct c; reflexivity. }
  rewrite H256 in Hb.
  pose proof (BYTES_PER_ELEMENT_pos c) as Hpos.
  unfold element_range.
  destruct c; cbn [DataView.numeric]; try exact I; try exact Hb;
    apply to_signed_range; try exact Hb; cbn; lia.
Qed.

(** X5. An integer primitive returns an integer of its type: between 0
    and 2^(8w) - 1 for the unsigned types of [w] bytes, between -2^(8w-1)
    and 2^(8w-1) - 1 for the signed ones, a bigint for the 64-bit types
    and a number for the others; a float primitive returns a float. *)
Theorem typed_value_in_type (dv : list byte) (c : TypedArrayConstructor)
    (le : option bool) (ctx : BinpatContext) (v : value) (ctx' : BinpatContext) :
  exec dv (PTyped c le) ctx = Ok (v, ctx') -> element_range c v.
Proof. apply exec_typed_range. Qed.

Lemma typed_value_in_type_witness :
  exec [x00; xff] (i16 (Some true)) (root_context big)
  = Ok (VNumber (-256), set_offset (root_context big) 2)
  /\ element_range Int16Array (VNumber (-256)).
Proof.
  assert (H : exec [x00; xff] (i16 (Some true)) (root_context big)
              = Ok (VNumber (-256), set_offset (root_context big) 2)) by reflexivity.
  split; [exact H|].
  exact (typed_value_in_type _ _ _ _ _ _ H).
Defined.

Lemma exec_times_typed (dv : list byte) (c : TypedArrayConstructor) (le : option bool)
    (n : nat) :
  forall ctx,
    in_range dv (offset ctx) (Z.of_nat n * DataView.BYTES_PER_ELEMENT c) ->
    exec_times dv (PTyped c le) n ctx
    = Ok (elements c (byte_order le ctx) dv (offset ctx) n,
          set_offset ctx (offset ctx + Z.of_nat n * DataView.BYTES_PER_ELEMENT c)).
Proof.
  pose proof (BYTES_PER_ELEMENT_pos c) as Hpos.
  induction n as [|n IH]; intros ctx [Ho Hl].
  - cbn [exec_times]. unfold elements. cbn [seq map]. rewrite Z.add_0_r, set_offset_id.
    reflexivity.
  - cbn [exec_times]. rewrite exec_typed, GetViewValue_in_range by (unfold in_range; nia).
    cbn [bind].
    rewrite IH by (unfold in_range; cbn [offset set_offset]; nia).
    cbn [bind offset set_offset]. f_equal. f_equal.
    + unfold elements. cbn [seq map]. f_equal.
      * f_equal. lia.
      * rewrite <- seq_shift, map_map. apply map_ext. intros i.
        unfold byte_order. cbn [endian set_offset]. f_equal. lia.
    + unfold set_offset. cbn [endian parent data]. f_equal. lia.
Qed.

(** X6. An array of [n] fixed-width primitives that are numbers (every
    primitive but [u64] and [i64], whose arrays cannot be built) and whose
    bytes lie inside the buffer is the typed array of the [n] consecutive
    elements stored from the offset, each read in the byte order of the
    primitive, and the offset moves by [n] times the width. *)
Theorem typed_array_elements (dv : list byte) (c : TypedArrayConstructor)
    (le : option bool) (n : nat) (ctx : BinpatContext) :
  is_bigint c = false ->
  in_range dv (offset ctx) (Z.of_nat n * DataView.BYTES_PER_ELEMENT c) ->
  exec dv (array (PTyped c le) (Num (Z.of_nat n))) ctx
  = Ok (VTypedArray c (elements c (byte_order le ctx) dv (offset ctx) n),
        set_offset ctx (offset ctx + Z.of_nat n * DataView.BYTES_PER_ELEMENT c)).
Proof.
  intros Hc H. unfold array. rewrite exec_array. cbv zeta.
  cbn [Array_from resolve]. rewrite Hc. cbn [andb]. unfold JS.ToLength.
  replace (Z.to_nat (Z.max 0 (Z.of_nat n))) with n by lia.
  rewrite (exec_times_typed dv c le n ctx H). reflexivity.
Qed.

Lemma typed_array_elements_witness :
  is_bigint Uint16Array = false
  /\ in_range [x00; x01; x00; x02; x03] (offset (root_context big))
       (Z.of_nat 2 * DataView.BYTES_PER_ELEMENT Uint16Array)
  /\ exec [x00; x01; x00; x02; x03] (array (u16 None) (Num (Z.of_nat 2)))
       (root_context big)
     = Ok (VTypedArray Uint16Array
             (elements Uint16Array false [x00; x01; x00; x02; x03] 0 2),
           set_offset (root_context big) 4)
  /\ elements Uint16Array false [x00; x01; x00; x02; x03] 0 2 = [VNumber 1; VNumber 2].
Proof.
  assert (H : in_range [x00; x01; x00; x02; x03] (offset (root_context big))
                (Z.of_nat 2 * DataView.BYTES_PER_ELEMENT Uint16Array)).
  { unfold in_range. simpl. lia. }
  assert (Hc : is_bigint Uint16Array = false) by reflexivity.
  split; [exact Hc|]. split; [exact H|]. split; [|reflexivity].
  exact (typed_array_elements _ Uint16Array None 2 (root_context big) Hc H).
Defined.

Lemma byte_val_zero (b : byte) : byte_val b = 0 <-> b = x00.
Proof.
  split; [|intros ->; reflexivity].
  intros H. unfold byte_val in H.
  assert (Hn : Byte.to_N b = 0%N) by lia.
  pose proof (Byte.of_to_N b) as Hb. rewrite Hn in Hb. cbn in Hb. congruence.
Qed.

Lemma nth_error_skipn_head {A : Type} (n : nat) (l : list A) :
  nth_error l n = hd_error (skipn n l).
Proof.
  revert l. induction n as [|n IH]; intros [|a l]; cbn; try reflexivity. apply IH.
Qed.

(** X7. [bool()] reads one byte: it returns [false] exactly when the byte
    at the offset is zero, [true] for every other byte, and moves the
    offset by one. *)
Theorem bool_false_iff_zero_byte (dv : list byte) (ctx : BinpatContext)
    (v : value) (ctx' : BinpatContext) :
  exec dv PBool ctx = Ok (v, ctx') ->
  offset ctx' = offset ctx + 1
  /\ exists b,
       v = VBoolean b
       /\ (b = false <-> nth_error dv (Z.to_nat (offset ctx)) = Some x00).
Proof.
  cbn [exec]. unfold bool_handler, DataView.GetViewValue.
  destruct (Z.ltb_spec (offset ctx) 0) as [|Ho]; [discriminate|].
  cbn [DataView.BYTES_PER_ELEMENT].
  destruct (Z.ltb_spec (Z.of_nat (List.length dv)) (offset ctx + 1)) as [|Hl];
    [discriminate|].
  cbn [bind]. rewrite nth_error_skipn_head.
  destruct (skipn (Z.to_nat (offset ctx)) dv) as [|x rest] eqn:Es.
  - exfalso. assert (Hlen : List.length (skipn (Z.to_nat (offset ctx)) dv) = 0%nat)
      by (rewrite Es; reflexivity).
    rewrite length_skipn in Hlen. lia.
  - cbn. intros H. injection H as <- <-. split; [reflexivity|].
    eexists. split; [reflexivity|].
    rewrite Z.add_0_r. rewrite negb_false_iff, Z.eqb_eq, byte_val_zero.
    split; [intros ->; reflexivity | intros H; injection H as ->; reflexivity].
Qed.

Lemma bool_false_iff_zero_byte_witness :
  exec [x07; x00] PBool (set_offset (root_context big) 1)
  = Ok (VBoolean false, set_offset (root_context big) 2)
  /\ offset (set_offset (root_context big) 2)
     = offset (set_offset (root_context big) 1) + 1.
Proof.
  assert (H : exec [x07; x00] PBool (set_offset (root_context big) 1)
              = Ok (VBoolean false, set_offset (root_context big) 2)) by reflexivity.
  split; [exact H|].
  exact (proj1 (bool_false_iff_zero_byte _ _ _ _ H)).
Defined.

(** ** Further properties of the combinators *)

Lemma exec_list_repeat (dv : list byte) (pat : BinpatPattern) (n : nat) :
  forall ctx, exec_list dv (repeat pat n) ctx = exec_times dv pat n ctx.
Proof.
  induction n as [|n IH]; intros ctx; [reflexivity|].
  cbn [repeat exec_list exec_times].
  destruct (exec dv pat ctx) as [[v c1]|e]; cbn [bind]; [|reflexivity].
  rewrite IH. reflexivity.
Qed.

(** X8. An array of a pattern that is not a primitive decodes as the
    sequence of that many copies of the pattern: [array(p, n)] and
    [[p, ..., p]] return the same values and leave the same context, for
    a size up to the largest length of an [Array]. *)
Theorem array_is_repeated_sequence (dv : list byte) (pat : BinpatPattern)
    (n : Z) (ctx : BinpatContext) :
  is_typed pat = false ->
  n <= max_array_length ->
  exec dv (array pat (Num n)) ctx = exec dv (PList (repeat pat (Z.to_nat n))) ctx.
Proof.
  intros Ht Hn. unfold array. rewrite exec_array, exec_plist, exec_list_repeat.
  cbv zeta. cbn [resolve]. unfold JS.ToLength.
  rewrite (Array_from_plain pat (Z.max 0 n) Ht)
    by (unfold max_array_length in *; lia).
  replace (Z.to_nat (Z.max 0 n)) with (Z.to_nat n) by lia.
  destruct (exec_times dv pat (Z.to_nat n) ctx) as [[vs c1]|e]; [|reflexivity].
  cbn [bind]. destruct pat; try reflexivity; discriminate Ht.
Qed.

Lemma array_is_repeated_sequence_witness :
  is_typed PBool = false
  /\ 2 <= max_array_length
  /\ exec [x00; x01] (array PBool (Num 2)) (root_context big)
     = exec [x00; x01] (PList [PBool; PBool]) (root_context big).
Proof.
  assert (Ht : is_typed PBool = false) by reflexivity.
  assert (Hn : 2 <= max_array_length) by (vm_compute; discriminate).
  split; [exact Ht|]. split; [exact Hn|].
  exact (array_is_repeated_sequence [x00; x01] PBool 2 (root_context big) Ht Hn).
Defined.

(** X9. An array whose size is zero or negative is empty: it reads
    nothing, runs its pattern not once, and leaves the context as it is,
    even when the offset is outside the buffer. *)
Theorem array_of_no_element (dv : list byte) (pat : BinpatPattern)
    (size : NumberOrFn) (ctx : BinpatContext) :
  resolve size ctx <= 0 ->
  exec dv (array pat size) ctx = Ok (array_of pat [], ctx).
Proof.
  intros Hs. unfold array. rewrite exec_array. cbv zeta. unfold JS.ToLength.
  replace (Z.max 0 (resolve size ctx)) with 0 by lia.
  rewrite Array_from_empty. reflexivity.
Qed.

Lemma array_of_no_element_witness :
  resolve (Num (-3)) (set_offset (root_context big) 9) <= 0
  /\ exec [x01] (array (u32 None) (Num (-3))) (set_offset (root_context big) 9)
     = Ok (VTypedArray Uint32Array [], set_offset (root_context big) 9).
Proof.
  assert (H : resolve (Num (-3)) (set_offset (root_context big) 9) <= 0)
    by (vm_compute; discriminate).
  split; [exact H|].
  exact (array_of_no_element [x01] (u32 None) (Num (-3))
           (set_offset (root_context big) 9) H).
Defined.

Lemma checked_list (dv : list byte) (pats : list BinpatPattern) :
  Forall
    (fun p =>
       checked p = true ->
       forall ctx v ctx',
         offset ctx <= Z.of_nat (List.length dv) ->
         exec dv p ctx = Ok (v, ctx') -> offset ctx' <= Z.of_nat (List.length dv))
    pats ->
  forallb checked pats = true ->
  forall ctx vs ctx',
    offset ctx <= Z.of_nat (List.length dv) ->
    exec_list dv pats ctx = Ok (vs, ctx') -> offset ctx' <= Z.of_nat (List.length dv).
Proof.
  intros Hall. induction Hall as [|pat pats Hp _ IH]; intros Hc ctx vs ctx' Ho E.
  - injection E as _ <-. exact Ho.
  - cbn [forallb] in Hc. apply andb_true_iff in Hc. destruct Hc as [Hc1 Hc2].
    cbn [exec_list] in E. bind_ok E v1 c1 E1. bind_ok E vs2 c2 E2.
    injection E as _ <-. eapply IH; [exact Hc2 | | exact E2].
    eapply Hp; eassumption.
Qed.

Lemma exec_checked (dv : list byte) (p : BinpatPattern) :
  checked p = true ->
  forall ctx v ctx',
    offset ctx <= Z.of_nat (List.length dv) ->
    exec dv p ctx = Ok (v, ctx') -> offset ctx' <= Z.of_nat (List.length dv).
Proof.
  induction p as
    [c le| |size encoding|pat size IHp|field option
    |condition truthy falsy IHt IHf|condition truthy IHt|pat fn IHp
    |o|o pat IHp|o|pats IHps|entries IHes|l] using pattern_induction;
    intros Hc ctx v ctx' Ho H; try discriminate Hc.
  - rewrite exec_typed in H. unfold DataView.GetViewValue in H.
    destruct (offset ctx <? 0); [discriminate H|].
    destruct (Z.ltb_spec (Z.of_nat (List.length dv))
                (offset ctx + DataView.BYTES_PER_ELEMENT c)) as [|Hl]; [discriminate H|].
    injection H as _ <-. exact Hl.
  - cbn [exec] in H. unfold bool_handler, DataView.GetViewValue in H.
    destruct (offset ctx <? 0); [discriminate H|].
    cbn [DataView.BYTES_PER_ELEMENT] in H.
    destruct (Z.ltb_spec (Z.of_nat (List.length dv)) (offset ctx + 1)) as [|Hl];
      [discriminate H|].
    cbn [bind] in H. injection H as _ <-. exact Hl.
  - cbn [checked] in Hc. rewrite exec_array in H. cbv zeta in H.
    destruct (Array_from _ _); [discriminate H|].
    bind_ok H vs c1 E. injection H as _ <-.
    remember (Z.to_nat (JS.ToLength (resolve size ctx))) as n eqn:Hn. clear Hn.
    revert ctx vs c1 Ho E.
    induction n as [|n IHn]; intros ctx vs ctx' Ho E.
    + injection E as _ <-. exact Ho.
    + cbn [exec_times] in E. bind_ok E v1 c1 E1. bind_ok E vs2 c2 E2.
      injection E as _ <-. eapply IHn; [|exact E2]. eapply IHp; eassumption.
  - cbn [checked] in Hc. apply andb_true_iff in Hc. destruct Hc as [Hc1 Hc2].
    cbn [exec] in H. destruct (condition ctx); eauto.
  - cbn [checked] in Hc. apply andb_true_iff in Hc. destruct Hc as [Hc1 _].
    cbn [exec] in H. destruct (condition ctx); eauto.
    injection H as _ <-. exact Ho.
  - cbn [checked] in Hc. cbn [exec] in H. bind_ok H v1 c1 E.
    injection H as _ <-. eauto.
  - rewrite exec_peek in H.
    destruct (exec dv pat _) as [[v1 c1]|e]; [|discriminate H].
    injection H as _ <-. exact Ho.
  - cbn [checked] in Hc. rewrite exec_plist in H. bind_ok H vs c1 E.
    injection H as _ <-. eapply checked_list; eassumption.
  - cbn [checked] in Hc. rewrite exec_object in H.
    destruct (exec_entries dv entries (child_context ctx)) as [c1|e] eqn:E;
      cbn [bind] in H; [|discriminate H].
    injection H as _ <-. cbn [offset set_offset].
    change (offset ctx) with (offset (child_context ctx)) in Ho.
    revert Ho E Hc. generalize (child_context ctx) as c0.
    induction IHes as [|[key pat] kvs Hp _ IH]; intros c0 Ho E Hc.
    + injection E as <-. exact Ho.
    + cbn [forallb snd] in Hc. apply andb_true_iff in Hc. destruct Hc as [Hc1 Hc2].
      cbn [exec_entries] in E. bind_ok E r c2 E1. cbn [snd] in Hp.
      eapply IH; [|exact E|exact Hc2].
      rewrite offset_store. eapply Hp; eassumption.
  - cbn [exec] in H. injection H as _ <-. exact Ho.
Qed.

(** X10. A pattern without [string], [bitfield], [seek] or [skip]
    (outside a [peek]) takes every byte through the bounds-checked
    getters: started inside the buffer, a decode that returns has its
    offset at or before the end of the buffer, so it has consumed only
    bytes that exist. *)
Theorem checked_pattern_stays_in_buffer (dv : list byte) (p : BinpatPattern)
    (ctx : BinpatContext) (v : value) (ctx' : BinpatContext) :
  checked p = true ->
  offset ctx <= Z.of_nat (List.length dv) ->
  exec dv p ctx = Ok (v, ctx') ->
  offset ctx' <= Z.of_nat (List.length dv).
Proof. intros Hc Ho H. eapply exec_checked; eassumption. Qed.

Lemma checked_pattern_stays_in_buffer_witness :
  checked test_data_structure = true
  /\ offset (root_context big) <= Z.of_nat (List.length [x01; x01; x02; x01; x02])
  /\ exec [x01; x01; x02; x01; x02] test_data_structure (root_context big)
     = Ok (VObject
             [("rawNumber", VNumber 123);
              ("rawArray", VArray [VNumber 1; VNumber 1]);
              ("count", VNumber 2);
              ("rawObject",
               VObject [("items", VTypedArray Uint8Array [VNumber 1; VNumber 2])])],
           set_offset (root_context big) 5)
  /\ offset (set_offset (root_context big) 5)
     <= Z.of_nat (List.length [x01; x01; x02; x01; x02]).
Proof.
  assert (Hc : checked test_data_structure = true) by reflexivity.
  assert (Ho : offset (root_context big)
               <= Z.of_nat (List.length [x01; x01; x02; x01; x02]))
    by (vm_compute; discriminate).
  assert (He : exec [x01; x01; x02; x01; x02] test_data_structure (root_context big)
               = Ok (VObject
                       [("rawNumber", VNumber 123);
                        ("rawArray", VArray [VNumber 1; VNumber 1]);
                        ("count", VNumber 2);
                        ("rawObject",
                         VObject
                           [("items", VTypedArray Uint8Array [VNumber 1; VNumber 2])])],
                     set_offset (root_context big) 5)) by reflexivity.
  split; [exact Hc|]. split; [exact Ho|]. split; [exact He|].
  exact (checked_pattern_stays_in_buffer _ _ _ _ _ Hc Ho He).
Defined.

(** X11. [skip(n)] is [seek((ctx) => ctx.offset + n)], and two skips in a
    row are one skip by the sum: as omitted entries of a Structure they
    leave the same context to the entries that follow. *)
Theorem skip_is_relative_seek (dv : list byte) (n m : Z) (rnd1 rnd2 rnd3 : string)
    (kvs : list (string * BinpatPattern)) (ctx : BinpatContext) :
  exec dv (skip n) ctx = exec dv (seek (Fn (fun c => offset c + n))) ctx
  /\ exec_entries dv ((omit rnd1, skip n) :: (omit rnd2, skip m) :: kvs) ctx
     = exec_entries dv ((omit rnd3, skip (n + m)) :: kvs) ctx.
Proof.
  split; [reflexivity|].
  cbn [exec_entries exec skip]. unfold skip_handler. cbn [bind].
  unfold store. rewrite !startsWith_omit.
  assert (Hs : forall r, JS.startsWith (omit r) "..." = false) by reflexivity.
  rewrite !Hs. f_equal. unfold set_offset. cbn. f_equal. lia.
Qed.

(** ** Further properties of Structures *)

Lemma get_missing (k : string) (o : jsobj) : Obj.has k o = false -> Obj.get k o = VUndefined.
Proof.
  induction o as [|[k1 v1] o IH]; [reflexivity|].
  cbn [Obj.has Obj.get]. destruct (String.eqb k k1); [discriminate|]. exact IH.
Qed.

Lemma has_app (k : string) (a b : jsobj) :
  Obj.has k (a ++ b) = Obj.has k a || Obj.has k b.
Proof.
  induction a as [|[k1 v1] a IH]; [reflexivity|].
  cbn [app Obj.has]. rewrite IH, orb_assoc. reflexivity.
Qed.

Lemma get_app (k : string) (a b : jsobj) :
  Obj.get k (a ++ b) = if Obj.has k a then Obj.get k a else Obj.get k b.
Proof.
  induction a as [|[k1 v1] a IH]; [reflexivity|].
  cbn [app Obj.has Obj.get]. destruct (String.eqb k k1); [reflexivity|]. exact IH.
Qed.

Lemma has_rev (k : string) (l : jsobj) : Obj.has k (rev l) = Obj.has k l.
Proof.
  induction l as [|[k1 v1] l IH]; [reflexivity|].
  cbn [rev]. rewrite has_app, IH. cbn [Obj.has]. rewrite orb_false_r. apply orb_comm.
Qed.

Lemma has_replace (k k' : string) (v : value) (o : jsobj) :
  Obj.has k' (Obj.replace k v o) = Obj.has k' o.
Proof.
  induction o as [|[k1 v1] o IH]; [reflexivity|].
  cbn [Obj.replace]. destruct (String.eqb k k1); cbn [Obj.has]; [reflexivity|].
  rewrite IH. reflexivity.
Qed.

Lemma has_insert_index (n : N) (k k' : string) (v : value) (o : jsobj) :
  Obj.has k' (Obj.insert_index n k v o) = String.eqb k' k || Obj.has k' o.
Proof.
  induction o as [|[k1 v1] o IH]; [reflexivity|].
  cbn [Obj.insert_index]. destruct (JS.array_index k1) as [m|]; [|reflexivity].
  destruct (m <? n)%N; [|reflexivity].
  cbn [Obj.has]. rewrite IH, !orb_assoc. f_equal. apply orb_comm.
Qed.

Lemma has_set (k k' : string) (v : value) (o : jsobj) :
  Obj.has k' (Obj.set k v o) = String.eqb k' k || Obj.has k' o.
Proof.
  unfold Obj.set. destruct (Obj.has k o) eqn:Eh.
  - rewrite has_replace. destruct (String.eqb_spec k' k) as [->|]; [|reflexivity].
    rewrite Eh. reflexivity.
  - destruct (JS.array_index k).
    + apply has_insert_index.
    + rewrite has_app. cbn [Obj.has]. rewrite orb_false_r. apply orb_comm.
Qed.

Lemma get_replace (k k' : string) (v : value) (o : jsobj) :
  Obj.has k o = true ->
  Obj.get k' (Obj.replace k v o) = if String.eqb k' k then v else Obj.get k' o.
Proof.
  induction o as [|[k1 v1] o IH]; [discriminate|].
  cbn [Obj.has Obj.replace]. destruct (String.eqb_spec k k1) as [->|Hne].
  - intros _. cbn [Obj.get]. destruct (String.eqb k' k1); reflexivity.
  - cbn [orb Obj.get]. intros Hh.
    destruct (String.eqb_spec k' k1) as [->|].
    + destruct (String.eqb_spec k1 k); [congruence | reflexivity].
    + apply IH. exact Hh.
Qed.

Lemma get_insert_index (n : N) (k k' : string) (v : value) (o : jsobj) :
  Obj.has k o = false ->
  Obj.get k' (Obj.insert_index n k v o) = if String.eqb k' k then v else Obj.get k' o.
Proof.
  induction o as [|[k1 v1] o IH]; [reflexivity|].
  cbn [Obj.has Obj.insert_index].
  destruct (String.eqb_spec k k1) as [|Hne]; [discriminate|]. cbn [orb]. intros Hh.
  destruct (JS.array_index k1) as [m|]; [|reflexivity].
  destruct (m <? n)%N; [|reflexivity].
  cbn [Obj.get]. destruct (String.eqb_spec k' k1) as [->|].
  - destruct (String.eqb_spec k1 k); [congruence | reflexivity].
  - apply IH. exact Hh.
Qed.

(** What is written under a key is read back under it, and no other key
    is touched. *)
Lemma get_set (k k' : string) (v : value) (o : jsobj) :
  Obj.get k' (Obj.set k v o) = if String.eqb k' k then v else Obj.get k' o.
Proof.
  unfold Obj.set. destruct (Obj.has k o) eqn:Eh.
  - apply get_replace. exact Eh.
  - destruct (JS.array_index k).
    + apply get_insert_index. exact Eh.
    + rewrite get_app. cbn [Obj.get].
      destruct (String.eqb_spec k' k) as [->|].
      * rewrite Eh. reflexivity.
      * destruct (Obj.has k' o) eqn:Eh'; [reflexivity|].
        symmetry. apply get_missing. exact Eh'.
Qed.

Lemma last_write_cons (k k1 : string) (v1 : value) (l : jsobj) :
  last_write k ((k1, v1) :: l)
  = if Obj.has k l then last_write k l
    else if String.eqb k k1 then v1 else VUndefined.
Proof.
  unfold last_write. cbn [rev]. rewrite get_app, has_rev. reflexivity.
Qed.

Lemma last_write_app (k : string) (a b : jsobj) :
  last_write k (a ++ b) = if Obj.has k b then last_write k b else last_write k a.
Proof.
  unfold last_write. rewrite rev_app_distr, get_app, has_rev. reflexivity.
Qed.

Lemma has_assign (k : string) (l o : jsobj) :
  Obj.has k (Obj.assign o l) = Obj.has k o || Obj.has k l.
Proof.
  revert o. induction l as [|[k1 v1] l IH]; intros o.
  - cbn. rewrite orb_false_r. reflexivity.
  - unfold Obj.assign. cbn [fold_left fst snd]. fold (Obj.assign (Obj.set k1 v1 o) l).
    rewrite IH, has_set. cbn [Obj.has].
    destruct (String.eqb k k1), (Obj.has k o), (Obj.has k l); reflexivity.
Qed.

Lemma get_assign (k : string) (l o : jsobj) :
  Obj.get k (Obj.assign o l) = if Obj.has k l then last_write k l else Obj.get k o.
Proof.
  revert o. induction l as [|[k1 v1] l IH]; intros o; [reflexivity|].
  unfold Obj.assign. cbn [fold_left fst snd]. fold (Obj.assign (Obj.set k1 v1 o) l).
  rewrite IH, get_set, last_write_cons. cbn [Obj.has].
  destruct (Obj.has k l); [rewrite orb_true_r; reflexivity|].
  rewrite orb_false_r. destruct (String.eqb k k1); reflexivity.
Qed.

Lemma store_lookup (key : string) (r : value) (ctx : BinpatContext) (k : string) :
  canonical (data ctx) ->
  Obj.has k (data (store key r ctx))
  = Obj.has k (data ctx) || Obj.has k (contribution key r)
  /\ Obj.get k (data (store key r ctx))
     = if Obj.has k (contribution key r) then last_write k (contribution key r)
       else Obj.get k (data ctx).
Proof.
  intros Hc. unfold store, contribution.
  destruct (JS.startsWith key "...").
  - cbn [data set_data]. unfold Obj.spread2.
    rewrite (assign_canonical (data ctx) []) by exact Hc. cbn [app].
    split; [apply has_assign | apply get_assign].
  - destruct (JS.startsWith key "//").
    + cbn [Obj.has]. rewrite orb_false_r. split; reflexivity.
    + cbn [data set_data]. rewrite has_set, get_set. cbn [Obj.has].
      rewrite orb_false_r. split; [apply orb_comm|].
      unfold last_write. cbn [rev app Obj.get].
      destruct (String.eqb k key); reflexivity.
Qed.

Lemma exec_trace_lookup (dv : list byte) (kvs : list (string * BinpatPattern))
    (k : string) :
  forall ctx rs ctx',
    canonical (data ctx) ->
    exec_trace dv kvs ctx = Ok (rs, ctx') ->
    Obj.has k (data ctx') = Obj.has k (data ctx) || Obj.has k (contributions rs)
    /\ Obj.get k (data ctx')
       = if Obj.has k (contributions rs) then last_write k (contributions rs)
         else Obj.get k (data ctx).
Proof.
  induction kvs as [|[key pat] kvs IH]; intros ctx rs ctx' Hc H.
  - injection H as <- <-. cbn. rewrite orb_false_r. split; reflexivity.
  - cbn [exec_trace] in H. bind_ok H r c1 E1. bind_ok H rs2 c2 E2.
    injection H as <- <-.
    apply exec_frame_data in E1. rewrite <- E1 in Hc |- *.
    destruct (store_lookup key r c1 k Hc) as [Hh Hg].
    destruct (IH _ _ _ (canonical_store key r c1 Hc) E2) as [IHh IHg].
    unfold contributions in *. cbn [flat_map fst snd].
    fold (contributions rs2) in *.
    rewrite has_app, last_write_app. split.
    + rewrite IHh, Hh, orb_assoc. reflexivity.
    + rewrite IHg, Hg.
      destruct (Obj.has k (contributions rs2)); [rewrite orb_true_r; reflexivity|].
      rewrite orb_false_r. reflexivity.
Qed.

(** X12. Whatever the keys are, repeated or not, the result of a
    Structure holds exactly the keys that its entries contribute (the
    plain keys and the keys of the spread sub-results, no omitted key),
    and under each of them the value written last: a later entry wins
    over an earlier one of the same key. *)
Theorem structure_last_write_wins (dv : list byte)
    (entries : list (string * BinpatPattern)) (parent_ : BinpatContext)
    (rs : list (string * value)) (ctx : BinpatContext) (k : string) :
  exec_trace dv entries (child_context parent_) = Ok (rs, ctx) ->
  exec dv (PObject entries) parent_
  = Ok (VObject (data ctx), set_offset parent_ (offset ctx))
  /\ Obj.has k (data ctx) = Obj.has k (contributions rs)
  /\ Obj.get k (data ctx) = last_write k (contributions rs).
Proof.
  intros H. split.
  - rewrite exec_object, exec_entries_trace, H. reflexivity.
  - destruct (exec_trace_lookup dv entries k (child_context parent_) rs ctx
                canonical_nil H) as [Hh Hg].
    cbn [data child_context Obj.has Obj.get orb] in Hh, Hg. split; [exact Hh|].
    rewrite Hg. destruct (Obj.has k (contributions rs)) eqn:E; [reflexivity|].
    unfold last_write. symmetry. apply get_missing. rewrite has_rev. exact E.
Qed.

Lemma structure_last_write_wins_witness :
  exec_trace [x01; x02; x03] colliding_entries (child_context (root_context big))
  = Ok ([("a", VNumber 1);
         (spread "0c", VObject [("b", VNumber 2); ("a", VNumber 3)])],
        mkContext big (Some (root_context big)) 3 [("a", VNumber 3); ("b", VNumber 2)])
  /\ Obj.get "a" [("a", VNumber 3); ("b", VNumber 2)]
     = last_write "a" [("a", VNumber 1); ("b", VNumber 2); ("a", VNumber 3)].
Proof.
  assert (H : exec_trace [x01; x02; x03] colliding_entries
                (child_context (root_context big))
              = Ok ([("a", VNumber 1);
                     (spread "0c", VObject [("b", VNumber 2); ("a", VNumber 3)])],
                    mkContext big (Some (root_context big)) 3
                      [("a", VNumber 3); ("b", VNumber 2)])) by reflexivity.
  split; [exact H|].
  exact (proj2 (proj2 (structure_last_write_wins _ _ _ _ _ "a" H))).
Defined.

(** X13. A field decoded under a plain key is visible to the entries that
    follow it: they run on a context whose data gives the decoded value
    under that key and the values it had under every other key, at the
    offset where the field has left it. *)
Theorem decoded_field_is_visible (dv : list byte) (key : string)
    (pat : BinpatPattern) (kvs : list (string * BinpatPattern))
    (ctx : BinpatContext) (r : value) (ctx1 : BinpatContext) :
  JS.startsWith key "..." = false ->
  JS.startsWith key "//" = false ->
  exec dv pat ctx = Ok (r, ctx1) ->
  exists ctx2,
    exec_entries dv ((key, pat) :: kvs) ctx = exec_entries dv kvs ctx2
    /\ Obj.get key (data ctx2) = r
    /\ (forall k, k <> key -> Obj.get k (data ctx2) = Obj.get k (data ctx))
    /\ offset ctx2 = offset ctx1
    /\ parent ctx2 = parent ctx.
Proof.
  intros Hs Ho H. exists (store key r ctx1).
  cbn [exec_entries]. rewrite H. cbn [bind].
  pose proof (exec_frame _ _ _ _ _ H) as Hf.
  unfold store. rewrite Hs, Ho. cbn [data set_data offset parent].
  rewrite (exec_frame_data _ _ _ _ _ H).
  split; [reflexivity|]. split; [|split; [|split]].
  - rewrite get_set, String.eqb_refl. reflexivity.
  - intros k Hk. rewrite get_set.
    destruct (String.eqb_spec k key); [contradiction | reflexivity].
  - reflexivity.
  - rewrite Hf. reflexivity.
Qed.

Lemma decoded_field_is_visible_witness :
  JS.startsWith "count" "..." = false
  /\ JS.startsWith "count" "//" = false
  /\ exec [x03; x0a; x14; x1e; x63] (u8 None) (child_context (root_context big))
     = Ok (VNumber 3, set_offset (child_context (root_context big)) 1)
  /\ exists ctx2,
       exec_entries [x03; x0a; x14; x1e; x63]
         [("count", u8 None); ("items", array (u8 None) (Fn data_count))]
         (child_context (root_context big))
       = exec_entries [x03; x0a; x14; x1e; x63]
           [("items", array (u8 None) (Fn data_count))] ctx2
       /\ Obj.get "count" (data ctx2) = VNumber 3.
Proof.
  assert (H1 : JS.startsWith "count" "..." = false) by reflexivity.
  assert (H2 : JS.startsWith "count" "//" = false) by reflexivity.
  assert (H3 : exec [x03; x0a; x14; x1e; x63] (u8 None)
                 (child_context (root_context big))
               = Ok (VNumber 3, set_offset (child_context (root_context big)) 1))
    by reflexivity.
  split; [exact H1|]. split; [exact H2|]. split; [exact H3|].
  destruct (decoded_field_is_visible [x03; x0a; x14; x1e; x63] "count" (u8 None)
              [("items", array (u8 None) (Fn data_count))] _ _ _ H1 H2 H3)
    as [ctx2 [He [Hg _]]].
  exists ctx2. split; [exact He | exact Hg].
Defined.

Lemma set_data_id (c : BinpatContext) : set_data c (data c) = c.
Proof. destruct c; reflexivity. Qed.

(** X14. A spread entry whose [ternary] has no [falsy] pattern and whose
    condition is false adds nothing and reads nothing: the Structure
    decodes as if the entry were not there. *)
Theorem spread_of_absent_branch (dv : list byte)
    (kvs : list (string * BinpatPattern)) (key : string)
    (condition : BinpatContext -> bool) (truthy : BinpatPattern)
    (kvs' : list (string * BinpatPattern)) (parent_ ctx : BinpatContext) :
  exec_entries dv kvs (child_context parent_) = Ok ctx ->
  JS.startsWith key "..." = true ->
  condition ctx = false ->
  exec dv (PObject (kvs ++ (key, ternary condition truthy None) :: kvs')) parent_
  = exec dv (PObject (kvs ++ kvs')) parent_.
Proof.
  intros Hkvs Hkey Hc.
  rewrite !exec_object, !exec_entries_app, Hkvs.
  cbn [exec_entries ternary exec]. rewrite Hc. cbn [bind].
  unfold store. rewrite Hkey. unfold Obj.spread2. cbn [Obj.own_entries].
  rewrite (assign_canonical (data ctx) []).
  - cbn [app Obj.assign fold_left]. rewrite set_data_id. reflexivity.
  - cbn [app].
    apply (exec_entries_canonical dv kvs (child_context parent_) ctx canonical_nil Hkvs).
Qed.

Lemma spread_of_absent_branch_witness :
  exec_entries [x00; x07] [("flag", PBool)] (child_context (root_context big))
  = Ok (mkContext big (Some (root_context big)) 1 [("flag", VBoolean false)])
  /\ JS.startsWith (spread "12") "..." = true
  /\ data_flag (mkContext big (Some (root_context big)) 1 [("flag", VBoolean false)])
     = false
  /\ exec [x00; x07]
       (PObject ([("flag", PBool)]
                 ++ (spread "12", ternary data_flag (PObject [("truthy", u8 None)]) None)
                    :: [("tail", u8 None)]))
       (root_context big)
     = Ok (VObject [("flag", VBoolean false); ("tail", VNumber 7)],
           set_offset (root_context big) 2).
Proof.
  assert (H1 : exec_entries [x00; x07] [("flag", PBool)]
                 (child_context (root_context big))
               = Ok (mkContext big (Some (root_context big)) 1
                       [("flag", VBoolean false)])) by reflexivity.
  assert (H2 : JS.startsWith (spread "12") "..." = true) by reflexivity.
  assert (H3 : data_flag (mkContext big (Some (root_context big)) 1
                            [("flag", VBoolean false)]) = false) by reflexivity.
  split; [exact H1|]. split; [exact H2|]. split; [exact H3|].
  rewrite (spread_of_absent_branch _ _ _ _ (PObject [("truthy", u8 None)])
             [("tail", u8 None)] _ _ H1 H2 H3).
  reflexivity.
Defined.

(** ** Further properties of the markers and of strings *)

Lemma array_index_not_digit (c : ascii) (s : string) :
  (forall d, NilEmpty.uint_of_string (String c s) <> Some d) ->
  JS.array_index (String c s) = None.
Proof.
  intros H. unfold JS.array_index.
  destruct (NilEmpty.uint_of_string (String c s)) as [u|] eqn:E; [|reflexivity].
  exfalso. apply (H u). reflexivity.
Qed.

(** X15. The keys that [omit()] and [spread()] build are as distinct as
    the draws they are built from, an omit key is never a spread key, and
    none of them is an array index: in the pattern they stay where they
    are declared. *)
Theorem marker_keys_distinct (rnd1 rnd2 : string) :
  (omit rnd1 = omit rnd2 <-> rnd1 = rnd2)
  /\ (spread rnd1 = spread rnd2 <-> rnd1 = rnd2)
  /\ omit rnd1 <> spread rnd2
  /\ JS.array_index (omit rnd1) = None
  /\ JS.array_index (spread rnd1) = None.
Proof.
  unfold omit, spread. cbn [String.append]. repeat split.
  - intros H. injection H as ->. reflexivity.
  - intros ->. reflexivity.
  - intros H. injection H as ->. reflexivity.
  - intros ->. reflexivity.
  - discriminate.
  - apply array_index_not_digit. intros d. cbn [NilEmpty.uint_of_string].
    destruct (NilEmpty.uint_of_string _); discriminate.
  - apply array_index_not_digit. intros d. cbn [NilEmpty.uint_of_string].
    destruct (NilEmpty.uint_of_string _); discriminate.
Qed.

Lemma slice_span {A : Type} (l : list A) (o len : Z) :
  0 <= o -> 0 <= len ->
  JS.slice l o (o + len) = firstn (Z.to_nat len) (skipn (Z.to_nat o) l).
Proof.
  intros Ho Hlen. unfold JS.slice, JS.relative_index.
  destruct (Z.ltb_spec o 0) as [|_]; [lia|].
  destruct (Z.ltb_spec (o + len) 0) as [|_]; [lia|].
  set (L := Z.of_nat (List.length l)).
  destruct (Z.le_gt_cases o L) as [HoL|HoL].
  - replace (Z.to_nat (Z.min o L)) with (Z.to_nat o) by lia.
    destruct (Z.le_gt_cases (o + len) L) as [Hin|Hout].
    + f_equal. lia.
    + replace (Z.to_nat (Z.min (o + len) L - Z.min o L)) with (Z.to_nat (L - o)) by lia.
      rewrite !firstn_all2; [reflexivity | |]; rewrite length_skipn; subst L; lia.
  - replace (Z.to_nat (Z.min (o + len) L - Z.min o L)) with 0%nat by lia.
    rewrite (skipn_all2 (n := Z.to_nat o)) by (subst L; lia).
    rewrite firstn_nil. reflexivity.
Qed.

(** X16. A string of a non-negative size read at a non-negative offset
    decodes the bytes that exist among the [size] bytes at the offset, in
    buffer order: all of them when they lie inside the buffer, those up
    to the end of the buffer otherwise; the offset moves by [size] in
    both cases. *)
Theorem string_decodes_existing_bytes (dv : list byte) (size : NumberOrFn)
    (encoding : TextDecoder) (ctx : BinpatContext) :
  0 <= offset ctx ->
  0 <= resolve size ctx ->
  exec dv (PString size encoding) ctx
  = Ok (VString (decode encoding (span dv (offset ctx) (resolve size ctx))),
        set_offset ctx (offset ctx + resolve size ctx))
  /\ Z.of_nat (List.length (span dv (offset ctx) (resolve size ctx)))
     = Z.min (resolve size ctx)
         (Z.max 0 (Z.of_nat (List.length dv) - offset ctx)).
Proof.
  intros Ho Hs. split.
  - cbn [exec]. unfold string_handler. rewrite slice_span by assumption. reflexivity.
  - unfold span. rewrite length_firstn, length_skipn. lia.
Qed.

Lemma string_decodes_existing_bytes_witness :
  0 <= offset (set_offset (root_context big) 1)
  /\ 0 <= resolve (Num 4) (set_offset (root_context big) 1)
  /\ exec [x61; x62; x63] (PString (Num 4) latin1) (set_offset (root_context big) 1)
     = Ok (VString "bc", set_offset (root_context big) 5).
Proof.
  assert (H1 : 0 <= offset (set_offset (root_context big) 1))
    by (vm_compute; discriminate).
  assert (H2 : 0 <= resolve (Num 4) (set_offset (root_context big) 1))
    by (vm_compute; discriminate).
  split; [exact H1|]. split; [exact H2|].
  rewrite (proj1 (string_decodes_existing_bytes [x61; x62; x63] (Num 4) latin1
                    (set_offset (root_context big) 1) H1 H2)).
  reflexivity.
Defined.

(** ** Further properties of bitfields *)

Lemma fromEntries_plain (l : jsobj) :
  NoDup (Obj.keys l) -> Forall not_index (Obj.keys l) -> Obj.fromEntries l = l.
Proof.
  intros Hnd Hni. unfold Obj.fromEntries. rewrite assign_append; auto.
Qed.

(** X17. A bitfield never fails, moves the offset by the number of bytes
    that cover its declared bits, and returns its fields in the order of
    the layout, the omitted ones left out, whatever the byte order and
    the bit numbering are; the keys are pairwise distinct and none is an
    array index. *)
Theorem bitfield_keys_in_layout_order (dv : list byte)
    (field : list (string * BitfieldDef)) (option : BitfieldOption)
    (ctx : BinpatContext) :
  NoDup (filter (fun key => negb (JS.startsWith key "//")) (map fst field)) ->
  Forall (fun k => JS.array_index k = None)
    (filter (fun key => negb (JS.startsWith key "//")) (map fst field)) ->
  exists o,
    exec dv (bitfield field option) ctx
    = Ok (VObject o,
          set_offset ctx
            (offset ctx + JS.ceil_div8 (Bitfield.bitSize (Bitfield.definitions field))))
    /\ Obj.keys o = filter (fun key => negb (JS.startsWith key "//")) (map fst field).
Proof.
  intros Hnd Hni. eexists. split.
  - cbn [bitfield exec]. unfold Bitfield.handler. reflexivity.
  - set (ks := filter _ (map fst field)) in *.
    rewrite fromEntries_plain.
    + unfold Obj.keys. rewrite map_map. cbn [fst]. apply map_id.
    + unfold Obj.keys. rewrite map_map. cbn [fst]. rewrite map_id. exact Hnd.
    + unfold Obj.keys. rewrite map_map. cbn [fst]. rewrite map_id. exact Hni.
Qed.

Lemma bitfield_keys_in_layout_order_witness :
  NoDup (filter (fun key => negb (JS.startsWith key "//"))
           (map fst (example_layout "13")))
  /\ Forall (fun k => JS.array_index k = None)
       (filter (fun key => negb (JS.startsWith key "//"))
          (map fst (example_layout "13")))
  /\ exists o,
       exec [x55; xcc]
         (bitfield (example_layout "13")
            {| option_endian := Some little; option_first := Some LSb |})
         (root_context big)
       = Ok (VObject o, set_offset (root_context big) 2)
       /\ Obj.keys o = ["a"; "b"; "c"; "d"].
Proof.
  assert (H1 : NoDup (filter (fun key => negb (JS.startsWith key "//"))
                        (map fst (example_layout "13")))).
  { simpl. repeat constructor; simpl; intuition discriminate. }
  assert (H2 : Forall (fun k => JS.array_index k = None)
                 (filter (fun key => negb (JS.startsWith key "//"))
                    (map fst (example_layout "13")))).
  { simpl. repeat constructor. }
  split; [exact H1|]. split; [exact H2|].
  destruct (bitfield_keys_in_layout_order [x55; xcc] (example_layout "13")
              {| option_endian := Some little; option_first := Some LSb |}
              (root_context big) H1 H2) as [o [He Hk]].
  exists o. split; [exact He | exact Hk].
Defined.

Lemma parseInt2_bound (s : list bool) (v : Z) :
  Bitfield.parseInt2 s = Some v -> 0 <= v < 2 ^ Z.of_nat (List.length s).
Proof.
  assert (Hfold : forall l acc,
            0 <= acc ->
            acc * 2 ^ Z.of_nat (List.length l)
            <= fold_left (fun a (d : bool) => 2 * a + (if d then 1 else 0)) l acc
            < (acc + 1) * 2 ^ Z.of_nat (List.length l)).
  { induction l as [|d l IH]; intros acc Hacc.
    - cbn. lia.
    - cbn [fold_left List.length]. rewrite Nat2Z.inj_succ, Z.pow_succ_r by lia.
      assert (HP : 0 < 2 ^ Z.of_nat (List.length l)) by (apply Z.pow_pos_nonneg; lia).
      destruct d.
      + specialize (IH (2 * acc + 1) ltac:(lia)).
        remember (2 ^ Z.of_nat (List.length l)) as P eqn:EP. clear EP.
        remember (fold_left _ l (2 * acc + 1)) as F eqn:EF. clear EF. nia.
      + specialize (IH (2 * acc + 0) ltac:(lia)).
        remember (2 ^ Z.of_nat (List.length l)) as P eqn:EP. clear EP.
        remember (fold_left _ l (2 * acc + 0)) as F eqn:EF. clear EF. nia. }
  destruct s as [|d s]; [discriminate|].
  intros H.
  assert (Hv : v = fold_left (fun a (d : bool) => 2 * a + (if d then 1 else 0))
                     (d :: s) 0).
  { unfold Bitfield.parseInt2 in H. congruence. }
  specialize (Hfold (d :: s) 0 ltac:(lia)). rewrite Hv. lia.
Qed.

(** X18. A signed field of 1 to 30 bits is read in two's complement: the
    bits [s] of the field, of unsigned value [v], give [v] when the first
    bit is clear and [v - 2^n] when it is set, an integer between
    -2^(n-1) and 2^(n-1) - 1. *)
Theorem bitfield_signed_value (n : Z) (s : list bool) (v : Z) :
  1 <= n <= 30 ->
  Z.of_nat (List.length s) = n ->
  Bitfield.parseInt2 s = Some v ->
  Bitfield.typedValue {| type := kind_i; size := n |} (Bitfield.parseInt2 s)
  = VNumber (DataView.to_signed n v)
  /\ - 2 ^ (n - 1) <= DataView.to_signed n v < 2 ^ (n - 1).
Proof.
  intros Hn Hlen Hv. pose proof (parseInt2_bound s v Hv) as Hb. rewrite Hlen in Hb.
  split; [|apply to_signed_range; lia].
  rewrite Hv. unfold Bitfield.typedValue. cbn [type size].
  unfold JS.shl1. rewrite !Z.mod_small by lia.
  destruct (Z.eqb_spec (n - 1) 31) as [|_]; [lia|].
  destruct (Z.eqb_spec n 31) as [|_]; [lia|].
  unfold DataView.to_signed.
  destruct (Z.ltb_spec v (2 ^ (n - 1))), (Z.leb_spec (2 ^ (n - 1)) v);
    try reflexivity; lia.
Qed.

Lemma bitfield_signed_value_witness :
  1 <= 5 <= 30
  /\ Z.of_nat (List.length [true; true; false; true; false]) = 5
  /\ Bitfield.parseInt2 [true; true; false; true; false] = Some 26
  /\ Bitfield.typedValue {| type := kind_i; size := 5 |}
       (Bitfield.parseInt2 [true; true; false; true; false])
     = VNumber (-6).
Proof.
  assert (H1 : 1 <= 5 <= 30) by lia.
  assert (H2 : Z.of_nat (List.length [true; true; false; true; false]) = 5)
    by reflexivity.
  assert (H3 : Bitfield.parseInt2 [true; true; false; true; false] = Some 26)
    by reflexivity.
  split; [exact H1|]. split; [exact H2|]. split; [exact H3|].
  rewrite (proj1 (bitfield_signed_value 5 _ 26 H1 H2 H3)). reflexivity.
Defined.

(** X19. A signed field of 31 or 32 bits is not read in two's complement,
    because [1 << 31] is negative and [1 << 32] is 1: a field of 31 bits
    whose first bit is set gives [v + 2^31], and a field of 32 bits gives
    [v - 1], whatever its unsigned value [v] is. *)
Theorem bitfield_signed_wide (v : Z) :
  0 <= v ->
  Bitfield.typedValue {| type := kind_i; size := 31 |} (Some v)
  = VNumber (if v <? 2 ^ 30 then v else v + 2 ^ 31)
  /\ Bitfield.typedValue {| type := kind_i; size := 32 |} (Some v) = VNumber (v - 1).
Proof.
  intros Hv. unfold Bitfield.typedValue. cbn [type size]. split.
  - change (JS.shl1 (31 - 1)) with (2 ^ 30). change (JS.shl1 31) with (- 2 ^ 31).
    destruct (v <? 2 ^ 30); f_equal; lia.
  - change (JS.shl1 (32 - 1)) with (- 2 ^ 31). change (JS.shl1 32) with 1.
    destruct (Z.ltb_spec v (- 2 ^ 31)); [lia | reflexivity].
Qed.

Lemma bitfield_signed_wide_witness :
  0 <= 4294967295
  /\ Bitfield.typedValue {| type := kind_i; size := 32 |} (Some 4294967295)
     = VNumber 4294967294.
Proof.
  assert (H : 0 <= 4294967295) by lia.
  split; [exact H|].
  exact (proj2 (bitfield_signed_wide 4294967295 H)).
Defined.

(** Thirty-two set bits read as a signed field of 32 bits. *)
Example bitfield_signed_32 :
  exec [xff; xff; xff; xff] (bitfield [("x", Bitfield.i 32)] no_option)
    (root_context big)
  = Ok (VObject [("x", VNumber 4294967294)], set_offset (root_context big) 4).
Proof. reflexivity. Qed.

Lemma bits_fold_acc (l : list bool) :
  forall acc,
    fold_left (fun a (d : bool) => 2 * a + (if d then 1 else 0)) l acc
    = acc * 2 ^ Z.of_nat (List.length l)
      + fold_left (fun a (d : bool) => 2 * a + (if d then 1 else 0)) l 0.
Proof.
  induction l as [|d l IH]; intros acc.
  - cbn [fold_left List.length]. change (2 ^ Z.of_nat 0) with 1. lia.
  - cbn [fold_left List.length]. rewrite Nat2Z.inj_succ, Z.pow_succ_r by lia.
    rewrite (IH (2 * acc + (if d then 1 else 0))), (IH (2 * 0 + (if d then 1 else 0))).
    ring.
Qed.

Lemma byte_bits_fold (b : byte) (acc : Z) :
  fold_left (fun a (d : bool) => 2 * a + (if d then 1 else 0)) (Bitfield.byte_bits b) acc
  = acc * 256 + byte_val b.
Proof.
  rewrite bits_fold_acc. f_equal. destruct b; reflexivity.
Qed.

Lemma bytes_bits_fold (bs : list byte) :
  forall acc,
    fold_left (fun a (d : bool) => 2 * a + (if d then 1 else 0))
      (flat_map Bitfield.byte_bits bs) acc
    = fold_left (fun a b => a * 256 + byte_val b) bs acc.
Proof.
  induction bs as [|b bs IH]; intros acc; [reflexivity|].
  cbn [flat_map fold_left]. rewrite fold_left_app, byte_bits_fold. apply IH.
Qed.

Lemma length_bytes_bits (bs : list byte) :
  List.length (flat_map Bitfield.byte_bits bs) = (8 * List.length bs)%nat.
Proof.
  induction bs as [|b bs IH]; [reflexivity|].
  cbn [flat_map]. rewrite length_app, IH. unfold Bitfield.byte_bits.
  rewrite length_map. cbn [List.length]. lia.
Qed.

(** The binary digits of the bytes, read in base 2, are the integer whose
    big-endian bytes they are. *)
Lemma parseInt2_bytes (bs : list byte) :
  bs <> [] -> Bitfield.parseInt2 (flat_map Bitfield.byte_bits bs) = Some (be_value bs).
Proof.
  intros Hne. pose proof (length_bytes_bits bs) as Hlen.
  unfold Bitfield.parseInt2.
  destruct (flat_map Bitfield.byte_bits bs) as [|d s] eqn:E.
  - destruct bs; [contradiction | discriminate Hlen].
  - rewrite <- E, bytes_bits_fold. reflexivity.
Qed.

Lemma fromEntries_one (k : string) (v : value) : Obj.fromEntries [(k, v)] = [(k, v)].
Proof.
  unfold Obj.fromEntries, Obj.assign. cbn [fold_left fst snd]. unfold Obj.set.
  cbn [Obj.has]. destruct (JS.array_index k); reflexivity.
Qed.

(** X20. A bitfield with a single unsigned field of 8, 16 or 32 bits
    whose bytes lie inside the buffer decodes as the Structure with the
    one primitive [u8], [u16] or [u32] under the same key, read in the
    byte order of the bitfield (its [endian] option, else that of the
    context), whatever the bit numbering is. *)
Theorem bitfield_whole_bytes (dv : list byte) (key : string)
    (c : TypedArrayConstructor) (option : BitfieldOption) (ctx : BinpatContext) :
  (forall n, DataView.numeric c n = VNumber n) ->
  JS.startsWith key "..." = false ->
  JS.startsWith key "//" = false ->
  in_range dv (offset ctx) (DataView.BYTES_PER_ELEMENT c) ->
  exec dv (bitfield [(key, BitNumber (8 * DataView.BYTES_PER_ELEMENT c))] option) ctx
  = exec dv
      (PObject
         [(key,
           PTyped c
             (Some
                (Endian_eqb
                   match option_endian option with
                   | Some e => e
                   | None => endian ctx
                   end little)))])
      ctx.
Proof.
  intros Hnum Hs Ho Hin.
  pose proof (BYTES_PER_ELEMENT_pos c) as Hpos.
  set (W := DataView.BYTES_PER_ELEMENT c) in *.
  set (e := match option_endian option with Some e => e | None => endian ctx end).
  (* the Structure *)
  rewrite exec_object. cbn [exec_entries].
  rewrite exec_typed. cbn [offset child_context byte_order].
  rewrite (GetViewValue_in_range dv (offset ctx) (Endian_eqb e little) c Hin).
  cbn [bind]. unfold store. rewrite Hs, Ho. cbn [data set_data offset set_offset].
  unfold read_value. rewrite Hnum. fold W.
  (* the bitfield *)
  cbn [bitfield exec]. unfold Bitfield.handler. fold e.
  unfold Bitfield.definitions, Bitfield.bitSize.
  cbn [map fst snd Bitfield.definition fold_left size].
  assert (Hceil : JS.ceil_div8 (0 + 8 * W) = W).
  { unfold JS.ceil_div8. symmetry. apply (Z.div_unique _ _ _ 7); lia. }
  rewrite Hceil. replace (W * 8 - (0 + 8 * W)) with 0 by lia. cbn [Z.eqb].
  assert (Hrev : forall (f : BitFirst),
            match f with
            | MSb => [(key, {| type := kind_u; size := 8 * W |})]
            | LSb => rev [(key, {| type := kind_u; size := 8 * W |})]
            end = [(key, {| type := kind_u; size := 8 * W |})]).
  { intros []; reflexivity. }
  rewrite Hrev. clear Hrev.
  rewrite slice_span by (destruct Hin; lia). fold (span dv (offset ctx) W).
  set (bs := span dv (offset ctx) W).
  assert (Hlen : List.length bs = Z.to_nat W).
  { subst bs. apply length_span; [lia | exact Hin]. }
  set (bytes := match e with little => rev bs | big => bs end).
  assert (Hbytes : bytes = if Endian_eqb e little then rev bs else bs).
  { subst bytes. destruct e; reflexivity. }
  assert (Hblen : List.length bytes = Z.to_nat W).
  { subst bytes. destruct e; rewrite ?length_rev; exact Hlen. }
  cbn [Bitfield.values size]. rewrite Ho.
  unfold Bitfield.typedValue. cbn [type].
  assert (Hall : JS.slice (flat_map Bitfield.byte_bits bytes) 0 (8 * W)
                 = flat_map Bitfield.byte_bits bytes).
  { change (8 * W) with (0 + 8 * W). rewrite slice_span by lia.
    change (Z.to_nat 0) with 0%nat. cbn [skipn].
    apply firstn_all2. rewrite length_bytes_bits. lia. }
  rewrite Hall.
  rewrite parseInt2_bytes by (intros E; rewrite E in Hblen; cbn in Hblen; lia).
  rewrite fromEntries_one. cbn [filter map fst]. rewrite Ho. cbn [negb map].
  cbn [Obj.get]. rewrite String.eqb_refl, fromEntries_one.
  unfold Obj.set. cbn [Obj.has].
  rewrite Hbytes.
  destruct (JS.array_index key); reflexivity.
Qed.

Lemma bitfield_whole_bytes_witness :
  (forall n, DataView.numeric Uint16Array n = VNumber n)
  /\ JS.startsWith "x" "..." = false
  /\ JS.startsWith "x" "//" = false
  /\ in_range [x01; x02] (offset (root_context big))
       (DataView.BYTES_PER_ELEMENT Uint16Array)
  /\ exec [x01; x02]
       (bitfield [("x", BitNumber (8 * DataView.BYTES_PER_ELEMENT Uint16Array))]
          {| option_endian := Some little; option_first := None |})
       (root_context big)
     = Ok (VObject [("x", VNumber 513)], set_offset (root_context big) 2).
Proof.
  assert (H1 : forall n, DataView.numeric Uint16Array n = VNumber n)
    by (intros n; reflexivity).
  assert (H2 : JS.startsWith "x" "..." = false) by reflexivity.
  assert (H3 : JS.startsWith "x" "//" = false) by reflexivity.
  assert (H4 : in_range [x01; x02] (offset (root_context big))
                 (DataView.BYTES_PER_ELEMENT Uint16Array)).
  { unfold in_range. simpl. lia. }
  split; [exact H1|]. split; [exact H2|]. split; [exact H3|]. split; [exact H4|].
  rewrite (bitfield_whole_bytes [x01; x02] "x" Uint16Array
             {| option_endian := Some little; option_first := None |}
             (root_context big) H1 H2 H3 H4).
  reflexivity.
Defined.

(** ** The pattern of the icon files *)

Lemma exec_typed_ok (dv : list byte) (c : TypedArrayConstructor) (le : option bool)
    (ctx : BinpatContext) (v : value) (ctx' : BinpatContext) :
  exec dv (PTyped c le) ctx = Ok (v, ctx') ->
  v = read_value c (byte_order le ctx) dv (offset ctx)
  /\ ctx' = set_offset ctx (offset ctx + DataView.BYTES_PER_ELEMENT c).
Proof.
  intros H.
  assert (Hin : in_range dv (offset ctx) (DataView.BYTES_PER_ELEMENT c)).
  { assert (Hdec : in_range dv (offset ctx) (DataView.BYTES_PER_ELEMENT c)
                   \/ ~ in_range dv (offset ctx) (DataView.BYTES_PER_ELEMENT c))
      by (unfold in_range; lia).
    destruct Hdec as [Hin|Hout]; [exact Hin|].
    rewrite exec_typed, GetViewValue_out_of_range in H by exact Hout. discriminate H. }
  rewrite exec_typed, GetViewValue_in_range in H by exact Hin.
  injection H as <- <-. split; reflexivity.
Qed.

Lemma ico_header_fields (dv : list byte) (rnd : string) (ctx : BinpatContext)
    (h : value) (ctx' : BinpatContext) :
  exec dv (ico_header rnd) ctx = Ok (h, ctx') ->
  exists t n,
    h = VObject [("type", t); ("count", VNumber n)]
    /\ read_value Uint16Array (Endian_eqb (endian ctx) little) dv (offset ctx + 4)
       = VNumber n
    /\ 0 <= n < 65536
    /\ ctx' = set_offset ctx (offset ctx + 6).
Proof.
  unfold ico_header. rewrite exec_object. cbn [exec_entries].
  destruct (exec dv (u16 None) (child_context ctx)) as [[v1 c1]|e1] eqn:E1;
    cbn [bind]; [|discriminate].
  apply exec_typed_ok in E1. destruct E1 as [_ ->].
  assert (Hs1 : forall r c, store (omit rnd) r c = c) by reflexivity.
  rewrite Hs1.
  destruct (exec dv (convert (u16 None) image_type) _) as [[v2 c2]|e2] eqn:E2;
    cbn [bind]; [|discriminate].
  unfold convert in E2. cbn [exec] in E2.
  destruct (exec dv (u16 None) _) as [[v2' c2']|e2'] eqn:E2' in E2;
    cbn [bind] in E2; [|discriminate E2].
  injection E2 as <- <-.
  apply exec_typed_ok in E2'. destruct E2' as [_ ->].
  assert (Hs2 : forall r c, store "type" r c = set_data c (Obj.set "type" r (data c)))
    by reflexivity.
  rewrite Hs2.
  destruct (exec dv (u16 None) _) as [[v3 c3]|e3] eqn:E3; cbn [bind]; [|discriminate].
  pose proof (exec_typed_range _ _ _ _ _ _ E3) as Hr.
  apply exec_typed_ok in E3. destruct E3 as [-> ->].
  intros H. injection H as <- <-.
  cbn [offset set_offset set_data child_context data DataView.BYTES_PER_ELEMENT
       byte_order endian] in *.
  replace (offset ctx + 2 + 2) with (offset ctx + 4) in * by lia.
  unfold read_value in Hr |- *. cbn [DataView.numeric] in Hr |- *.
  cbn [element_range DataView.BYTES_PER_ELEMENT] in Hr.
  eexists _, _. split; [reflexivity|]. split; [reflexivity|].
  split; [exact Hr|]. f_equal. lia.
Qed.

Lemma ico_image_width (rnd : string) : fixed_width (ico_image rnd) = Some 16.
Proof. reflexivity. Qed.

(** X21. The icon pattern of [examples/ico.ts]: whenever it decodes a
    buffer, the result is a header with a [type] and a [count], the count
    being the little-endian 16-bit number at offset 4, followed by exactly
    [count] images; and the directory ends at byte [6 + 16 * count],
    because each image entry takes 16 bytes, its pixel data being read
    through [peek]. *)
Theorem ico_directory (dv : list byte) (rnd1 rnd2 : string)
    (v : value) (ctx' : BinpatContext) :
  exec dv (Binpat_pattern (ico rnd1 rnd2)) (root_context (Binpat_endian (ico rnd1 rnd2)))
  = Ok (v, ctx') ->
  exists t n images,
    v = VObject [("header", VObject [("type", t); ("count", VNumber n)]);
                 ("images", VArray images)]
    /\ read_value Uint16Array true dv 4 = VNumber n
    /\ List.length images = Z.to_nat n
    /\ offset ctx' = 6 + 16 * n.
Proof.
  unfold ico, new_Binpat. cbn [Binpat_pattern Binpat_endian]. unfold root_context.
  rewrite exec_object. cbn [exec_entries].
  destruct (exec dv (ico_header rnd1) _) as [[h c1]|e1] eqn:E1; cbn [bind]; [|discriminate].
  apply ico_header_fields in E1. destruct E1 as (t & n & -> & Hn & Hr & ->).
  cbn [child_context offset endian Endian_eqb] in Hn.
  assert (Hs : forall r c, store "header" r c = set_data c (Obj.set "header" r (data c)))
    by reflexivity.
  rewrite Hs. cbn [child_context data set_data set_offset offset].
  assert (Hset : forall r, Obj.set "header" r [] = [("header", r)]) by reflexivity.
  rewrite Hset.
  destruct (exec dv (array (ico_image rnd2) (Fn header_count)) _)
    as [[imgs c2]|e2] eqn:E2; cbn [bind]; [|discriminate].
  pose proof (exec_frame_data _ _ _ _ _ E2) as Hdata. cbn [data set_data] in Hdata.
  unfold array in E2. rewrite exec_array in E2.
  match type of E2 with
  | context [resolve (Fn header_count) ?c] =>
      change (resolve (Fn header_count) c) with n in E2
  end.
  cbv zeta in E2. unfold JS.ToLength in E2. rewrite Z.max_r in E2 by lia.
  rewrite (Array_from_plain (ico_image rnd2) n eq_refl) in E2
    by (unfold max_array_length; lia).
  destruct (exec_times dv (ico_image rnd2) (Z.to_nat n) _) as [[vs c3]|e3] eqn:E3;
    cbn [bind] in E2; [|discriminate E2].
  injection E2 as <- <-.
  pose proof (exec_times_length _ _ _ _ _ _ E3) as Hlen.
  pose proof (exec_times_fixed dv (ico_image rnd2) 16
                (fun c v c' => exec_fixed_width dv _ 16 c v c' (ico_image_width rnd2))
                _ _ _ _ E3) as Hoff.
  cbn [offset set_offset set_data child_context] in Hoff.
  assert (Hs2 : forall r c, store "images" r c = set_data c (Obj.set "images" r (data c)))
    by reflexivity.
  rewrite Hs2, Hdata. intros H. injection H as <- <-.
  exists t, n, vs.
  split; [reflexivity|]. split; [exact Hn|]. split; [exact Hlen|].
  cbn [offset set_offset set_data]. lia.
Qed.

Lemma ico_directory_witness :
  exec one_icon (Binpat_pattern (ico "a" "b")) (root_context (Binpat_endian (ico "a" "b")))
  = Ok (one_icon_result, mkContext little None 22 [])
  /\ exists t n images,
       one_icon_result
       = VObject [("header", VObject [("type", t); ("count", VNumber n)]);
                  ("images", VArray images)]
       /\ read_value Uint16Array true one_icon 4 = VNumber n
       /\ List.length images = Z.to_nat n
       /\ offset (mkContext little None 22 []) = 6 + 16 * n.
Proof.
  assert (H : exec one_icon (Binpat_pattern (ico "a" "b"))
                (root_context (Binpat_endian (ico "a" "b")))
              = Ok (one_icon_result, mkContext little None 22 []))
    by (vm_compute; reflexivity).
  split; [exact H|].
  exact (ico_directory one_icon "a" "b" one_icon_result (mkContext little None 22 []) H).
Defined.
